(* ===== verification/_CoqProject ===== *)
-Q . S2P
Prelude.v
Dom.v
Web.v
PyStr.v
IpAddress.v
UrlParse.v
Extract.v
Fixtures.v
Paginate.v
Json.v
Scanner.v
Roundtrip.v
Dedup.v
Crawl.v
Pipeline.v
