(* ===== verification/Prelude.v ===== *)
(** * A verified model of the freecad-tolkovatel forum crawler

    The repository has two Python files.

    - [src/net_spider.py] crawls a phpBB forum. [get_soup] fetches a
      URL with [requests.get], raises on an error status, and parses the
      body with BeautifulSoup. [parse_subforum_page] and [parse_topic]
      extract the records of one page (topic title and URL pairs, or
      post author/date/content dicts) and the URL of the next page.
      [scrape_subforum] and [scrape_topic] are two copies of one
      pagination loop: it follows the next links until there is no next
      link or [max_pages] pages have been scraped, sleeping [delay]
      seconds after every page. [main] scrapes the subforum, then every
      topic, and appends one JSON document per topic, each followed by
      [",\n"], to [collected_forum_data/all_posts.json]. It appends a
      closing ["]"] at the end. Every request carries the [HEADERS]
      dict with the crawler's User-Agent.
    - [src/data_parser.py] ([remove_repetitions]) loads that file as
      JSON. It keeps the first document of every title, tracking the
      titles already seen in a set, and writes the result back. Run as
      a script, it opens an absolute path in the author's checkout.

    ** Files, in dependency order

    - [Prelude] (this file) holds:
      - the notation scope [crawl_scope], the hint database [crawl] and
        the rewrite database [crawl_rw];
      - the tactics [crawl_simpl], [guard_cases] and [zdiv_lia] ([lia]
        after the Euclidean equations of [/] and [mod]);
      - [Py], the string built-ins the code calls ([str.isspace] and
        [str.strip]) and the truthiness of an optional string;
      - the list and fuel lemmas the components share.
    - [Dom] is the parsed document as BeautifulSoup hands it to the code:
      - element trees with attributes and text;
      - the CSS selectors the code uses, i.e. compound selectors joined
        by the descendant combinator;
      - [select] and [select_one] in document order;
      - [.text], [get_text(strip=True)] and [Tag.get], with the
        multi-valued [class] attribute.
    - [Web] holds the effects. A [world] contains:
      - the remote site, a function from a URL to a network failure or
        to a response with a status and a parsed body;
      - the log of requests, each with the headers it carries, and of
        sleeps;
      - the working directory, the existing directories and the files,
        keyed by absolute path: [open] resolves a relative path
        against the working directory ([abspath]).
      The [IO] monad threads the world and Python exceptions (as values)
      through the code. Its notations are [x <- m ;; k] and [let*]. It
      models [requests.get], [raise_for_status], [get_soup] and
      [time.sleep]. It also models [open] in append, write and read
      mode, which raises [FileNotFoundError] when the directory is
      missing. It defines [io_step] and [io_append], and [footprint],
      a predicate on computations (the events they log and the one
      file they may change) with a lemma per combinator and the hint
      database [footprint].
    - [PyStr] holds Python's string operations on lists of 8-bit
      characters: [find], [rfind], [split] with and without a count,
      [join], [partition] and the ASCII classes.
    - [IpAddress] translates what [ipaddress.ip_address] does with a
      string: [IPv4Address] and [IPv6Address] (scope id, IPv4 suffix,
      the [::] layout, octets and hextets).
    - [UrlParse] translates CPython 3.12's [urllib.parse.urljoin] and
      what it calls: [urlsplit] (strip, scheme, netloc and its checks:
      unmatched bracket, [_check_bracketed_netloc] and
      [_check_bracketed_host] with [ipaddress], and the NFKC check
      [_checknetloc]; fragment, query), [urlparse] with [_splitparams],
      [urlunsplit], [urlunparse] and the removal of dot segments.
    - [Extract] holds [parse_subforum_page] and [parse_topic] as
      instances of the class [PageExtractor], over the class [UrlJoin]
      that stands for [urljoin] on two strings; [py_urljoin] is the one
      of [UrlParse]. An extraction is an outcome: [urljoin] can raise.
    - [Fixtures] holds phpBB pages and sites for the scenarios and
      witnesses, which resolve hrefs with [py_urljoin].
    - [Paginate] models the pagination loop that [scrape_subforum] and
      [scrape_topic] both copy:
      - [scrape_loop] carries the loop's variables [all_records],
        [page_url] and [pages_scraped];
      - [page_chain] is a pure reference semantics of the chain of
        pages;
      - [lstep] is the loop as a state machine.
    - [Json] holds the values [json.load] returns and the Python
      operations the deduplicator applies to them (iteration,
      subscripting, hashing). It also holds [json.dumps(indent=4)] and
      the class [JsonLoad] that stands for [json.load].
    - [Scanner] is CPython's C scanner of the [json] module, the
      [JsonLoad] instance [py_json_load]. It covers:
      - [scan_string] ([scanstring], strict mode, with [\u] escapes and
        surrogate pairs);
      - [scan_number] ([_match_number]);
      - the literals;
      - the array and object loops, whose dicts are built with
        [PyDict_SetItem] (last value wins, first position kept);
      - the extra-data check of [JSONDecoder.decode] ([loads]).
      A result records whether the model holds the exact Python value.
    - [Roundtrip] proves that [loads] reads back what [dumps] writes.
    - [Dedup] holds [remove_repetitions] from [src/data_parser.py],
      its entry point [data_parser_script] and [firsts], its reference
      semantics.
    - [Crawl] holds [main] from [src/net_spider.py] and its entry point
      [net_spider_script]: the subforum, then each topic, with one
      document appended per topic.
    - [Pipeline] runs the two programs one after the other on the same
      world. No code of the repository does this, so the compositions
      are written from the spec: [crawl_then_dedup] (the Deduplicator
      as post-process step), [dedup_twice], and [run_scripts] (the two
      scripts from one working directory).

    ** Theorems

    - Pagination ([Paginate]):
      - the loop refines the page chain ([scrape_refines_chain]);
      - it makes at most [max_pages] requests;
      - it sleeps after each page;
      - a cap of zero or less makes no request;
      - every reachable state of the machine keeps the invariant on
        pages and log ([lreach_invariant], by rule induction);
      - each run is a path of the machine;
      - from every state the machine reaches a stop in finitely many
        steps ([loop_reaches_end], by well-founded induction on the
        pages left);
      - an error status raises out of the loop, shown on a concrete
        scenario.
    - Deduplication ([Dedup]):
      - [dedup_loop] refines [firsts];
      - titles in the output are distinct, every title is kept, and the
        first occurrence is the one kept;
      - [True] and [1] are the same title;
      - a post without a title raises [KeyError];
      - [remove_repetitions] reads, filters and rewrites the file.
    - JSON decoding ([Scanner], [Roundtrip]):
      - [loads] never runs out of fuel;
      - malformed texts raise [JSONDecodeError];
      - [loads (dumps v) = Ok v] for every [v] whose dicts have
        distinct keys ([loads_dumps], by a nested induction on [json]);
      - every value [loads] returns has such dicts and is stable under
        [dumps] then [loads];
      - a dumped value followed by extra data (a comma, a bracket, a
        second document) is refused ([loads_rejects_extra_data]).
    - Output ([Crawl]):
      - the text [main] appends when nothing fails;
      - a failing topic aborts [main] and leaves the earlier topics'
        documents in the file;
      - a missing output directory raises [FileNotFoundError] only after
        the subforum and the first topic have been scraped;
      - in every world, whatever it raises, [main] logs only requests
        carrying [HEADERS] and sleeps of 0.1 s, and changes no file but
        its output file ([main_footprint], from the [footprint] lemmas
        by induction on the loop's fuel and the topic list).
    - Composition ([Pipeline]):
      - after an error-free run of [main], [crawl_then_dedup] raises
        [JSONDecodeError] on the file [main] wrote;
      - [remove_repetitions] is idempotent: [dedup_twice] equals one
        run, in every world;
      - run as scripts anywhere but in the author's checkout, the
        deduplicator raises [FileNotFoundError] and never reads the
        crawl's output ([scripts_miss_crawl_output]).
    - URLs ([UrlParse]):
      - [urljoin] is idempotent for a base that [urlunparse] gives
        back, such as [BASE_URL] ([urljoin_idempotent]);
      - [urlparse] reads back the [urlunparse] of what it returned for
        a URL with a scheme and a netloc;
      - an href whose host has an unmatched bracket raises
        [ValueError], and on a listing page this aborts [main]
        ([Crawl.main_bad_href]);
      - the hrefs of phpBB pages and bracketed hosts resolve as Python
        resolves them;
      - [urljoin] raises nothing but [ValueError]
        ([urljoin_raises_value_error]), nothing at all on texts without
        brackets, and the extractors raise only through [urljoin]
        ([Extract.extraction_raises_only_in_urljoin]).
    - Addresses ([IpAddress]):
      - a printed IPv4 address parses back to its value;
      - eight printed hextets parse as the IPv6 address they spell.
    - Extraction ([Extract]) and selectors ([Dom]):
      - the fallback values of a post;
      - where the date field comes from;
      - a [rel=next] anchor without [href];
      - the ancestor matcher is equivalent to its relational
        specification.

    ** Fuel

    [scrape_pages] runs [scrape_loop] with fuel [S (Z.to_nat
    max_pages)]. The guard [pages_scraped < max_pages] stops the loop
    after [Z.to_nat max_pages] iterations at most, so the fuel never
    runs out before the guard ([scrape_loop_fuel_enough]). Because of
    the extra unit, a loop that ignores its guard is seen running past
    the cap rather than hidden by the fuel.

    [loads] runs the scanner with fuel [2n+1] on a text of [n]
    characters. Each unit of fuel is spent on a value, or on an item of
    an array or object loop on top of its value, and each of these
    steps consumes at least one character. So on a text [s] a fuel [n]
    with [2 |s| < n] is never exhausted ([scan_fuel_enough], by
    induction on the fuel), and [loads_fuel_enough] applies it.
    Every other function is structural. [hex_string] and [dec_string]
    print at most four and three digits: the code applies them to
    values masked to 16 and 8 bits.

    ** Not modelled

    - HTML parsing ([html.parser]): the site returns the parsed tree.
    - In [json.load]:
      - floats: a number with a fraction or an exponent, and [NaN] or
        [Infinity], make [loads] raise [OutsideModel] instead of
        returning a value the model has no type for;
      - characters above U+00FF, which a [\u] escape can produce: same;
      - the decoding of the file as UTF-8;
      - Python's recursion limit on deeply nested texts.
      Texts are strings of 8-bit characters.
    - In [urllib.parse] and [ipaddress]: nothing of what [urljoin]
      reaches on 8-bit strings is left out. NFKC is given by a table of
      the compatibility decompositions of U+00A0..U+00FF; a wider
      string is out of the model's string type.
    - How the server answers the headers: the site is a function of
      the URL only, and the headers are observed in the log.
    - Path normalization by the kernel ([.], [..], doubled slashes):
      the paths of the code have none.
    - [print], and the wall-clock length of a sleep (a sleep is an
      event of the log whose duration is a primitive float).

    ** Plan

    - Model a second run of [main] on the file an earlier run left. *)

From stdpp Require Export base list strings gmap.
From Stdlib Require Export ZArith Lia Ascii.
From Stdlib Require Import String.

Declare Scope crawl_scope.
Delimit Scope crawl_scope with crawl.

Create HintDb crawl discriminated.
Create Rewrite HintDb crawl_rw.

(** ** Python string built-ins on ASCII strings *)
Module Py.

(** [str.isspace] on one ASCII character: the C0 whitespace
    characters 9 to 13, the separators 28 to 31, and the space. *)
Definition isspace (c : ascii) : bool :=
  let n := Ascii.nat_of_ascii c in
  ((9 <=? n) && (n <=? 13)) || ((28 <=? n) && (n <=? 32)).

Fixpoint lstrip_list (l : list ascii) : list ascii :=
  match l with
  | [] => []
  | c :: l' => if isspace c then lstrip_list l' else l
  end.

(** [str.strip()] with no argument. *)
Definition strip (s : string) : string :=
  String.string_of_list_ascii
    (rev (lstrip_list (rev (lstrip_list (String.list_ascii_of_string s))))).

(** Truthiness of [Optional[str]]: [None] and [""] are false. *)
Definition truthy_str (o : option string) : bool :=
  match o with
  | Some s => negb (String.eqb s ""%string)
  | None => false
  end.

End Py.

(** ** Shared lemmas *)

Lemma lstrip_list_idem l : Py.lstrip_list (Py.lstrip_list l) = Py.lstrip_list l.
Proof. induction l as [|c l IH]; simpl; [done|]. destruct (Py.isspace c) eqn:E; simpl; rewrite ?E; done. Qed.

Lemma lstrip_list_head l c l' :
  Py.lstrip_list l = c :: l' -> Py.isspace c = false.
Proof.
  induction l as [|d l IH]; simpl; [done|].
  destruct (Py.isspace d) eqn:E; [exact IH|]. by intros [= <- _].
Qed.

Lemma str_app_assoc (s1 s2 s3 : string) :
  (s1 ++ (s2 ++ s3) = (s1 ++ s2) ++ s3)%string.
Proof.
  induction s1 as [|c s1 IH]; [done|].
  change (String c (s1 ++ s2 ++ s3) = String c ((s1 ++ s2) ++ s3))%string. by rewrite IH.
Qed.

Lemma str_app_nil_r (s : string) : (s ++ "")%string = s.
Proof.
  induction s as [|c s IH]; [done|]. change (String c (s ++ "") = String c s)%string. by rewrite IH.
Qed.

(** The fuel of a loop [while k < m: ...; k += 1] is [Z.to_nat (m - k)]. *)
Lemma fuel_step (k m : Z) :
  (k < m)%Z -> Z.to_nat (m - k) = S (Z.to_nat (m - (k + 1))).
Proof. lia. Qed.

Lemma fuel_zero (k m : Z) : (m <= k)%Z -> Z.to_nat (m - k) = 0%nat.
Proof. lia. Qed.

Lemma truthy_str_Some (o : option string) :
  Py.truthy_str o = true -> exists s, o = Some s /\ s <> "".
Proof.
  destruct o as [s|]; simpl; [|done]. intros H. exists s. split; [done|].
  intros ->. done.
Qed.

Lemma sublist_map {A B} (f : A -> B) (l1 l2 : list A) :
  l1 `sublist_of` l2 -> map f l1 `sublist_of` map f l2.
Proof. induction 1; simpl; by constructor. Qed.

Lemma Forall_sublist_inv {A} (P : A -> Prop) (l1 l2 : list A) :
  l1 `sublist_of` l2 -> Forall P l2 -> Forall P l1.
Proof. induction 1; intros HF; [done | | ]; apply Forall_cons in HF as [? ?]; auto. Qed.

#[export] Hint Resolve lstrip_list_idem truthy_str_Some sublist_map Forall_sublist_inv : crawl.
(** The characters of a concatenation. *)
Lemma las_app (s1 s2 : string) :
  String.list_ascii_of_string (s1 ++ s2) = String.list_ascii_of_string s1 ++ String.list_ascii_of_string s2.
Proof. induction s1 as [|c s1 IH]; simpl; [done|]. by rewrite IH. Qed.

(** Filtering with a test no element passes gives nothing. *)
Lemma filter_all_false {A} (f : A -> bool) l : (forall x, In x l -> f x = false) -> List.filter f l = [].
Proof. induction l as [|x l IH]; intros H; [done|]. simpl. rewrite H by (left; done). apply IH. intros y Hy. apply H. by right. Qed.

(** The last element of a list whose elements all satisfy [P]. *)
Lemma Forall_last {A} (P : A -> Prop) l d : Forall P l -> l <> [] -> P (List.last l d).
Proof.
  induction 1 as [|x l Hx Hl IH]; [done|]. intros _.
  destruct l as [|y l]; [done|]. apply IH. done.
Qed.

(** [lia] on goals with [/] and [mod] by constants: the Euclidean
    equations of each division first. *)
Ltac zdiv_lia := Z.to_euclidean_division_equations; lia.

(** Two strings with a common suffix are equal when the suffixed ones
    are. *)
Lemma str_app_inv_r (s1 s2 t : string) : (s1 ++ t)%string = (s2 ++ t)%string -> s1 = s2.
Proof.
  intros H%(f_equal String.list_ascii_of_string). rewrite !las_app in H.
  apply app_inv_tail in H.
  by rewrite <- (String.string_of_list_ascii_of_string s1), H, String.string_of_list_ascii_of_string.
Qed.

#[export] Hint Rewrite str_app_nil_r app_nil_r las_app : crawl_rw.

(** [crawl_simpl] normalises strings, lists and, once [Web] has added
    its equations to [crawl_rw], the worlds and logs of a run. *)
Ltac crawl_simpl := autorewrite with crawl_rw; simpl.

(** [guard_cases E] splits on a Boolean comparison [E] of [Z] and turns
    each branch's hypothesis into the arithmetic fact. *)
Ltac guard_cases E :=
  let H := fresh "Hg" in
  destruct E eqn:H; [apply Z.ltb_lt in H | apply Z.ltb_ge in H].
