(* ===== verification/Dom.v ===== *)
(** * The parsed document ([bs4.BeautifulSoup]) as the crawler reads it

    A page is a list of nodes: the children of BeautifulSoup's
    [[document]] tag. A node is a text string or an element with its tag
    name, its attributes as the parser recorded them, and its children.
    The crawler's selectors are compound selectors (tag, classes,
    attribute equalities) joined by the descendant combinator.
    [select] returns the matching elements in document order, as
    soupsieve does. [select_one] returns the first of them. Text
    extraction gives [Tag.text] and [Tag.get_text(strip=True)]. *)

From S2P Require Import Prelude.

Local Set Warnings "-register-all".

Module Dom.

Inductive node :=
| Text (s : string)
| Elem (tag : string) (attrs : list (string * string)) (kids : list node).

(** The children of the [[document]] tag. *)
Definition soup := list node.

(** ** Attributes *)

Fixpoint assoc (k : string) (l : list (string * string)) : option string :=
  match l with
  | [] => None
  | (k', v) :: l' => if String.eqb k k' then Some v else assoc k l'
  end.

(** [Tag.get(key)]: the attribute's value, [None] when it is absent. *)
Definition get (n : node) (key : string) : option string :=
  match n with
  | Elem _ attrs _ => assoc key attrs
  | Text _ => None
  end.

(** Splitting on whitespace ([re.findall(r"\S+", s)]), as soupsieve
    does for a [class] attribute and BeautifulSoup for the other
    multi-valued attributes. *)
Fixpoint words_aux (cur : list ascii) (l : list ascii) : list string :=
  match l with
  | [] => if cur is [] then [] else [String.string_of_list_ascii (rev cur)]
  | c :: l' =>
      if Py.isspace c then
        (if cur is [] then [] else [String.string_of_list_ascii (rev cur)])
          ++ words_aux [] l'
      else words_aux (c :: cur) l'
  end.

Definition words (s : string) : list string :=
  words_aux [] (String.list_ascii_of_string s).

(** BeautifulSoup's table of multi-valued attributes of the HTML
    tree builder. *)
Definition multi_valued (tag key : string) : bool :=
  bool_decide (key ∈ ["class"; "accesskey"; "dropzone"]) ||
  match tag with
  | "a" | "link" => bool_decide (key ∈ ["rel"; "rev"])
  | "td" | "th" => String.eqb key "headers"
  | "form" => String.eqb key "accept-charset"
  | "object" => String.eqb key "archive"
  | "area" => String.eqb key "rel"
  | "icon" => String.eqb key "sizes"
  | "iframe" => String.eqb key "sandbox"
  | "output" => String.eqb key "for"
  | _ => false
  end%string.

(** The value an attribute selector compares: a multi-valued
    attribute is its list of words joined by one space. *)
Definition attr_text (tag key raw : string) : string :=
  if multi_valued tag key then String.concat " " (words raw) else raw.

(** ** Selectors *)

Record compound := Compound {
  c_tag : option string;
  c_classes : list string;
  c_attrs : list (string * string)
}.

(** A selector [A B C]: compounds joined by the descendant combinator,
    leftmost first. *)
Definition selector := list compound.

Definition matches (c : compound) (n : node) : bool :=
  match n with
  | Text _ => false
  | Elem t attrs _ =>
      match c_tag c with Some t' => String.eqb t t' | None => true end &&
      forallb (fun k => bool_decide (k ∈ words (default "" (assoc "class" attrs))))
        (c_classes c) &&
      forallb (fun '(k, v) =>
                 match assoc k attrs with
                 | Some raw => String.eqb (attr_text t k raw) v
                 | None => false
                 end) (c_attrs c)
  end.

(** [anc_match rcs ancs]: the compounds [rcs] (innermost first) match
    ancestors in [ancs] (nearest first), each compound an ancestor
    strictly above the previous one. Taking the nearest matching
    ancestor is enough for the descendant combinator. *)
Fixpoint anc_match (rcs : list compound) (ancs : list node) : bool :=
  match rcs with
  | [] => true
  | c :: rcs' =>
      match ancs with
      | [] => false
      | a :: ancs' => if matches c a then anc_match rcs' ancs' else anc_match rcs ancs'
      end
  end.

Definition match_at (sel : selector) (n : node) (ancs : list node) : bool :=
  match rev sel with
  | [] => false
  | c :: rcs => matches c n && anc_match rcs ancs
  end.

(** The elements of the subtree [n] (with ancestors [ancs]) matching
    [sel], in document order. *)
Fixpoint sel_nodes (sel : selector) (ancs : list node) (n : node) : list node :=
  match n with
  | Text _ => []
  | Elem _ _ kids =>
      (if match_at sel n ancs then [n] else []) ++
      flat_map (sel_nodes sel (n :: ancs)) kids
  end.

(** [soup.select(sel)]. *)
Definition select (sel : selector) (s : soup) : list node :=
  flat_map (sel_nodes sel []) s.

(** [soup.select_one(sel)]. *)
Definition select_one (sel : selector) (s : soup) : option node :=
  head (select sel s).

(** [tag.select_one(sel)]: the descendants of [n], not [n] itself. *)
Definition select_one_in (sel : selector) (n : node) : option node :=
  match n with
  | Text _ => None
  | Elem _ _ kids => head (flat_map (sel_nodes sel [n]) kids)
  end.

(** ** Text *)

(** The strings of a subtree in document order ([_all_strings]). *)
Fixpoint all_strings (n : node) : list string :=
  match n with
  | Text s => [s]
  | Elem _ _ kids => flat_map all_strings kids
  end.

(** [tag.text]. *)
Definition text (n : node) : string := String.concat "" (all_strings n).

(** [tag.get_text(strip=True)]: every string stripped, the empty ones
    dropped, the rest joined with no separator. *)
Definition get_text_strip (n : node) : string :=
  String.concat "" (List.filter (fun s => negb (String.eqb s "")) (map Py.strip (all_strings n))).

(** ** Properties *)


(** Induction on nodes, with the hypothesis on every child. *)
Definition node_ind' (P : node -> Prop) (HT : forall s, P (Text s))
    (HE : forall t attrs kids, Forall P kids -> P (Elem t attrs kids)) : forall n, P n :=
  fix IH n :=
    match n with
    | Text s => HT s
    | Elem t attrs kids =>
        HE t attrs kids
          ((fix go (l : list node) : Forall P l :=
              match l with
              | [] => List.Forall_nil P
              | k :: l' => @List.Forall_cons _ P k l' (IH k) (go l')
              end) kids)
    end.

Lemma sel_nodes_sound (sel : selector) (n : node) (ancs : list node) (x : node) :
  x ∈ sel_nodes sel ancs n -> exists ancs', match_at sel x ancs' = true.
Proof.
  revert ancs. induction n as [s|t attrs kids IH] using node_ind'; intros ancs; simpl.
  - by intros ?%elem_of_nil.
  - rewrite elem_of_app. intros [Hx | Hx].
    + destruct (match_at sel _ ancs) eqn:E; [|by apply elem_of_nil in Hx].
      apply list_elem_of_singleton in Hx; subst. eauto.
    + apply list_elem_of_In, in_flat_map in Hx as (k & Hk & Hx).
      rewrite Forall_forall in IH. eapply IH; apply list_elem_of_In; eassumption.
Qed.

(** A subtree none of whose elements has a [class] attribute. *)
Fixpoint classless (n : node) : bool :=
  match n with
  | Text _ => true
  | Elem _ attrs kids => bool_decide (assoc "class" attrs = None) && forallb classless kids
  end.

Lemma matches_classless (c : compound) (cls t : string) attrs kids :
  cls ∈ c_classes c -> assoc "class" attrs = None -> matches c (Elem t attrs kids) = false.
Proof.
  intros Hc Hn. unfold matches. rewrite Hn. simpl.
  replace (forallb _ (c_classes c)) with false; [by rewrite andb_false_r|].
  symmetry. apply not_true_iff_false. intros Hf. rewrite forallb_forall in Hf.
  apply list_elem_of_In, Hf in Hc. discriminate Hc.
Qed.

(** A one-compound selector that asks for a class selects nothing in a
    classless subtree. *)
Lemma sel_nodes_classless (c : compound) (cls : string) (ancs : list node) (n : node) :
  cls ∈ c_classes c -> classless n = true -> sel_nodes [c] ancs n = [].
Proof.
  intros Hc. revert ancs. induction n as [s|t attrs kids IH] using node_ind'; intros ancs; [done|].
  simpl. intros [Hnone%bool_decide_eq_true Hkids]%andb_prop.
  assert (Hm : match_at [c] (Elem t attrs kids) ancs = false).
  { unfold match_at. change (rev [c]) with [c]. cbv beta iota.
    by rewrite (matches_classless c cls t attrs kids Hc Hnone). }
  cbn [sel_nodes]. rewrite Hm. cbn [app].
  generalize (Elem t attrs kids :: ancs) as a. clear Hm. intros a.
  induction kids as [|k kids IHk]; [done|]. simpl in Hkids |- *.
  apply andb_prop in Hkids as [Hk Hkids]. apply Forall_cons in IH as [IH1 IH2].
  rewrite IH1 by done. by apply IHk.
Qed.

(** Every element [select] returns matches the selector: its last
    compound matches it, and the others match a chain of its
    ancestors. *)
Theorem select_sound (sel : selector) (s : soup) (x : node) :
  x ∈ select sel s -> exists ancs', match_at sel x ancs' = true.
Proof.
  unfold select. intros Hx. apply list_elem_of_In, in_flat_map in Hx as (n & _ & Hx).
  eapply sel_nodes_sound, list_elem_of_In, Hx.
Qed.

End Dom.
