(* ===== verification/Web.v ===== *)
(** * Effects of the crawler: the remote site, sleeps, files, exceptions

    A [world] holds the remote site, the log of requests and sleeps, the
    working directory of the process and the file system. The site maps
    a URL to a network failure or to a response with its status and
    parsed body. A request is logged with the headers it carries. The
    file system is a map from absolute path to contents, plus the set of
    existing directories; [open] resolves a relative path against the
    working directory ([abspath]). [IO] is
    a state and exception monad over the world: a raised Python
    exception is a value [Raise e], and the world keeps the effects
    performed before it. This file models [requests.get],
    [raise_for_status] and [get_soup] ([src/net_spider.py]), and
    [time.sleep] and [open]/[write] in append, write and read mode. *)

From S2P Require Import Prelude Dom.
From Stdlib Require Export Floats.

Module Web.

(** The Python exceptions the code can raise. *)
Inductive exn :=
| ConnectionError (url : string)
| HTTPError (status : Z) (url : string)
| FileNotFoundError (path : string)
| TypeError
| KeyError (key : string)
| JSONDecodeError
| ValueError
(** Not a Python exception: the model stops where Python goes on with a
    value the model does not hold (a float, or a character above U+00FF
    in [json.load]). *)
| OutsideModel.

Inductive fetch_result :=
| NetworkFailure
| Response (status : Z) (body : Dom.soup).

(** The headers of a request, in the order of the dict literal. *)
Definition headers := list (string * string).

Inductive event :=
| EvRequest (url : string) (hdrs : headers)
| EvSleep (secs : float).

(** [HEADERS] ([src/net_spider.py]): the identity the crawler sends. *)
Definition HEADERS : headers :=
  [("User-Agent", "Mozilla/5.0 (X11; Linux x86_64) MyScraper/1.0")].

(** A request of the crawler: every request it makes carries [HEADERS]. *)
Abbreviation EvGet u := (EvRequest u HEADERS).

Record world := World {
  w_site : string -> fetch_result;
  w_log : list event;
  w_cwd : string;
  w_dirs : gset string;
  w_files : gmap string string
}.

Inductive outcome (A : Type) :=
| Ok (a : A)
| Raise (e : exn).
Arguments Ok {A} a.
Arguments Raise {A} e.

Definition IO (A : Type) : Type := world -> outcome A * world.

Definition ret {A} (a : A) : IO A := fun w => (Ok a, w).

Definition bind {A B} (m : IO A) (k : A -> IO B) : IO B :=
  fun w => match m w with
           | (Ok a, w') => k a w'
           | (Raise e, w') => (Raise e, w')
           end.

Definition raise {A} (e : exn) : IO A := fun w => (Raise e, w).

(** A pure computation that may raise, run in [IO]. *)
Definition lift {A} (o : outcome A) : IO A := fun w => (o, w).

Definition log (ev : event) : IO unit :=
  fun w => (Ok tt, World (w_site w) (w_log w ++ [ev]) (w_cwd w) (w_dirs w) (w_files w)).

Module Notations.
Notation "x <- m ;; k" := (bind m (fun x => k))
  (at level 100, m at next level, right associativity) : crawl_scope.
Notation "'let*' p ':=' m 'in' k" := (bind m (fun x => match x with p => k end))
  (at level 100, p pattern, m at next level, right associativity) : crawl_scope.
Notation "m ;; k" := (bind m (fun _ => k))
  (at level 100, right associativity) : crawl_scope.
End Notations.
Import Notations.
Local Open Scope crawl_scope.

(** ** HTTP *)

(** [requests.get(url, headers=hdrs)]: one request; a network failure
    raises. *)
Definition requests_get (url : string) (hdrs : headers) : IO (Z * Dom.soup) :=
  log (EvRequest url hdrs) ;;
  fun w => match w_site w url with
           | NetworkFailure => (Raise (ConnectionError url), w)
           | Response st body => (Ok (st, body), w)
           end.

(** [response.raise_for_status()]: a client error (4xx) or a server
    error (5xx) raises [HTTPError]; any other status passes. *)
Definition raise_for_status (status : Z) (url : string) : IO unit :=
  if (400 <=? status)%Z && (status <? 500)%Z then raise (HTTPError status url)
  else if (500 <=? status)%Z && (status <? 600)%Z then raise (HTTPError status url)
  else ret tt.

(** [get_soup(url)]. *)
Definition get_soup (url : string) : IO Dom.soup :=
  let* (status, body) := requests_get url HEADERS in
  raise_for_status status url ;;
  ret body.

(** [time.sleep(secs)]. *)
Definition sleep (secs : float) : IO unit := log (EvSleep secs).

(** ** Files *)

(** The directory part of a path ([os.path.dirname]). *)
Definition dirname (path : string) : string :=
  let l := rev (String.list_ascii_of_string path) in
  match list_find (fun c => c = "/"%char) l with
  | Some (i, _) => String.string_of_list_ascii (rev (drop (S i) l))
  | None => ""
  end.

(** The path the kernel opens for [open(path)]: an absolute path as it
    is, a relative one under the working directory. *)
Definition abspath (w : world) (path : string) : string :=
  if String.prefix "/" path then path else (w_cwd w ++ "/" ++ path)%string.

(** The contents of the file [open(path)] reads. *)
Definition file_at (w : world) (path : string) : option string :=
  w_files w !! abspath w path.

(** Whether the directory [open(path)] creates a file in exists. The
    root ([dirname] empty) always does. *)
Definition dir_exists (w : world) (path : string) : bool :=
  let d := dirname (abspath w path) in String.eqb d "" || bool_decide (d ∈ w_dirs w).

Definition set_file (path s : string) : IO unit :=
  fun w => (Ok tt, World (w_site w) (w_log w) (w_cwd w) (w_dirs w) (<[abspath w path := s]> (w_files w))).

(** [with open(path, "a") as f: f.write(s)]: creates the file if it
    is missing, raises when its directory does not exist. *)
Definition append_file (path s : string) : IO unit :=
  fun w => if dir_exists w path
           then set_file path (default "" (file_at w path) ++ s) w
           else (Raise (FileNotFoundError path), w).

(** [with open(path, "w") as f: f.write(s)]. *)
Definition write_file (path s : string) : IO unit :=
  fun w => if dir_exists w path then set_file path s w
           else (Raise (FileNotFoundError path), w).

(** [with open(path, "r") as f: f.read()]. *)
Definition read_file (path : string) : IO string :=
  fun w => match file_at w path with
           | Some s => (Ok s, w)
           | None => (Raise (FileNotFoundError path), w)
           end.

(** The number of requests in a log. *)
Definition requests (evs : list event) : nat :=
  length (List.filter (fun ev => if ev is EvRequest _ _ then true else false) evs).

Lemma requests_app evs evs' : requests (evs ++ evs') = requests evs + requests evs'.
Proof. unfold requests. by rewrite List.filter_app, length_app. Qed.

(** ** Reasoning about [get_soup] *)

(** The statuses [raise_for_status] rejects. *)
Definition http_error (status : Z) : bool := (400 <=? status)%Z && (status <? 600)%Z.

(** What one call of [get_soup] returns, as a pure function of the
    site. *)
Definition fetch_page (site : string -> fetch_result) (url : string) : outcome Dom.soup :=
  match site url with
  | NetworkFailure => Raise (ConnectionError url)
  | Response st body => if http_error st then Raise (HTTPError st url) else Ok body
  end.

Definition with_log (w : world) (evs : list event) : world :=
  World (w_site w) (w_log w ++ evs) (w_cwd w) (w_dirs w) (w_files w).

Lemma with_log_app w evs evs' : with_log (with_log w evs) evs' = with_log w (evs ++ evs').
Proof. unfold with_log. simpl. by rewrite app_assoc. Qed.

Lemma with_log_nil w : with_log w [] = w.
Proof. destruct w. unfold with_log. simpl. by rewrite app_nil_r. Qed.

Lemma with_log_site w evs : w_site (with_log w evs) = w_site w.
Proof. done. Qed.

Lemma raise_for_status_spec status url w :
  raise_for_status status url w =
  (if http_error status then Raise (HTTPError status url) else Ok tt, w).
Proof.
  unfold raise_for_status, http_error.
  destruct (400 <=? status)%Z eqn:E1, (status <? 500)%Z eqn:E2,
    (500 <=? status)%Z eqn:E3, (status <? 600)%Z eqn:E4; simpl; try done; lia.
Qed.

(** [get_soup url] makes exactly one request and returns what the site
    serves, raising [ConnectionError] on a network failure and
    [HTTPError] on a 4xx or 5xx status. *)
Lemma get_soup_spec url w :
  get_soup url w = (fetch_page (w_site w) url, with_log w [EvGet url]).
Proof.
  unfold get_soup, requests_get, bind, log, fetch_page, with_log. simpl.
  destruct (w_site w url) as [|st body]; [done|].
  rewrite raise_for_status_spec. by destruct (http_error st).
Qed.

Lemma bind_ret_l {A B} (a : A) (k : A -> IO B) w : bind (ret a) k w = k a w.
Proof. done. Qed.

Lemma bind_assoc {A B C} (m : IO A) (f : A -> IO B) (g : B -> IO C) w :
  bind (bind m f) g w = bind m (fun a => bind (f a) g) w.
Proof. unfold bind. by destruct (m w) as [[a|e] w']. Qed.

Lemma bind_get_soup {B} url (k : Dom.soup -> IO B) w :
  bind (get_soup url) k w =
  match fetch_page (w_site w) url with
  | Ok soup => k soup (with_log w [EvGet url])
  | Raise e => (Raise e, with_log w [EvGet url])
  end.
Proof. unfold bind at 1. rewrite get_soup_spec. by destruct (fetch_page _ _). Qed.

Lemma bind_sleep {B} secs (k : unit -> IO B) w :
  bind (sleep secs) k w = k tt (with_log w [EvSleep secs]).
Proof. done. Qed.

Lemma bind_ok {A B} (m : IO A) (k : A -> IO B) w a w' :
  m w = (Ok a, w') -> bind m k w = k a w'.
Proof. unfold bind. by intros ->. Qed.

Lemma bind_raise {A B} (m : IO A) (k : A -> IO B) w e w' :
  m w = (Raise e, w') -> bind m k w = (Raise e, w').
Proof. unfold bind. by intros ->. Qed.

Lemma dir_exists_with_log w evs path : dir_exists (with_log w evs) path = dir_exists w path.
Proof. done. Qed.

(** Paths resolve alike in two worlds with one working directory. *)
Lemma abspath_same w1 w2 path : w_cwd w1 = w_cwd w2 -> abspath w1 path = abspath w2 path.
Proof. unfold abspath. by intros ->. Qed.

(** The file [open(path)] reads after a write to [path]. *)
Lemma file_at_insert w w' path s :
  w_cwd w' = w_cwd w -> w_files w' = <[abspath w path := s]> (w_files w) -> file_at w' path = Some s.
Proof. intros Hc Hf. unfold file_at. by rewrite (abspath_same _ _ _ Hc), Hf, lookup_insert_eq. Qed.

Lemma dir_exists_same w1 w2 path :
  w_cwd w1 = w_cwd w2 -> w_dirs w1 = w_dirs w2 -> dir_exists w1 path = dir_exists w2 path.
Proof. intros Hc Hd. unfold dir_exists. by rewrite (abspath_same _ _ _ Hc), Hd. Qed.

(** A file opened in append mode gets [s] after its contents (or is
    created with [s]) when its directory exists. *)
Lemma append_file_ok path s w :
  dir_exists w path = true ->
  append_file path s w =
  (Ok tt, World (w_site w) (w_log w) (w_cwd w) (w_dirs w)
            (<[abspath w path := (default "" (file_at w path) ++ s)%string]> (w_files w))).
Proof. intros Hd. unfold append_file. by rewrite ?Hd. Qed.

Lemma append_file_missing_dir path s w :
  dir_exists w path = false -> append_file path s w = (Raise (FileNotFoundError path), w).
Proof. unfold append_file. by intros ->. Qed.

Lemma sleep_spec secs w : sleep secs w = (Ok tt, with_log w [EvSleep secs]).
Proof. done. Qed.

(** ** Footprint of a computation *)

Section Footprint.
Variable P : event -> Prop.
Variable path : string.

(** Whatever it returns or raises, [m] keeps the site, the working
    directory and the directories, only appends events satisfying [P]
    to the log, and changes no file but the one [open(path)] opens. *)
Definition footprint {A} (m : IO A) : Prop :=
  forall w, exists evs,
    w_site (m w).2 = w_site w /\ w_cwd (m w).2 = w_cwd w /\ w_dirs (m w).2 = w_dirs w /\
    w_log (m w).2 = w_log w ++ evs /\ Forall P evs /\
    (forall q, q <> abspath w path -> w_files (m w).2 !! q = w_files w !! q).

Lemma footprint_ret {A} (a : A) : footprint (ret a).
Proof. intros w. exists []. by rewrite app_nil_r. Qed.

Lemma footprint_lift {A} (o : outcome A) : footprint (lift o).
Proof. intros w. exists []. by rewrite app_nil_r. Qed.

Lemma footprint_log ev : P ev -> footprint (log ev).
Proof. intros Hev w. exists [ev]. repeat split; by constructor. Qed.

Lemma footprint_bind {A B} (m : IO A) (k : A -> IO B) :
  footprint m -> (forall a, footprint (k a)) -> footprint (bind m k).
Proof.
  intros Hm Hk w. unfold bind. destruct (Hm w) as (evs & Hs & Hc & Hd & Hl & HP & Hf).
  destruct (m w) as [[a|e] w1]; simpl in *; [|by exists evs].
  destruct (Hk a w1) as (evs' & Hs' & Hc' & Hd' & Hl' & HP' & Hf').
  exists (evs ++ evs'). rewrite Hs', Hc', Hd', Hl', Hl, app_assoc.
  do 4 (split; [done|]). split; [by apply Forall_app|].
  intros q Hq. rewrite Hf'; [by apply Hf|]. by rewrite (abspath_same _ w).
Qed.

Lemma footprint_get_soup url : P (EvGet url) -> footprint (get_soup url).
Proof. intros Hev w. rewrite get_soup_spec. exists [EvGet url]. repeat split; by constructor. Qed.

Lemma footprint_sleep secs : P (EvSleep secs) -> footprint (sleep secs).
Proof. apply footprint_log. Qed.

Lemma footprint_append s : footprint (append_file path s).
Proof.
  intros w. exists []. rewrite app_nil_r. unfold append_file.
  destruct (dir_exists w path); [|done]. repeat split; [by constructor|].
  intros q Hq. simpl. by rewrite lookup_insert_ne by exact (not_eq_sym Hq).
Qed.

Lemma footprint_write s : footprint (write_file path s).
Proof.
  intros w. exists []. rewrite app_nil_r. unfold write_file.
  destruct (dir_exists w path); [|done]. repeat split; [by constructor|].
  intros q Hq. simpl. by rewrite lookup_insert_ne by exact (not_eq_sym Hq).
Qed.

Lemma footprint_read p : footprint (read_file p).
Proof. intros w. exists []. rewrite app_nil_r. unfold read_file. by destruct (file_at w p). Qed.

End Footprint.


End Web.

Create HintDb footprint.
#[export] Hint Resolve Web.footprint_ret Web.footprint_lift Web.footprint_bind Web.footprint_get_soup
  Web.footprint_sleep Web.footprint_append Web.footprint_write Web.footprint_read : footprint.

#[export] Hint Rewrite Web.get_soup_spec Web.sleep_spec Web.with_log_app Web.with_log_nil
  Web.with_log_site : crawl_rw.

(** [io_step H] runs the first action of a bind whose result [H]
    states: the continuation on a returned value, the exception
    otherwise. *)
Ltac io_step H :=
  first [ rewrite (Web.bind_ok _ _ _ _ _ H) | rewrite (Web.bind_raise _ _ _ _ _ H) ].

(** [io_append] runs an append to a file whose directory exists in the
    world before the run's requests. *)
Ltac io_append :=
  rewrite (Web.bind_ok _ _ _ _ _ (Web.append_file_ok _ _ _ ltac:(by rewrite Web.dir_exists_with_log))).
