(* ===== verification/PyStr.v ===== *)
(** * Python's string operations on lists of 8-bit characters

    The [str] methods the URL parser and the address parser of the
    standard library call: [in], [find], [rfind], [split] with and
    without a count, [partition], [join], and the ASCII character
    classes. A string is a [list ascii]; a character is its 8-bit code.
    The lemmas relate the operations to concatenation. [all_chars]
    proves a fact about one character by checking all 256 of them. *)

From S2P Require Import Prelude.

Module PyStr.

Abbreviation str := (list ascii).
Abbreviation L := String.list_ascii_of_string.

(** ** Python string operations on lists of characters *)

Definition code (c : ascii) : nat := Ascii.nat_of_ascii c.
Definition is_c (n : nat) (c : ascii) : bool := code c =? n.

(** [chr(n) in s] *)
Definition has (n : nat) (s : str) : bool := existsb (is_c n) s.

Definition nonempty (s : str) : bool :=
  match s with [] => false | _ :: _ => true end.

(** [s.find(chr(n))], [None] for [-1]. *)
Fixpoint find (n : nat) (s : str) : option nat :=
  match s with
  | [] => None
  | c :: s' => if is_c n c then Some 0 else option_map S (find n s')
  end.

(** [s.rfind(chr(n))] *)
Definition rfind (n : nat) (s : str) : option nat :=
  option_map (fun i => length s - S i) (find n (rev s)).

(** [s.split(chr(n), 1)] when [chr(n) in s]. *)
Fixpoint split_once (n : nat) (s : str) : option (str * str) :=
  match s with
  | [] => None
  | c :: s' =>
      if is_c n c then Some ([], s')
      else option_map (fun '(a, b) => (c :: a, b)) (split_once n s')
  end.

(** [if chr(n) in s: s, tail = s.split(chr(n), 1)], with [tail = '']
    otherwise. *)
Definition cut (n : nat) (s : str) : str * str :=
  match split_once n s with
  | Some p => p
  | None => (s, [])
  end.

(** [s.split(chr(n))] *)
Fixpoint split_all (n : nat) (s : str) : list str :=
  match s with
  | [] => [[]]
  | c :: s' =>
      if is_c n c then [] :: split_all n s'
      else match split_all n s' with
           | [] => [[c]]
           | w :: ws => (c :: w) :: ws
           end
  end.

(** [sep.join(l)] *)
Fixpoint join (sep : ascii) (l : list str) : str :=
  match l with
  | [] => []
  | [w] => w
  | w :: ws => w ++ sep :: join sep ws
  end.

Definition is_ascii (c : ascii) : bool := code c <? 128.
Definition is_ascii_alpha (c : ascii) : bool :=
  ((65 <=? code c) && (code c <=? 90)) || ((97 <=? code c) && (code c <=? 122)).
Definition is_ascii_digit (c : ascii) : bool := (48 <=? code c) && (code c <=? 57).

(** [str.lower()] on an ASCII character. *)
Definition lower (c : ascii) : ascii :=
  if (65 <=? code c) && (code c <=? 90) then ascii_of_nat (code c + 32) else c.

(** ** The string operations *)

Lemma has_app n a b : has n (a ++ b) = has n a || has n b.
Proof. apply existsb_app. Qed.

Lemma find_none n s : has n s = false -> find n s = None.
Proof.
  induction s as [|c s IH]; simpl; [done|]. intros [Hc Hs]%orb_false_elim.
  by rewrite Hc, IH.
Qed.

Lemma find_app_r n a b : has n a = false -> find n (a ++ b) = option_map (Nat.add (length a)) (find n b).
Proof.
  induction a as [|c a IH]; simpl; [by destruct (find n b)|]. intros [Hc Ha]%orb_false_elim.
  rewrite Hc, IH by done. by destruct (find n b).
Qed.

Lemma find_hit n a c b : has n a = false -> is_c n c = true -> find n (a ++ c :: b) = Some (length a).
Proof. intros Ha Hc. rewrite find_app_r by done. simpl. rewrite Hc. simpl. f_equal. lia. Qed.

Lemma split_once_none n s : has n s = false -> split_once n s = None.
Proof.
  induction s as [|c s IH]; simpl; [done|]. intros [Hc Hs]%orb_false_elim.
  by rewrite Hc, IH.
Qed.

Lemma split_once_hit n a c b :
  has n a = false -> is_c n c = true -> split_once n (a ++ c :: b) = Some (a, b).
Proof.
  induction a as [|d a IH]; simpl; intros Ha Hc; [by rewrite Hc|].
  apply orb_false_elim in Ha as [Hd Ha]. by rewrite Hd, IH.
Qed.

Lemma cut_none n s : has n s = false -> cut n s = (s, []).
Proof. unfold cut. intros H. by rewrite split_once_none. Qed.

Lemma cut_hit n a c b : has n a = false -> is_c n c = true -> cut n (a ++ c :: b) = (a, b).
Proof. unfold cut. intros Ha Hc. by rewrite split_once_hit. Qed.

(** [split_once] cuts at the first occurrence. *)
Lemma split_once_spec n s a b :
  split_once n s = Some (a, b) -> exists c, s = a ++ c :: b /\ has n a = false /\ is_c n c = true.
Proof.
  revert a b. induction s as [|d s IH]; simpl; [done|]. intros a b.
  destruct (is_c n d) eqn:Hd.
  - intros [= <- <-]. by exists d.
  - destruct (split_once n s) as [[a' b']|] eqn:E; [|done]. simpl. intros [= <- <-].
    destruct (IH _ _ eq_refl) as (c & -> & Ha & Hc). exists c. simpl. by rewrite Hd, Ha.
Qed.

Lemma split_once_none_has n s : split_once n s = None -> has n s = false.
Proof.
  induction s as [|d s IH]; simpl; [done|].
  destruct (is_c n d); [done|]. destruct (split_once n s) as [[]|]; [done|]. simpl. auto.
Qed.

(** [cut] splits a list at its first [chr(n)], or leaves it whole. *)
Lemma cut_spec n s :
  (has n s = false /\ cut n s = (s, [])) \/
  exists a c b, s = a ++ c :: b /\ has n a = false /\ is_c n c = true /\ cut n s = (a, b).
Proof.
  unfold cut. destruct (split_once n s) as [[a b]|] eqn:E.
  - right. destruct (split_once_spec _ _ _ _ E) as (c & -> & Ha & Hc). by exists a, c, b.
  - left. split; [exact (split_once_none_has _ _ E) | done].
Qed.

Lemma forallb_app_iff {A} (f : A -> bool) l1 l2 :
  forallb f (l1 ++ l2) = forallb f l1 && forallb f l2.
Proof. apply forallb_app. Qed.

(** [s.split('/')] and ['/'.join(...)] are inverse on segments without
    a slash. *)
Lemma split_all_app_hit n a c b :
  has n a = false -> is_c n c = true -> split_all n (a ++ c :: b) = a :: split_all n b.
Proof.
  induction a as [|d a IH]; simpl; intros Ha Hc; [by rewrite Hc|].
  apply orb_false_elim in Ha as [Hd Ha]. rewrite Hd, IH by done. done.
Qed.

Lemma split_all_none n a : has n a = false -> split_all n a = [a].
Proof.
  induction a as [|d a IH]; simpl; [done|]. intros [Hd Ha]%orb_false_elim. by rewrite Hd, IH.
Qed.

Lemma split_all_join n sep ws :
  is_c n sep = true -> Forall (fun w => has n w = false) ws -> ws <> [] ->
  split_all n (join sep ws) = ws.
Proof.
  intros Hsep. induction ws as [|w ws IH]; [done|]. intros Hws _.
  apply Forall_cons in Hws as [Hw Hws]. destruct ws as [|w' ws].
  - by apply split_all_none.
  - change (join sep (w :: w' :: ws)) with (w ++ sep :: join sep (w' :: ws)).
    rewrite split_all_app_hit by done. by rewrite IH.
Qed.

Lemma split_all_nonnil n s : split_all n s <> [].
Proof. destruct s as [|c s]; simpl; [done|]. destruct (is_c n c); [done|]. by destruct (split_all n s). Qed.


Lemma forallb_mono {A} (f g : A -> bool) l :
  (forall x, f x = true -> g x = true) -> forallb f l = true -> forallb g l = true.
Proof.
  intros Hfg. induction l as [|x l IH]; simpl; [done|]. intros [Hx Hl]%andb_prop.
  by rewrite (Hfg _ Hx), IH.
Qed.

Lemma has_forallb n (f : ascii -> bool) s :
  (forall c, f c = true -> is_c n c = false) -> forallb f s = true -> has n s = false.
Proof.
  intros Hf. induction s as [|c s IH]; simpl; [done|]. intros [Hc Hs]%andb_prop.
  by rewrite (Hf _ Hc), IH.
Qed.

Ltac all_chars := intros [[] [] [] [] [] [] [] []]; vm_compute; first [done | intros; discriminate].

Lemma has_rev n l : has n (rev l) = has n l.
Proof.
  induction l as [|c l IH]; [done|]. simpl. rewrite has_app, IH. simpl.
  by destruct (has n l), (is_c n c).
Qed.

Lemma has_In n l x : has n l = false -> In x l -> is_c n x = false.
Proof.
  intros H Hx. unfold has in H. destruct (is_c n x) eqn:E; [|done].
  assert (existsb (is_c n) l = true) by (apply existsb_exists; eauto). congruence.
Qed.

Lemma forallb_In {A} (f : A -> bool) l x : forallb f l = true -> In x l -> f x = true.
Proof. intros H. by apply forallb_forall. Qed.

Lemma has_false_In n l : (forall x, In x l -> is_c n x = false) -> has n l = false.
Proof.
  intros H. unfold has. destruct (existsb (is_c n) l) eqn:E; [|done].
  apply existsb_exists in E as (x & Hx & Hc). by rewrite (H x Hx) in Hc.
Qed.

Lemma forallb_rev {A} (f : A -> bool) l : forallb f (rev l) = forallb f l.
Proof. induction l as [|x l IH]; [done|]. simpl. rewrite forallb_app, IH. simpl. by destruct (f x), (forallb f l). Qed.

(** A joined list holds [chr(n)] only where a part or the separator
    does. *)
Lemma has_join n sep ws :
  is_c n sep = false -> Forall (fun w => has n w = false) ws -> has n (join sep ws) = false.
Proof.
  intros Hsep Hws. induction Hws as [|w ws Hw Hws IH]; [done|].
  destruct ws as [|w' ws]; [done|].
  change (join sep (w :: w' :: ws)) with (w ++ sep :: join sep (w' :: ws)).
  rewrite has_app. change (has n (sep :: join sep (w' :: ws))) with (is_c n sep || has n (join sep (w' :: ws))).
  by rewrite Hw, Hsep, IH.
Qed.

Lemma join_nonempty sep w ws : nonempty w = true -> nonempty (join sep (w :: ws)) = true.
Proof. destruct w as [|c w]; [done|]. by destruct ws. Qed.

End PyStr.
