(* ===== verification/IpAddress.v ===== *)
(** * [ipaddress.ip_address]: the address check of a bracketed host

    [urlsplit] calls [ipaddress.ip_address(hostname)] on the host of a
    netloc written in brackets ([_check_bracketed_host] in
    [Lib/urllib/parse.py]). This file translates what that call does
    with a string, from CPython 3.12's [Lib/ipaddress.py]:
    - [IPv4Address]: the [/] check, [_ip_int_from_string] (four
      octets, joined by [int.from_bytes]) and [_parse_octet] (ASCII
      digits, at most three, no leading zero, at most 255);
    - [IPv6Address]: the [/] check, [_split_scope_id], and
      [_ip_int_from_string] with its IPv4 suffix, its [::] layout and
      [_parse_hextet] (hex digits, at most four, not empty, since
      [int('', 16)] raises);
    - [ip_address]: IPv4 first, then IPv6, else [ValueError].
    An [AddressValueError] is [None]: [ip_address] turns every one into
    [ValueError], and only that [urlsplit] raises matters. The value of
    an address is a [Z], built with the shifts and ors of the code.
    The theorems: a printed IPv4 address parses back to its value, and
    eight printed hextets parse as the IPv6 address they spell. *)

From S2P Require Import Prelude PyStr.
From Stdlib Require Import Zbitwise.

Module IpAddress.
Import PyStr.

(** ** Decimal and hexadecimal digits *)

(** [int(s, 10)] on ASCII digits. *)
Definition dec_value (s : str) : Z :=
  fold_left (fun acc c => acc * 10 + Z.of_nat (code c - 48))%Z s 0%Z.

(** [_HEX_DIGITS = frozenset('0123456789abcdefABCDEF')] *)
Definition is_hex_digit (c : ascii) : bool :=
  is_ascii_digit c || ((97 <=? code c) && (code c <=? 102)) || ((65 <=? code c) && (code c <=? 70)).

Definition hex_digit_value (c : ascii) : Z :=
  if is_ascii_digit c then Z.of_nat (code c - 48)
  else if (97 <=? code c) then Z.of_nat (code c - 87)
  else Z.of_nat (code c - 55).

(** [int(s, 16)] on hex digits. *)
Definition hex_value (s : str) : Z :=
  fold_left (fun acc c => acc * 16 + hex_digit_value c)%Z s 0%Z.

(** A digit below 16, as ['%x'] and [str] print it. *)
Definition digit_char (d : Z) : ascii :=
  ascii_of_nat (Z.to_nat (if (d <? 10)%Z then 48 + d else 87 + d)%Z).

(** ['%x' % n] for [0 <= n < 65536]: lowercase, no leading zero. The
    code applies it to a value masked with [0xFFFF], so four digits are
    always enough. *)
Definition hex_string (n : Z) : str :=
  if (n <? 16)%Z then [digit_char n]
  else if (n <? 256)%Z then [digit_char (n / 16); digit_char (n mod 16)]
  else if (n <? 4096)%Z then [digit_char (n / 256); digit_char (n / 16 mod 16); digit_char (n mod 16)]
  else [digit_char (n / 4096); digit_char (n / 256 mod 16); digit_char (n / 16 mod 16); digit_char (n mod 16)].

(** [str(b)] for a byte [0 <= b < 256]. *)
Definition dec_string (b : Z) : str :=
  if (b <? 10)%Z then [digit_char b]
  else if (b <? 100)%Z then [digit_char (b / 10); digit_char (b mod 10)]
  else [digit_char (b / 100); digit_char (b / 10 mod 10); digit_char (b mod 10)].

(** ** IPv4 *)

(** [IPv4Address._parse_octet(octet_str)] *)
Definition parse_octet (s : str) : option Z :=
  if negb (nonempty s) then None
  else if negb (forallb is_ascii_digit s) then None
  else if (3 <? length s)%nat then None
  else if negb (bool_decide (s = ["0"%char])) && is_c 48 (hd "0"%char s) then None
  else let v := dec_value s in if (255 <? v)%Z then None else Some v.

(** [IPv4Address._ip_int_from_string(ip_str)]: [int.from_bytes] of the
    four octets, big-endian. *)
Definition ipv4_int (s : str) : option Z :=
  if negb (nonempty s) then None
  else let octets := split_all 46 s in
  if negb (length octets =? 4)%nat then None
  else fold_left (fun acc o => match acc, parse_octet o with
                               | Some a, Some v => Some (a * 256 + v)%Z
                               | _, _ => None
                               end) octets (Some 0%Z).

(** [IPv4Address(address)] on a string. *)
Definition ipv4_address (s : str) : option Z :=
  if has 47 s then None else ipv4_int s.

(** [IPv4Address._string_from_ip_int(ip_int)]:
    ['.'.join(map(str, ip_int.to_bytes(4, 'big')))]. *)
Definition ipv4_string (v : Z) : str :=
  join "."%char (map (fun k => dec_string (Z.land (Z.shiftr v (8 * k)) 255)) [3; 2; 1; 0]%Z).

(** ** IPv6 *)

(** [IPv6Address._parse_hextet(hextet_str)] *)
Definition parse_hextet (s : str) : option Z :=
  if negb (forallb is_hex_digit s) then None
  else if (4 <? length s)%nat then None
  else if negb (nonempty s) then None
  else Some (hex_value s).

(** [IPv6Address._split_scope_id(ip_str)] *)
Definition split_scope_id (s : str) : option (str * option str) :=
  match split_once 37 s with
  | None => Some (s, None)
  | Some (addr, scope) =>
      if negb (nonempty scope) || has 37 scope then None else Some (addr, Some scope)
  end.

(** An IPv4 suffix ([.] in [parts[-1]]) becomes two hextets:
    [parts.append('%x' % ((ipv4_int >> 16) & 0xFFFF))] and
    [parts.append('%x' % (ipv4_int & 0xFFFF))]. *)
Definition v4_suffix (parts : list str) : option (list str) :=
  match rev parts with
  | lst :: rrest =>
      if has 46 lst then
        match ipv4_address lst with
        | None => None
        | Some v => Some (rev rrest ++ [hex_string (Z.land (Z.shiftr v 16) 65535);
                                        hex_string (Z.land v 65535)])
        end
      else Some parts
  | [] => Some parts
  end.

(** The indices [1 <= i < len(parts) - 1] of empty parts: where [::]
    skips a run of zeroes. *)
Definition inner_empty (parts : list str) : list nat :=
  List.filter (fun i => negb (nonempty (nth i parts []))) (seq 1 (length parts - 2)).

(** [parts_hi], [parts_lo] and [parts_skipped], or the error of the
    layout checks. *)
Definition layout (parts : list str) : option (nat * nat * nat) :=
  let n := length parts in
  let first_empty := negb (nonempty (hd [] parts)) in
  let last_empty := negb (nonempty (List.last parts [])) in
  match inner_empty parts with
  | [i] =>
      let hi := i in
      let lo := n - i - 1 in
      if first_empty && negb (hi - 1 =? 0) then None
      else let hi := if first_empty then hi - 1 else hi in
      if last_empty && negb (lo - 1 =? 0) then None
      else let lo := if last_empty then lo - 1 else lo in
      if (8 <=? hi + lo) then None
      else Some (hi, lo, 8 - (hi + lo))
  | [] =>
      if negb (n =? 8) || first_empty || last_empty then None
      else Some (n, 0, 0)
  | _ => None
  end.

(** [ip_int <<= 16; ip_int |= cls._parse_hextet(part)] over parts. *)
Definition hextets_value (acc : option Z) (ps : list str) : option Z :=
  fold_left (fun acc p => match acc, parse_hextet p with
                          | Some a, Some h => Some (Z.lor (Z.shiftl a 16) h)
                          | _, _ => None
                          end) ps acc.

(** [IPv6Address._ip_int_from_string(ip_str)] *)
Definition ipv6_int (s : str) : option Z :=
  if negb (nonempty s) then None
  else let parts := split_all 58 s in
  if (length parts <? 3)%nat then None
  else match v4_suffix parts with
  | None => None
  | Some parts =>
      if (9 <? length parts)%nat then None
      else match layout parts with
      | None => None
      | Some (hi, lo, skipped) =>
          match hextets_value (Some 0%Z) (firstn hi parts) with
          | None => None
          | Some a => hextets_value (Some (Z.shiftl a (16 * Z.of_nat skipped))) (skipn (length parts - lo) parts)
          end
      end
  end.

(** [IPv6Address(address)] on a string: the value and the scope. *)
Definition ipv6_address (s : str) : option (Z * option str) :=
  if has 47 s then None
  else match split_scope_id s with
  | None => None
  | Some (addr, scope) => option_map (fun v => (v, scope)) (ipv6_int addr)
  end.

Inductive ip :=
| IPv4Address (v : Z)
| IPv6Address (v : Z) (scope : option str).

(** [ipaddress.ip_address(address)]: [None] is the [ValueError]. *)
Definition ip_address (s : str) : option ip :=
  match ipv4_address s with
  | Some v => Some (IPv4Address v)
  | None => option_map (fun '(v, sc) => IPv6Address v sc) (ipv6_address s)
  end.

(** ** Digits parse back *)

(** [P z], [P (z + 1)], ..., [P (z + k - 1)], counted in [Z] so that
    a check over a range computes fast. *)
Fixpoint all_from (P : Z -> bool) (k : nat) (z : Z) : bool :=
  match k with
  | O => true
  | S k' => P z && all_from P k' (z + 1)
  end.

Lemma all_from_spec (P : Z -> bool) k z :
  all_from P k z = true -> forall x, (z <= x < z + Z.of_nat k)%Z -> P x = true.
Proof.
  revert z. induction k as [|k IH]; intros z; simpl; [lia|].
  intros [Hz Hk]%andb_prop x Hx. destruct (Z.eq_dec x z) as [->|Hne]; [done|].
  apply (IH (z + 1)%Z Hk). lia.
Qed.

(** The fact [P z] for every [0 <= z < k], from a check that computes. *)
Lemma below_by_check (P : Z -> Prop) `{forall z, Decision (P z)} (k : nat) :
  all_from (fun z => bool_decide (P z)) k 0 = true -> forall z, (0 <= z < Z.of_nat k)%Z -> P z.
Proof. intros Hk z Hz. apply (bool_decide_eq_true_1 (P z)). apply (all_from_spec _ k 0 Hk). lia. Qed.

(** [str(b)] of a byte is a valid octet worth [b], without a dot or a
    slash. *)
Lemma dec_string_octet b :
  (0 <= b < 256)%Z ->
  parse_octet (dec_string b) = Some b /\ has 46 (dec_string b) = false /\ has 47 (dec_string b) = false.
Proof.
  apply (below_by_check (fun b => parse_octet (dec_string b) = Some b /\
                                  has 46 (dec_string b) = false /\ has 47 (dec_string b) = false) 256).
  vm_compute. reflexivity.
Qed.

(** The characters allowed in a printed hextet: none is a colon, a
    dot, a slash or a percent sign. *)
Definition hextet_char (c : ascii) : bool :=
  is_hex_digit c && negb (is_c 58 c || is_c 46 c || is_c 47 c || is_c 37 c).

Lemma digit_char_hex d :
  (0 <= d < 16)%Z -> hextet_char (digit_char d) = true /\ hex_digit_value (digit_char d) = d.
Proof.
  apply (below_by_check (fun d => hextet_char (digit_char d) = true /\ hex_digit_value (digit_char d) = d) 16).
  vm_compute. reflexivity.
Qed.

(** [hex_value] reads the digits it is given, most significant first. *)
Lemma hex_value_digits ds :
  Forall (fun d => 0 <= d < 16)%Z ds ->
  hex_value (map digit_char ds) = fold_left (fun acc d => acc * 16 + d)%Z ds 0%Z.
Proof.
  intros Hds. unfold hex_value. generalize 0%Z as acc.
  induction Hds as [|d ds Hd Hds IH]; intros acc; [done|].
  simpl. rewrite (proj2 (digit_char_hex d Hd)). apply IH.
Qed.

(** One branch of [hex_string]: its digits, their bounds, their number
    and their value. *)
Local Ltac hex_case :=
  repeat match goal with
         | H : (_ <? _)%Z = true |- _ => apply Z.ltb_lt in H
         | H : (_ <? _)%Z = false |- _ => apply Z.ltb_ge in H
         end;
  split; [reflexivity|]; split; [repeat constructor; zdiv_lia|]; split; simpl; zdiv_lia.

(** ['%x' % h] of a 16-bit value is a valid hextet worth [h], without a
    colon, a dot, a slash or a percent sign. *)
Lemma hex_string_hextet h :
  (0 <= h < 65536)%Z ->
  parse_hextet (hex_string h) = Some h /\ forallb hextet_char (hex_string h) = true.
Proof.
  intros Hh.
  assert (Hds : exists ds, hex_string h = map digit_char ds /\ Forall (fun d => 0 <= d < 16)%Z ds /\
                (0 < length ds <= 4)%nat /\ fold_left (fun acc d => acc * 16 + d)%Z ds 0%Z = h).
  { unfold hex_string.
    destruct (h <? 16)%Z eqn:E1; [exists [h]; hex_case|].
    destruct (h <? 256)%Z eqn:E2; [exists [h / 16; h mod 16]%Z; hex_case|].
    destruct (h <? 4096)%Z eqn:E3; [exists [h / 256; h / 16 mod 16; h mod 16]%Z; hex_case|].
    exists [h / 4096; h / 256 mod 16; h / 16 mod 16; h mod 16]%Z. hex_case. }
  destruct Hds as (ds & -> & Hds & Hlen & Hval).
  assert (Hc : forallb hextet_char (map digit_char ds) = true).
  { apply forallb_forall. intros c (d & <- & Hd)%in_map_iff.
    apply (proj1 (digit_char_hex d (proj1 (List.Forall_forall _ _) Hds d Hd))). }
  split; [|exact Hc]. unfold parse_hextet.
  replace (forallb is_hex_digit (map digit_char ds)) with true.
  - rewrite length_map. destruct ds as [|d ds]; [simpl in Hlen; lia|].
    replace (4 <? length (d :: ds))%nat with false by (symmetry; apply Nat.ltb_ge; lia).
    simpl. by rewrite <- map_cons, hex_value_digits, Hval.
  - symmetry. eapply forallb_mono; [|exact Hc]. intros c [Hx _]%andb_prop. exact Hx.
Qed.

(** ** A printed address parses back *)

(** [int.from_bytes] of printed octets. *)
Lemma fold_octets bs acc :
  Forall (fun b => 0 <= b < 256)%Z bs ->
  fold_left (fun acc o => match acc, parse_octet o with
                          | Some a, Some v => Some (a * 256 + v)%Z
                          | _, _ => None
                          end) (map dec_string bs) (Some acc) =
  Some (fold_left (fun a b => a * 256 + b)%Z bs acc).
Proof.
  intros Hbs. revert acc. induction Hbs as [|b bs Hb Hbs IH]; intros acc; [done|].
  simpl. rewrite (proj1 (dec_string_octet b Hb)). apply IH.
Qed.

Lemma dec_string_nonempty b : nonempty (dec_string b) = true.
Proof. unfold dec_string. by destruct (b <? 10)%Z, (b <? 100)%Z. Qed.

(** Four printed octets joined by dots parse as their big-endian
    value. *)
Lemma ipv4_of_octets b3 b2 b1 b0 :
  Forall (fun b => 0 <= b < 256)%Z [b3; b2; b1; b0] ->
  ipv4_address (join "."%char [dec_string b3; dec_string b2; dec_string b1; dec_string b0]) =
    Some (((b3 * 256 + b2) * 256 + b1) * 256 + b0)%Z.
Proof.
  intros Hbs.
  assert (Hdot : Forall (fun w => has 46 w = false) (map dec_string [b3; b2; b1; b0])).
  { apply Forall_map. eapply Forall_impl; [exact Hbs|]. intros b Hb. apply (dec_string_octet b Hb). }
  assert (Hslash : Forall (fun w => has 47 w = false) (map dec_string [b3; b2; b1; b0])).
  { apply Forall_map. eapply Forall_impl; [exact Hbs|]. intros b Hb. apply (dec_string_octet b Hb). }
  unfold ipv4_address, ipv4_int. rewrite has_join by done.
  rewrite join_nonempty by apply dec_string_nonempty. cbn [negb].
  rewrite split_all_join by done. cbn [length Nat.eqb negb].
  change [dec_string b3; dec_string b2; dec_string b1; dec_string b0] with (map dec_string [b3; b2; b1; b0]).
  by rewrite fold_octets.
Qed.

Lemma byte_of v k : (0 <= k)%Z -> Z.land (Z.shiftr v (8 * k)) 255 = (v / 2 ^ (8 * k) mod 256)%Z.
Proof. intros Hk. rewrite Z.shiftr_div_pow2 by lia. change 255%Z with (Z.ones 8). apply Z.land_ones. lia. Qed.

(** C38. IPv4 addresses round-trip: [IPv4Address] parses the text that
    [str(IPv4Address(v))] prints back to [v], for every 32-bit value. *)
Theorem ipv4_string_roundtrip v :
  (0 <= v < 2 ^ 32)%Z -> ipv4_address (ipv4_string v) = Some v.
Proof.
  intros Hv. unfold ipv4_string. cbn [map]. rewrite !byte_of by lia. simpl (2 ^ _)%Z.
  rewrite ipv4_of_octets; [f_equal; zdiv_lia|]. repeat constructor; zdiv_lia.
Qed.

(** [ip_int <<= 16; ip_int |= h] adds a 16-bit [h] below the shifted
    value. *)
Lemma lor_shiftl_16 a h : (0 <= h < 65536)%Z -> Z.lor (Z.shiftl a 16) h = (a * 65536 + h)%Z.
Proof.
  intros Hh.
  assert (Hl : Z.land (Z.shiftl a 16) h = 0%Z).
  { rewrite <- (Z.mod_small h (2 ^ 16)) by lia. rewrite <- Z.land_ones by lia.
    rewrite (Z.land_comm h (Z.ones 16)), Z.land_assoc, Z.land_ones by lia.
    rewrite Z.shiftl_mul_pow2, Z.mod_mul by lia. apply Z.land_0_l. }
  pose proof (Z.add_lor_land (Z.shiftl a 16) h) as Hadd. rewrite Hl, Z.shiftl_mul_pow2 in Hadd by lia.
  rewrite Z.shiftl_mul_pow2 by lia. change (2 ^ 16)%Z with 65536%Z in *. lia.
Qed.

Lemma hextets_value_hex hs acc :
  Forall (fun h => 0 <= h < 65536)%Z hs ->
  hextets_value (Some acc) (map hex_string hs) = Some (fold_left (fun a h => a * 65536 + h)%Z hs acc).
Proof.
  intros Hhs. revert acc. unfold hextets_value.
  induction Hhs as [|h hs Hh Hhs IH]; intros acc; [done|].
  simpl. rewrite (proj1 (hex_string_hextet h Hh)), lor_shiftl_16 by done. apply IH.
Qed.

(** A part that is not empty and has no dot leaves the parts as they
    are. *)
Lemma v4_suffix_none parts : Forall (fun w => has 46 w = false) parts -> v4_suffix parts = Some parts.
Proof.
  intros Hp. unfold v4_suffix. destruct (rev parts) as [|lst rrest] eqn:Hr; [done|].
  replace (has 46 lst) with false; [done|]. symmetry.
  apply (proj1 (List.Forall_forall _ _) Hp). apply in_rev. rewrite Hr. by left.
Qed.

(** Eight parts, none empty: no [::], the whole address above. *)
Lemma layout_eight parts :
  length parts = 8%nat -> Forall (fun w => nonempty w = true) parts -> layout parts = Some (8%nat, 0%nat, 0%nat).
Proof.
  intros Hlen Hne. unfold layout.
  replace (inner_empty parts) with (@nil nat).
  2:{ symmetry. apply filter_all_false. intros i Hi%in_seq.
      rewrite (proj1 (List.Forall_forall _ _) Hne (nth i parts [])); [done|]. apply nth_In. lia. }
  destruct parts as [|w ws]; [done|]. apply Forall_cons in Hne as [Hw Hws] .
  rewrite Hlen. cbn [hd]. rewrite Hw.
  rewrite (Forall_last _ (w :: ws) [] (Forall_cons_2 _ _ _ Hw Hws)) by done. done.
Qed.

(** C39. Eight hextets printed with ['%x'] and joined by colons parse,
    with [IPv6Address], as the 128-bit address they spell, with no
    scope. *)
Theorem ipv6_full_form hs :
  length hs = 8%nat -> Forall (fun h => 0 <= h < 65536)%Z hs ->
  ipv6_address (join ":"%char (map hex_string hs)) =
    Some (fold_left (fun a h => a * 65536 + h)%Z hs 0%Z, None).
Proof.
  intros Hlen Hhs.
  assert (Hc : Forall (fun w => forallb hextet_char w = true) (map hex_string hs)).
  { apply Forall_map. eapply Forall_impl; [exact Hhs|]. intros h Hh. apply (hex_string_hextet h Hh). }
  assert (Hno : forall n, (forall c, hextet_char c = true -> is_c n c = false) ->
                Forall (fun w => has n w = false) (map hex_string hs)).
  { intros n Hn. eapply Forall_impl; [exact Hc|]. intros w Hw. exact (has_forallb n _ w Hn Hw). }
  assert (Hne : Forall (fun w => nonempty w = true) (map hex_string hs)).
  { apply Forall_map. eapply Forall_impl; [exact Hhs|]. intros h Hh. unfold hex_string.
    by destruct (h <? 16)%Z, (h <? 256)%Z, (h <? 4096)%Z. }
  pose proof (Hno 58 ltac:(all_chars)) as H58. pose proof (Hno 46 ltac:(all_chars)) as H46.
  pose proof (Hno 47 ltac:(all_chars)) as H47. pose proof (Hno 37 ltac:(all_chars)) as H37.
  assert (Hlen' : length (map hex_string hs) = 8%nat) by (by rewrite length_map).
  remember (map hex_string hs) as ws eqn:Hws.
  assert (Hjn : nonempty (join ":"%char ws) = true).
  { destruct ws as [|w ws']; [done|]. apply join_nonempty. by inversion Hne. }
  unfold ipv6_address, split_scope_id, ipv6_int.
  rewrite has_join by done. rewrite split_once_none by (apply has_join; done).
  rewrite Hjn. cbn [negb].
  rewrite split_all_join; [| done | done | by intros ->].
  rewrite Hlen'. replace (8 <? 3)%nat with false by reflexivity.
  rewrite v4_suffix_none by done. rewrite Hlen'. replace (9 <? 8)%nat with false by reflexivity.
  rewrite layout_eight by done. rewrite firstn_all2 by lia.
  rewrite Nat.sub_0_r, <- Hlen', drop_all. subst ws.
  rewrite hextets_value_hex by done. simpl. by rewrite Z.shiftl_0_r.
Qed.

(** ** Witnesses *)

Lemma ipv4_string_roundtrip_witness :
  (0 <= 3232235777 < 2 ^ 32)%Z /\ ipv4_string 3232235777 = L "192.168.1.1" /\
  ipv4_address (ipv4_string 3232235777) = Some 3232235777%Z.
Proof.
  split; [lia|]. split; [vm_compute; reflexivity|]. apply ipv4_string_roundtrip. lia.
Defined.

(** [2001:db8:0:0:0:ff00:42:8329] *)
Definition doc_hextets : list Z := [8193; 3512; 0; 0; 0; 65280; 66; 33577]%Z.

Lemma ipv6_full_form_witness :
  length doc_hextets = 8%nat /\ Forall (fun h => 0 <= h < 65536)%Z doc_hextets /\
  join ":"%char (map hex_string doc_hextets) = L "2001:db8:0:0:0:ff00:42:8329" /\
  ipv6_address (join ":"%char (map hex_string doc_hextets)) =
    Some (42540766411282592856904265327123268393%Z, None).
Proof.
  assert (Hb : Forall (fun h => 0 <= h < 65536)%Z doc_hextets) by (repeat constructor; lia).
  split; [reflexivity|]. split; [exact Hb|]. split; [vm_compute; reflexivity|].
  rewrite (ipv6_full_form doc_hextets eq_refl Hb). reflexivity.
Defined.

End IpAddress.
