(* ===== verification/UrlParse.v ===== *)
(** * [urllib.parse.urljoin]: the URL resolver of the extractors

    [parse_subforum_page] and [parse_topic] ([src/net_spider.py], lines
    36, 42 and 91) resolve every href with
    [urllib.parse.urljoin(BASE_URL, href)]. This file translates the
    functions of CPython 3.12's [Lib/urllib/parse.py] that [urljoin]
    calls, on strings as lists of 8-bit characters:
    - [urlsplit]: strip, the scheme, the netloc and its checks, the
      fragment and the query;
    - [urlparse], with [_splitparams];
    - [urlunsplit] and [urlunparse];
    - [urljoin], with the RFC 3986 removal of dot segments.
    The checks of the netloc are those of 3.12.9 and later: an
    unmatched bracket, [_check_bracketed_netloc] and
    [_check_bracketed_host] (with [ipaddress.ip_address] of
    [IpAddress]), and [_checknetloc], whose NFKC normalization is given
    on the characters up to U+00FF by their compatibility
    decompositions. All raise [ValueError], the only exception of
    [urljoin] ([urljoin_raises_value_error]). The string operations
    come from [PyStr]. *)

From S2P Require Import Prelude Web PyStr IpAddress.

Module UrlParse.

Import PyStr.


(** [scheme_chars]: ASCII letters, digits and [+-.]. *)
Definition is_scheme_char (c : ascii) : bool :=
  is_ascii_alpha c || is_ascii_digit c || is_c 43 c || is_c 45 c || is_c 46 c.


(** [_WHATWG_C0_CONTROL_OR_SPACE]: the characters 0 to 32. *)
Definition c0_or_space (c : ascii) : bool := code c <=? 32.

Fixpoint lstrip_c0 (s : str) : str :=
  match s with
  | [] => []
  | c :: s' => if c0_or_space c then lstrip_c0 s' else s
  end.

Definition strip_c0 (s : str) : str := rev (lstrip_c0 (rev (lstrip_c0 s))).

(** [_UNSAFE_URL_BYTES_TO_REMOVE]: tab, carriage return, line feed. *)
Definition unsafe_byte (c : ascii) : bool := is_c 9 c || is_c 13 c || is_c 10 c.

Definition remove_unsafe (s : str) : str := List.filter (fun c => negb (unsafe_byte c)) s.

(** ** Scheme tables *)

Definition uses_relative : list string :=
  [""; "ftp"; "http"; "gopher"; "nntp"; "imap"; "wais"; "file"; "https"; "shttp"; "mms";
   "prospero"; "rtsp"; "rtsps"; "rtspu"; "sftp"; "svn"; "svn+ssh"; "ws"; "wss"]%string.

Definition uses_netloc : list string :=
  [""; "ftp"; "http"; "gopher"; "nntp"; "telnet"; "imap"; "wais"; "file"; "mms"; "https";
   "shttp"; "snews"; "prospero"; "rtsp"; "rtsps"; "rtspu"; "rsync"; "svn"; "svn+ssh"; "sftp";
   "nfs"; "git"; "git+ssh"; "ws"; "wss"; "itms-services"]%string.

Definition uses_params : list string :=
  [""; "ftp"; "hdl"; "prospero"; "http"; "imap"; "https"; "shttp"; "rtsp"; "rtsps"; "rtspu";
   "sip"; "sips"; "mms"; "sftp"; "tel"]%string.

(** [scheme in table] *)
Definition in_table (table : list string) (scheme : str) : bool :=
  existsb (fun x => bool_decide (L x = scheme)) table.

(** ** [urlsplit] and [urlparse] *)

Record split := Split { s_scheme : str; s_netloc : str; s_path : str; s_query : str; s_fragment : str }.

Record parsed := Parsed {
  p_scheme : str; p_netloc : str; p_path : str; p_params : str; p_query : str; p_fragment : str
}.

(** [i = url.find(':')]; when [i > 0], [url[0]] is an ASCII letter and
    every character of [url[:i]] is in [scheme_chars], the scheme is
    [url[:i].lower()] and the rest is [url[i+1:]]. *)
Definition split_scheme (url scheme : str) : str * str :=
  match url, find 58 url with
  | c :: _, Some (S _ as i) =>
      if is_ascii_alpha c && forallb is_scheme_char (take i url)
      then (map lower (take i url), drop (S i) url)
      else (scheme, url)
  | _, _ => (scheme, url)
  end.

(** [_splitnetloc(url, 2)] after the two slashes: the netloc ends at
    the earliest of [/], [?] and [#], which is the first character that
    is one of them. *)
Definition netloc_delim (c : ascii) : bool := is_c 47 c || is_c 63 c || is_c 35 c.

Fixpoint span_netloc (s : str) : str * str :=
  match s with
  | [] => ([], [])
  | c :: s' =>
      if netloc_delim c then ([], s)
      else let '(a, b) := span_netloc s' in (c :: a, b)
  end.

Definition split_netloc (url : str) : str * str :=
  match url with
  | c1 :: c2 :: rest => if is_c 47 c1 && is_c 47 c2 then span_netloc rest else ([], url)
  | _ => ([], url)
  end.

(** The longest prefix of characters satisfying [f], and the rest. *)
Fixpoint span_while (f : ascii -> bool) (s : str) : str * str :=
  match s with
  | [] => ([], [])
  | c :: s' => if f c then let '(a, b) := span_while f s' in (c :: a, b) else ([], s)
  end.

(** [re.match(r"\Av[a-fA-F0-9]+\..+\Z", hostname)]: [v], hex digits,
    a dot, then at least one character that is not a newline. The dot
    is not a hex digit, so the hex digits are the longest run. *)
Definition ipvfuture_ok (h : str) : bool :=
  match h with
  | v :: rest =>
      is_c 118 v &&
      match span_while IpAddress.is_hex_digit rest with
      | (hexs, dot :: tail) =>
          nonempty hexs && is_c 46 dot && nonempty tail && forallb (fun c => negb (is_c 10 c)) tail
      | (_, []) => false
      end
  | [] => false
  end.

(** [_check_bracketed_host(hostname)]: an IPvFuture literal, or an
    address that [ipaddress.ip_address] parses and that is not IPv4. *)
Definition check_bracketed_host (hostname : str) : Web.outcome unit :=
  if is_c 118 (hd " "%char hostname) && nonempty hostname then
    if ipvfuture_ok hostname then Web.Ok tt else Web.Raise Web.ValueError
  else match IpAddress.ip_address hostname with
       | Some (IpAddress.IPv6Address _ _) => Web.Ok tt
       | Some (IpAddress.IPv4Address _) => Web.Raise Web.ValueError
       | None => Web.Raise Web.ValueError
       end.

(** [_check_bracketed_netloc(netloc)]: after the last [@], nothing
    before the [[] and nothing but a port after the []]. *)
Definition check_bracketed_netloc (netloc : str) : Web.outcome unit :=
  let hostname_and_port := match rfind 64 netloc with Some i => drop (S i) netloc | None => netloc end in
  match split_once 91 hostname_and_port with
  | Some (before_bracket, bracketed) =>
      if nonempty before_bracket then Web.Raise Web.ValueError
      else let '(hostname, port) := cut 93 bracketed in
      if nonempty port && negb (is_c 58 (hd " "%char port)) then Web.Raise Web.ValueError
      else check_bracketed_host hostname
  | None => check_bracketed_host (cut 93 hostname_and_port).1
  end.

(** [unicodedata.normalize('NFKC', ch)] of a character up to U+00FF,
    as code points: the compatibility decompositions of Latin-1 (the
    no-break space, the spacing accents, the ordinal and superscript
    signs, the micro sign and the vulgar fractions). The other
    characters are their own normal form: their canonical
    decompositions compose back, and no composition crosses two of
    them, so NFKC works character by character on such strings. *)
Definition nfkc_table : list (N * list N) :=
  [(160, [32]); (168, [32; 776]); (170, [97]); (175, [32; 772]); (178, [50]); (179, [51]);
   (180, [32; 769]); (181, [956]); (184, [32; 807]); (185, [49]); (186, [111]);
   (188, [49; 8260; 52]); (189, [49; 8260; 50]); (190, [51; 8260; 52])]%N.

(** The code point of a character. *)
Definition cp (c : ascii) : N := N.of_nat (code c).

Definition nfkc_char (c : ascii) : list N :=
  match List.find (fun e => N.eqb e.1 (cp c)) nfkc_table with
  | Some (_, cps) => cps
  | None => [cp c]
  end.

(** [_checknetloc(netloc)]: a non-ASCII netloc whose NFKC form, with
    [@], [:], [#] and [?] removed first, changes and then holds one of
    [/?#@:] raises [ValueError]. *)
Definition checknetloc (netloc : str) : Web.outcome unit :=
  if negb (nonempty netloc) || forallb is_ascii netloc then Web.Ok tt
  else
    let n := List.filter (fun c => negb (is_c 64 c || is_c 58 c || is_c 35 c || is_c 63 c)) netloc in
    let netloc2 := flat_map nfkc_char n in
    if bool_decide (map cp n = netloc2) then Web.Ok tt
    else if existsb (fun k => existsb (N.eqb k) netloc2) [47; 63; 35; 64; 58]%N then Web.Raise Web.ValueError
    else Web.Ok tt.

(** The checks of [urlsplit] on the netloc, in the order of the code:
    [ValueError("Invalid IPv6 URL")] for an unmatched bracket, then
    [_check_bracketed_netloc] when both brackets are there, then
    [_checknetloc]. *)
Definition check_netloc (netloc : str) : Web.outcome unit :=
  let lb := has 91 netloc in
  let rb := has 93 netloc in
  if (lb && negb rb) || (rb && negb lb) then Web.Raise Web.ValueError
  else match (if lb && rb then check_bracketed_netloc netloc else Web.Ok tt) with
       | Web.Raise e => Web.Raise e
       | Web.Ok _ => checknetloc netloc
       end.

Definition urlsplit (url0 scheme0 : str) : Web.outcome split :=
  let url := remove_unsafe (lstrip_c0 url0) in
  let scheme := remove_unsafe (strip_c0 scheme0) in
  let '(scheme, url) := split_scheme url scheme in
  let '(netloc, url) := split_netloc url in
  match check_netloc netloc with
  | Web.Raise e => Web.Raise e
  | Web.Ok _ =>
      let '(url, fragment) := cut 35 url in
      let '(url, query) := cut 63 url in
      Web.Ok (Split scheme netloc url query fragment)
  end.

(** [_splitparams(url)]: the parameters start at the first [;] after
    the last [/]. [urlparse] calls it only when [;] is in [url]. *)
Definition splitparams (url : str) : str * str :=
  let i := match rfind 47 url with
           | Some j => option_map (Nat.add j) (find 59 (drop j url))
           | None => find 59 url
           end in
  match i with
  | Some i => (take i url, drop (S i) url)
  | None => (url, [])
  end.

Definition urlparse (url scheme : str) : Web.outcome parsed :=
  match urlsplit url scheme with
  | Web.Raise e => Web.Raise e
  | Web.Ok (Split sc nl u q f) =>
      let '(u, params) := if in_table uses_params sc && has 59 u then splitparams u else (u, []) in
      Web.Ok (Parsed sc nl u params q f)
  end.

(** ** [urlunsplit] and [urlunparse] *)

Definition starts_2slash (s : str) : bool :=
  match s with
  | c1 :: c2 :: _ => is_c 47 c1 && is_c 47 c2
  | _ => false
  end.

Definition urlunsplit (c : split) : str :=
  let '(Split scheme netloc url query fragment) := c in
  let url :=
    if nonempty netloc || (nonempty scheme && in_table uses_netloc scheme && negb (starts_2slash url))
    then let url := match url with
                    | c :: _ => if is_c 47 c then url else "/"%char :: url
                    | [] => url
                    end in
         "/"%char :: "/"%char :: netloc ++ url
    else url in
  let url := if nonempty scheme then scheme ++ ":"%char :: url else url in
  let url := if nonempty query then url ++ "?"%char :: query else url in
  if nonempty fragment then url ++ "#"%char :: fragment else url.

Definition urlunparse (p : parsed) : str :=
  let '(Parsed scheme netloc url params query fragment) := p in
  let url := if nonempty params then url ++ ";"%char :: params else url in
  urlunsplit (Split scheme netloc url query fragment).

(** ** [urljoin] *)

(** [base_parts = bpath.split('/')], without its last item unless that
    item is empty. *)
Definition base_dir (bpath : str) : list str :=
  let parts := split_all 47 bpath in
  if nonempty (List.last parts []) then removelast parts else parts.

(** [segments[1:-1] = filter(None, segments[1:-1])] *)
Definition filter_middle (l : list str) : list str :=
  match l with
  | [] => []
  | [x] => [x]
  | x :: rest => x :: List.filter nonempty (removelast rest) ++ [List.last rest []]
  end.

Definition segments_of (bpath path : str) : list str :=
  match path with
  | c :: _ => if is_c 47 c then split_all 47 path else filter_middle (base_dir bpath ++ split_all 47 path)
  | [] => filter_middle (base_dir bpath ++ split_all 47 path)
  end.

Definition is_dot (w : str) : bool := bool_decide (w = ["."%char]).
Definition is_dotdot (w : str) : bool := bool_decide (w = ["."%char; "."%char]).

(** One turn of the loop over the segments: [..] pops (an empty
    [resolved_path] is left as it is), [.] is skipped, any other
    segment is appended. *)
Definition resolve_step (resolved : list str) (seg : str) : list str :=
  if is_dotdot seg then removelast resolved
  else if is_dot seg then resolved
  else resolved ++ [seg].

Definition resolve_path (bpath path : str) : str :=
  let segments := segments_of bpath path in
  let resolved := fold_left resolve_step segments [] in
  let resolved := if is_dot (List.last segments []) || is_dotdot (List.last segments [])
                  then resolved ++ [[]] else resolved in
  match join "/"%char resolved with
  | [] => ["/"%char]
  | p => p
  end.

Definition urljoin (base url : str) : Web.outcome str :=
  if negb (nonempty base) then Web.Ok url
  else if negb (nonempty url) then Web.Ok base
  else
    match urlparse base [] with
    | Web.Raise e => Web.Raise e
    | Web.Ok b =>
        match urlparse url (p_scheme b) with
        | Web.Raise e => Web.Raise e
        | Web.Ok u =>
            let scheme := p_scheme u in
            if negb (bool_decide (scheme = p_scheme b)) || negb (in_table uses_relative scheme)
            then Web.Ok url
            else if in_table uses_netloc scheme && nonempty (p_netloc u)
            then Web.Ok (urlunparse u)
            else
              let netloc := if in_table uses_netloc scheme then p_netloc b else p_netloc u in
              if negb (nonempty (p_path u)) && negb (nonempty (p_params u))
              then Web.Ok (urlunparse (Parsed scheme netloc (p_path b) (p_params b)
                                         (if nonempty (p_query u) then p_query u else p_query b)
                                         (p_fragment u)))
              else Web.Ok (urlunparse (Parsed scheme netloc (resolve_path (p_path b) (p_path u))
                                         (p_params u) (p_query u) (p_fragment u)))
        end
    end.

(** [urljoin] on Python strings. *)
Definition urljoin_str (base url : string) : Web.outcome string :=
  match urljoin (L base) (L url) with
  | Web.Ok r => Web.Ok (String.string_of_list_ascii r)
  | Web.Raise e => Web.Raise e
  end.



Lemma lstrip_c0_keep c s : c0_or_space c = false -> lstrip_c0 (c :: s) = c :: s.
Proof. simpl. by intros ->. Qed.

Lemma remove_unsafe_id s : forallb (fun c => negb (unsafe_byte c)) s = true -> remove_unsafe s = s.
Proof.
  induction s as [|c s IH]; simpl; [done|]. intros [Hc Hs]%andb_prop.
  unfold remove_unsafe in *. simpl. rewrite Hc. by rewrite IH.
Qed.

Lemma span_netloc_app a b :
  forallb (fun c => negb (netloc_delim c)) a = true ->
  match b with [] => True | c :: _ => netloc_delim c = true end ->
  span_netloc (a ++ b) = (a, b).
Proof.
  induction a as [|c a IH]; simpl.
  - intros _. destruct b as [|c b]; simpl; [done|]. by intros ->.
  - intros [Hc Ha]%andb_prop Hb. apply negb_true_iff in Hc. rewrite Hc, IH by done. done.
Qed.


(** ** Well-formed components *)

(** The components [urlsplit] returns for a URL with a scheme and a
    netloc: a lower-case scheme that starts with a letter; a netloc
    without a delimiter, a bracket or a non-ASCII character; a path
    that is empty or starts with a slash and has no [?] or [#]; a query
    without [#]; and nowhere a tab, a carriage return or a line feed. *)
Definition scheme_char_ok (c : ascii) : bool := is_scheme_char c && bool_decide (lower c = c).

Definition scheme_ok (s : str) : bool :=
  match s with
  | c :: _ => is_ascii_alpha c && forallb scheme_char_ok s
  | [] => false
  end.

Definition netloc_char (c : ascii) : bool := negb (netloc_delim c || unsafe_byte c).

(** The netloc passes the checks of [urlsplit]. *)
Definition netloc_ok (nl : str) : bool := if check_netloc nl is Web.Ok _ then true else false.
Definition path_char (c : ascii) : bool := negb (is_c 63 c || is_c 35 c || unsafe_byte c).
Definition query_char (c : ascii) : bool := negb (is_c 35 c || unsafe_byte c).
Definition frag_char (c : ascii) : bool := negb (unsafe_byte c).

Definition slash_start (p : str) : bool :=
  match p with
  | [] => true
  | c :: _ => is_c 47 c
  end.

Definition split_wf (c : split) : bool :=
  scheme_ok (s_scheme c) && nonempty (s_netloc c) && forallb netloc_char (s_netloc c) &&
  netloc_ok (s_netloc c) && forallb path_char (s_path c) && slash_start (s_path c) &&
  forallb query_char (s_query c) && forallb frag_char (s_fragment c).

Definition opt_part (sep : ascii) (s : str) : str := if nonempty s then sep :: s else [].

(** ** Character facts, checked on all 256 characters *)


Lemma scheme_char_facts :
  forall c, scheme_char_ok c = true ->
    c0_or_space c = false /\ unsafe_byte c = false /\ is_c 58 c = false.
Proof. all_chars. Qed.

Lemma alpha_not_c0 : forall c, is_ascii_alpha c = true -> c0_or_space c = false.
Proof. all_chars. Qed.

Lemma netloc_char_facts :
  forall c, netloc_char c = true -> netloc_delim c = false /\ unsafe_byte c = false.
Proof. all_chars. Qed.

Lemma path_char_facts :
  forall c, path_char c = true -> is_c 63 c = false /\ is_c 35 c = false /\ unsafe_byte c = false.
Proof. all_chars. Qed.

Lemma query_char_facts : forall c, query_char c = true -> is_c 35 c = false /\ unsafe_byte c = false.
Proof. all_chars. Qed.


(** ** [urlsplit] reads back what [urlunsplit] writes *)

(** The text [urlunsplit] writes for a URL with a netloc. *)
Lemma urlunsplit_netloc sc nl pa q f :
  nonempty sc = true -> nonempty nl = true -> slash_start pa = true ->
  urlunsplit (Split sc nl pa q f) =
  sc ++ ":"%char :: "/"%char :: "/"%char :: nl ++ pa ++ opt_part "?"%char q ++ opt_part "#"%char f.
Proof.
  intros Hsc Hnl Hpa. unfold urlunsplit, opt_part. rewrite Hnl, Hsc. simpl.
  assert (Hp : match pa with [] => pa | c :: _ => if is_c 47 c then pa else "/"%char :: pa end = pa)
    by (destruct pa as [|c pa]; [done|]; simpl in Hpa; by rewrite Hpa).
  rewrite Hp.
  destruct (nonempty q), (nonempty f); simpl; rewrite ?app_nil_r; repeat (rewrite <- app_assoc; simpl); done.
Qed.

Lemma scheme_ok_cons sc : scheme_ok sc = true -> exists c sc', sc = c :: sc' /\ is_ascii_alpha c = true.
Proof. destruct sc as [|c sc']; simpl; [done|]. intros [Hc _]%andb_prop. by exists c, sc'. Qed.

Lemma scheme_ok_chars sc : scheme_ok sc = true -> forallb scheme_char_ok sc = true.
Proof. destruct sc; simpl; [done|]. intros [_ H]%andb_prop. exact H. Qed.

Lemma map_lower_id sc : forallb scheme_char_ok sc = true -> map lower sc = sc.
Proof.
  induction sc as [|c sc IH]; simpl; [done|]. intros [Hc Hs]%andb_prop.
  apply andb_prop in Hc as [_ Hl]. apply bool_decide_eq_true in Hl. by rewrite Hl, IH.
Qed.

Lemma drop_past {A} (l : list A) x r : drop (S (length l)) (l ++ x :: r) = r.
Proof. by induction l. Qed.

Lemma split_scheme_found sc rest d :
  scheme_ok sc = true -> split_scheme (sc ++ ":"%char :: rest) d = (sc, rest).
Proof.
  intros Hsc. pose proof (scheme_ok_chars _ Hsc) as Hch.
  assert (Hno : has 58 sc = false)
    by (apply (has_forallb _ scheme_char_ok); [intros x Hx; apply (scheme_char_facts x Hx) | done]).
  destruct (scheme_ok_cons _ Hsc) as (c & sc' & -> & Hc).
  unfold split_scheme. cbn [app].
  change (c :: sc' ++ ":"%char :: rest) with ((c :: sc') ++ ":"%char :: rest).
  rewrite find_hit by done. cbn [length].
  rewrite (take_app_length' (c :: sc')) by done.
  change (S (S (length sc'))) with (S (length (c :: sc'))). rewrite drop_past, Hc.
  rewrite (forallb_mono scheme_char_ok is_scheme_char); [| by intros x [? _]%andb_prop | done].
  cbn [andb]. by rewrite map_lower_id.
Qed.

Lemma check_netloc_ok nl : netloc_ok nl = true -> check_netloc nl = Web.Ok tt.
Proof. unfold netloc_ok. by destruct (check_netloc nl) as [[]|]. Qed.

Lemma cut_opt n sep a x :
  has n a = false -> is_c n sep = true -> cut n (a ++ opt_part sep x) = (a, x).
Proof.
  intros Ha Hs. unfold opt_part. destruct x as [|c x]; simpl.
  - rewrite app_nil_r. by apply cut_none.
  - by apply cut_hit.
Qed.

Lemma opt_part_forallb (f : ascii -> bool) sep x :
  f sep = true -> forallb f x = true -> forallb f (opt_part sep x) = true.
Proof. unfold opt_part. destruct x; simpl; [done|]. intros -> H. exact H. Qed.

Definition safe_char (c : ascii) : bool := negb (unsafe_byte c).

Lemma safe_of_netloc c : netloc_char c = true -> safe_char c = true.
Proof. intros H. unfold safe_char. by rewrite (proj2 (netloc_char_facts c H)). Qed.
Lemma safe_of_path c : path_char c = true -> safe_char c = true.
Proof. intros H. unfold safe_char. by rewrite (proj2 (proj2 (path_char_facts c H))). Qed.
Lemma safe_of_query c : query_char c = true -> safe_char c = true.
Proof. intros H. unfold safe_char. by rewrite (proj2 (query_char_facts c H)). Qed.
Lemma safe_of_scheme c : scheme_char_ok c = true -> safe_char c = true.
Proof. intros H. unfold safe_char. by rewrite (proj1 (proj2 (scheme_char_facts c H))). Qed.

(** A first half of the round trip: [urlsplit] reads the components
    back from the text [urlunsplit] writes. *)
Lemma urlsplit_netloc_text sc nl pa q f d :
  split_wf (Split sc nl pa q f) = true ->
  urlsplit (sc ++ ":"%char :: "/"%char :: "/"%char :: nl ++ pa ++ opt_part "?"%char q ++ opt_part "#"%char f) d =
  Web.Ok (Split sc nl pa q f).
Proof.
  unfold split_wf; cbn [s_scheme s_netloc s_path s_query s_fragment].
  intros H. apply andb_prop in H as [H Hf]. apply andb_prop in H as [H Hq].
  apply andb_prop in H as [H Hps]. apply andb_prop in H as [H Hpc]. apply andb_prop in H as [H Hok].
  apply andb_prop in H as [H Hnc]. apply andb_prop in H as [Hsc Hnl].
  destruct (scheme_ok_cons _ Hsc) as (c0 & sc' & Hsceq & Hc0).
  unfold urlsplit.
  assert (Hl : lstrip_c0 (sc ++ ":"%char :: "/"%char :: "/"%char :: nl ++ pa ++ opt_part "?"%char q ++ opt_part "#"%char f)
               = sc ++ ":"%char :: "/"%char :: "/"%char :: nl ++ pa ++ opt_part "?"%char q ++ opt_part "#"%char f)
    by (rewrite Hsceq; apply lstrip_c0_keep, alpha_not_c0, Hc0).
  rewrite Hl, remove_unsafe_id.
  2:{ fold safe_char. rewrite !forallb_app_iff. simpl. rewrite !forallb_app_iff.
      rewrite (forallb_mono scheme_char_ok safe_char sc), (forallb_mono netloc_char safe_char nl),
        (forallb_mono path_char safe_char pa) by eauto using safe_of_scheme, safe_of_netloc, safe_of_path, scheme_ok_chars.
      rewrite (opt_part_forallb safe_char), (opt_part_forallb safe_char); try done;
        eauto using forallb_mono, safe_of_query. }
  rewrite split_scheme_found by done. unfold split_netloc.
  replace (is_c 47 "/"%char) with true by reflexivity. cbn [andb].
  rewrite span_netloc_app.
  2:{ apply (forallb_mono netloc_char); [|done]. intros c Hc. by rewrite (proj1 (netloc_char_facts c Hc)). }
  2:{ destruct pa as [|c pa]; [|simpl in Hps |- *; unfold netloc_delim; by rewrite Hps]. unfold opt_part. destruct q; [|done]. destruct f; done. }
  cbv beta iota. rewrite check_netloc_ok by done. cbv beta iota.
  rewrite app_assoc, cut_opt; [|rewrite has_app; apply orb_false_intro|done].
  - rewrite cut_opt; [done| |done].
    apply (has_forallb _ path_char); [intros x Hx; apply (path_char_facts x Hx) | done].
  - apply (has_forallb _ path_char); [intros x Hx; apply (path_char_facts x Hx) | done].
  - apply (has_forallb _ query_char); [intros x Hx; apply (query_char_facts x Hx) |].
    apply opt_part_forallb; [done | exact Hq].
Qed.

(** C-level statement: [urlsplit] inverts [urlunsplit] on the
    components it returns for a URL with a scheme and a netloc. *)
Lemma urlsplit_urlunsplit_wf c d : split_wf c = true -> urlsplit (urlunsplit c) d = Web.Ok c.
Proof.
  destruct c as [sc nl pa q f]. intros H.
  pose proof H as H'. unfold split_wf in H'; cbn [s_scheme s_netloc s_path] in H'.
  apply andb_prop in H' as [H' _]. apply andb_prop in H' as [H' _]. apply andb_prop in H' as [H' Hps].
  apply andb_prop in H' as [H' _]. apply andb_prop in H' as [H' _]. apply andb_prop in H' as [H' _].
  apply andb_prop in H' as [Hsc Hnl].
  rewrite urlunsplit_netloc; [by apply urlsplit_netloc_text | | done | done].
  by destruct (scheme_ok_cons _ Hsc) as (? & ? & -> & _).
Qed.


(** ** Paths and parameters *)

(** [path.split('/')[-1]] *)
Definition last_seg (p : str) : str := List.last (split_all 47 p) [].

Definition params_char (c : ascii) : bool := path_char c && negb (is_c 47 c).

Definition parsed_wf (p : parsed) : bool :=
  split_wf (Split (p_scheme p) (p_netloc p) (p_path p) (p_query p) (p_fragment p)) &&
  forallb params_char (p_params p) &&
  (if in_table uses_params (p_scheme p)
   then negb (has 59 (last_seg (p_path p))) && (negb (nonempty (p_params p)) || nonempty (p_path p))
   else negb (nonempty (p_params p))).

Lemma join_cons_hd sep c w ws : join sep ((c :: w) :: ws) = c :: join sep (w :: ws).
Proof. by destruct ws. Qed.

Lemma slash_is : is_c 47 "/"%char = true.
Proof. reflexivity. Qed.

(** ['/'.join(s.split('/')) == s] *)
Lemma join_split_all s : join "/"%char (split_all 47 s) = s.
Proof.
  induction s as [|c s IH]; [done|]. simpl. destruct (is_c 47 c) eqn:Hc.
  - assert (c = "/"%char) as ->.
    { unfold is_c, code in Hc. apply Nat.eqb_eq in Hc.
      rewrite <- (ascii_nat_embedding c), Hc. reflexivity. }
    destruct (split_all 47 s) as [|w ws] eqn:E; [by destruct (split_all_nonnil 47 s)|].
    rewrite <- IH. reflexivity.
  - destruct (split_all 47 s) as [|w ws] eqn:E; [by destruct (split_all_nonnil 47 s)|].
    by rewrite join_cons_hd, IH.
Qed.

Lemma split_all_no_slash s : Forall (fun w => has 47 w = false) (split_all 47 s).
Proof.
  induction s as [|c s IH]; simpl; [by repeat constructor|]. destruct (is_c 47 c) eqn:Hc.
  - by constructor.
  - destruct (split_all 47 s) as [|w ws] eqn:E; [by destruct (split_all_nonnil 47 s)|].
    apply Forall_cons in IH as [Hw Hws]. constructor; [|done]. simpl. by rewrite Hc, Hw.
Qed.

(** Every path is a directory part, empty or ending in a slash, and
    its last segment. *)
Lemma path_decompose s :
  exists dir, s = dir ++ last_seg s /\ has 47 (last_seg s) = false /\
    (dir = [] \/ exists d', dir = d' ++ ["/"%char]).
Proof.
  unfold last_seg. pose proof (join_split_all s) as Hj. pose proof (split_all_no_slash s) as Hn.
  destruct (split_all 47 s) as [|w ws] eqn:E; [by destruct (split_all_nonnil 47 s)|].
  destruct (exists_last (l := w :: ws)) as (init & lst & Hl); [done|]. rewrite Hl in Hj, Hn |- *.
  rewrite List.last_last. apply Forall_app in Hn as [_ Hlst]. rewrite Forall_singleton in Hlst.
  destruct init as [|w0 init].
  - exists []. simpl in Hj. subst s. split; [done | split; [exact Hlst | by left]].
  - exists (join "/"%char (w0 :: init) ++ ["/"%char]). split; [|split; [exact Hlst|right; eauto]].
    rewrite <- Hj, <- app_assoc. clear. simpl. revert w0. induction init as [|w1 init IH]; intros w0; [done|].
    simpl. rewrite <- app_assoc. simpl. f_equal. f_equal. apply (IH w1).
Qed.


Lemma rfind_dir d' lst :
  has 47 lst = false -> rfind 47 ((d' ++ ["/"%char]) ++ lst) = Some (length d').
Proof.
  intros Hl. unfold rfind. rewrite rev_app_distr, rev_app_distr. simpl.
  rewrite find_hit; [| by rewrite has_rev | reflexivity].
  simpl. f_equal. rewrite !length_app, length_rev. simpl. lia.
Qed.


Lemma drop_dir (d' l : str) : drop (length d') ((d' ++ ["/"%char]) ++ l) = "/"%char :: l.
Proof. rewrite <- app_assoc. apply drop_app_length. Qed.

(** [_splitparams] on a directory part and a last segment: the
    parameters are cut at the first [;] of the last segment. *)
Lemma splitparams_spec dir lst :
  has 47 lst = false -> (dir = [] \/ exists d', dir = d' ++ ["/"%char]) ->
  splitparams (dir ++ lst) =
  match split_once 59 lst with
  | Some (a, b) => (dir ++ a, b)
  | None => (dir ++ lst, [])
  end.
Proof.
  intros Hl Hdir. unfold splitparams.
  destruct (split_once 59 lst) as [[a b]|] eqn:Es.
  - destruct (split_once_spec _ _ _ _ Es) as (c & -> & Ha & Hc).
    destruct Hdir as [-> | (d' & ->)].
    + simpl. unfold rfind. rewrite find_none by (rewrite has_rev; exact Hl).
      rewrite find_hit by done. simpl. by rewrite take_app_length, drop_past.
    + rewrite rfind_dir by done. rewrite (drop_dir d').
      simpl. rewrite find_hit by done. simpl.
      assert (Ht : take (length d' + S (length a)) ((d' ++ ["/"%char]) ++ a ++ c :: b) = (d' ++ ["/"%char]) ++ a)
        by (rewrite app_assoc; apply take_app_length'; rewrite !length_app; simpl; lia).
      assert (Hdr : drop (S (length d' + S (length a))) ((d' ++ ["/"%char]) ++ a ++ c :: b) = b).
      { rewrite app_assoc. replace (S (length d' + S (length a))) with (S (length ((d' ++ ["/"%char]) ++ a)))
          by (rewrite !length_app; simpl; lia). apply drop_past. }
      by rewrite Ht, Hdr.
  - pose proof (split_once_none_has _ _ Es) as Hs.
    destruct Hdir as [-> | (d' & ->)].
    + simpl. unfold rfind. rewrite find_none by (rewrite has_rev; exact Hl). by rewrite find_none.
    + rewrite rfind_dir by done. rewrite (drop_dir d'). simpl. by rewrite find_none.
Qed.

Lemma urlunparse_split sc nl pa pr q f :
  urlunparse (Parsed sc nl pa pr q f) = urlunsplit (Split sc nl (pa ++ opt_part ";"%char pr) q f).
Proof. unfold urlunparse, opt_part. by destruct pr; rewrite ?app_nil_r. Qed.

Lemma params_path c : params_char c = true -> path_char c = true.
Proof. by intros [? _]%andb_prop. Qed.

Lemma params_no_slash pr : forallb params_char pr = true -> has 47 pr = false.
Proof. apply has_forallb. intros c [_ H]%andb_prop. by apply negb_true_iff. Qed.


Lemma split_wf_iff sc nl pa q f :
  split_wf (Split sc nl pa q f) = true <->
  scheme_ok sc = true /\ nonempty nl = true /\ forallb netloc_char nl = true /\ netloc_ok nl = true /\
  forallb path_char pa = true /\ slash_start pa = true /\
  forallb query_char q = true /\ forallb frag_char f = true.
Proof. unfold split_wf. cbn [s_scheme s_netloc s_path s_query s_fragment]. rewrite !andb_true_iff. tauto. Qed.

(** [_splitparams] leaves a path whose last segment has no [;] as it
    is. *)
Lemma splitparams_none pa : has 59 (last_seg pa) = false -> splitparams pa = (pa, []).
Proof.
  intros Hl. destruct (path_decompose pa) as (dir & Hpa & Hlns & Hdir).
  rewrite Hpa at 1. rewrite splitparams_spec, split_once_none by done. by rewrite <- Hpa.
Qed.

Lemma splitparams_some pa pr :
  has 59 (last_seg pa) = false -> has 47 pr = false -> splitparams (pa ++ ";"%char :: pr) = (pa, pr).
Proof.
  intros Hl Hpr. destruct (path_decompose pa) as (dir & Hpa & Hlns & Hdir).
  rewrite Hpa at 1. rewrite <- app_assoc, splitparams_spec; [| |done].
  - rewrite split_once_hit by done. by rewrite <- Hpa.
  - rewrite has_app, Hlns. simpl. exact Hpr.
Qed.

(** [urlparse] inverts [urlunparse] on well-formed components. *)
Lemma urlparse_urlunparse_wf p d : parsed_wf p = true -> urlparse (urlunparse p) d = Web.Ok p.
Proof.
  destruct p as [sc nl pa pr q f]. unfold parsed_wf. cbn [p_scheme p_netloc p_path p_params p_query p_fragment].
  intros [[Hs Hpr]%andb_prop Hif]%andb_prop.
  apply split_wf_iff in Hs as (Hsc & Hnl & Hnc & Hok & Hpc & Hps & Hq & Hf).
  assert (Hwf : split_wf (Split sc nl (pa ++ opt_part ";"%char pr) q f) = true).
  { apply split_wf_iff. repeat split; try done.
    - rewrite forallb_app_iff, Hpc. apply opt_part_forallb; [done|].
      apply (forallb_mono params_char); [apply params_path | done].
    - destruct pr as [|c pr]; [by rewrite app_nil_r|].
      destruct (in_table uses_params sc); simpl in Hif; [|done].
      apply andb_prop in Hif as [_ Hne]. destruct pa as [|c' pa]; [done|]. exact Hps. }
  unfold urlparse. rewrite urlunparse_split, urlsplit_urlunsplit_wf by done. cbv beta iota.
  destruct (in_table uses_params sc) eqn:Ht; simpl in Hif.
  - apply andb_prop in Hif as [Hlast _]. apply negb_true_iff in Hlast. cbn [andb].
    destruct pr as [|c pr]; unfold opt_part; cbn [nonempty].
    + rewrite app_nil_r. destruct (has 59 pa); [|done]. by rewrite splitparams_none.
    + rewrite has_app. simpl. rewrite orb_true_r.
      rewrite splitparams_some; [done | done |]. apply (params_no_slash (c :: pr) Hpr).
  - destruct pr; [|done]. unfold opt_part. simpl. rewrite app_nil_r. by destruct (has 59 pa).
Qed.


(** ** What [urlparse] returns is well formed *)


Lemma remove_unsafe_safe s x : In x (remove_unsafe s) -> safe_char x = true.
Proof. unfold remove_unsafe. intros [_ H]%filter_In. exact H. Qed.

Lemma split_all_app_slash x y : split_all 47 (x ++ "/"%char :: y) = split_all 47 x ++ split_all 47 y.
Proof.
  induction x as [|c x IH]; [done|]. simpl. rewrite IH. destruct (is_c 47 c); [done|].
  destruct (split_all 47 x) as [|w ws] eqn:E; [by destruct (split_all_nonnil 47 x)|]. done.
Qed.

Lemma last_seg_dir dir a :
  has 47 a = false -> (dir = [] \/ exists d', dir = d' ++ ["/"%char]) -> last_seg (dir ++ a) = a.
Proof.
  intros Ha [-> | (d' & ->)]; unfold last_seg.
  - simpl. by rewrite split_all_none.
  - rewrite <- app_assoc. simpl. rewrite split_all_app_slash, (split_all_none 47 a) by done.
    apply List.last_last.
Qed.

Lemma span_netloc_spec s a b :
  span_netloc s = (a, b) ->
  s = a ++ b /\ forallb (fun c => negb (netloc_delim c)) a = true /\
  match b with [] => True | c :: _ => netloc_delim c = true end.
Proof.
  revert a b. induction s as [|c s IH]; simpl; intros a b.
  - intros [= <- <-]. done.
  - destruct (netloc_delim c) eqn:Hc.
    + intros [= <- <-]. done.
    + destruct (span_netloc s) as [a' b'] eqn:E. intros [= <- <-].
      destruct (IH _ _ eq_refl) as (-> & Ha & Hb). simpl. by rewrite Hc, Ha.
Qed.

Lemma split_netloc_spec u nl u2 :
  split_netloc u = (nl, u2) -> nonempty nl = true ->
  exists rest, u = "/"%char :: "/"%char :: rest /\ span_netloc rest = (nl, u2).
Proof.
  unfold split_netloc. destruct u as [|c1 [|c2 rest]]; try (intros [= <- _]; done).
  destruct (is_c 47 c1 && is_c 47 c2) eqn:E; [|intros [= <- _]; done].
  intros Hs _. apply andb_prop in E as [E1 E2].
  assert (Hslash : forall c, is_c 47 c = true -> c = "/"%char).
  { intros c Hc. unfold is_c, code in Hc. apply Nat.eqb_eq in Hc.
    rewrite <- (ascii_nat_embedding c), Hc. reflexivity. }
  rewrite (Hslash _ E1), (Hslash _ E2). by exists rest.
Qed.

(** The netloc [urlsplit] extracts has no slash. *)
Lemma split_netloc_no_slash u nl u2 : split_netloc u = (nl, u2) -> has 47 nl = false.
Proof.
  intros Hs. destruct nl as [|c nl]; [done|].
  destruct (split_netloc_spec _ _ _ Hs eq_refl) as (rest & _ & Hspan).
  destruct (span_netloc_spec _ _ _ Hspan) as (_ & Hnd & _).
  apply (has_forallb 47 (fun c => negb (netloc_delim c))); [|exact Hnd].
  intros x Hx. apply negb_true_iff in Hx. unfold netloc_delim in Hx. by apply orb_false_elim in Hx as [[-> _]%orb_false_elim _].
Qed.

(** A character that is not one of [/@:#?] normalizes, under NFKC, to
    code points none of which is one of [/?#@:]: the compatibility
    decompositions of Latin-1 bring in spaces, letters, digits,
    combining accents, the Greek mu and the fraction slash U+2044. *)
Definition nfkc_safe (c : ascii) : bool :=
  implb (negb (is_c 47 c) && negb (is_c 64 c || is_c 58 c || is_c 35 c || is_c 63 c))
        (forallb (fun k => negb (existsb (N.eqb k) [47; 63; 35; 64; 58]%N)) (nfkc_char c)).

Lemma nfkc_safe_all : forall c, nfkc_safe c = true.
Proof. all_chars. Qed.

(** [_checknetloc] passes on every 8-bit netloc without a slash, so on
    every netloc [urlsplit] extracts. *)
Lemma checknetloc_no_slash nl : has 47 nl = false -> checknetloc nl = Web.Ok tt.
Proof.
  intros H. unfold checknetloc. destruct (_ || _); [done|]. cbv zeta.
  destruct (bool_decide _); [done|].
  destruct (existsb _ _) eqn:E; [exfalso|done].
  apply existsb_exists in E as (k & Hk & E). apply existsb_exists in E as (k' & Hk' & Ekk).
  apply N.eqb_eq in Ekk. subst k'.
  apply in_flat_map in Hk' as (c & Hc & Hkc). apply filter_In in Hc as [Hcnl Hcf].
  pose proof (nfkc_safe_all c) as Hs. unfold nfkc_safe in Hs.
  rewrite (has_In 47 nl c H Hcnl), Hcf in Hs. cbn [negb andb implb] in Hs.
  pose proof (proj1 (forallb_forall _ _) Hs k Hkc) as Hn. apply negb_true_iff in Hn.
  assert (existsb (N.eqb k) [47; 63; 35; 64; 58]%N = true) as Hy.
  { apply existsb_exists. exists k. split; [exact Hk | apply N.eqb_refl]. }
  congruence.
Qed.

Lemma check_netloc_spec nl u : check_netloc nl = Web.Ok u -> netloc_ok nl = true.
Proof. unfold netloc_ok. by intros ->. Qed.


Lemma lower_alpha : forall c, is_ascii_alpha c = true -> is_ascii_alpha (lower c) = true.
Proof. all_chars. Qed.

Lemma lower_scheme : forall c, is_scheme_char c = true -> scheme_char_ok (lower c) = true.
Proof. all_chars. Qed.

Lemma forallb_map_lower l : forallb is_scheme_char l = true -> forallb scheme_char_ok (map lower l) = true.
Proof.
  induction l as [|c l IH]; simpl; [done|]. intros [Hc Hl]%andb_prop. by rewrite lower_scheme, IH.
Qed.

(** The scheme is the default one, or one read from the URL. *)
Lemma split_scheme_cases url sch sc rest :
  split_scheme url sch = (sc, rest) ->
  (sc = sch /\ rest = url) \/ (scheme_ok sc = true /\ exists k, rest = drop k url).
Proof.
  unfold split_scheme. destruct url as [|c u]; [intros [= <- <-]; left; split; reflexivity|].
  destruct (find 58 (c :: u)) as [[|i]|]; try (intros [= <- <-]; left; split; reflexivity).
  destruct (is_ascii_alpha c && forallb is_scheme_char (take (S i) (c :: u))) eqn:H;
    [|intros [= <- <-]; left; split; reflexivity].
  intros [= <- <-]. right. split; [|exists (S (S i)); reflexivity].
  apply andb_prop in H as [Hc Hall]. cbn [take map scheme_ok]. 
  rewrite lower_alpha by done. exact (forallb_map_lower (c :: take i u) Hall).
Qed.


Lemma lstrip_c0_id s : forallb (fun c => negb (c0_or_space c)) s = true -> lstrip_c0 s = s.
Proof. destruct s as [|c s]; simpl; [done|]. intros [Hc _]%andb_prop. apply negb_true_iff in Hc. by rewrite Hc. Qed.

(** The default scheme [urljoin] passes is kept as it is. *)
Lemma scheme_default_clean d : d = [] \/ scheme_ok d = true -> remove_unsafe (strip_c0 d) = d.
Proof.
  intros [-> | Hd]; [done|]. pose proof (scheme_ok_chars _ Hd) as Hch.
  assert (Hc0 : forallb (fun c => negb (c0_or_space c)) d = true)
    by (apply (forallb_mono scheme_char_ok); [intros c Hc; by rewrite (proj1 (scheme_char_facts c Hc)) | done]).
  unfold strip_c0. rewrite (lstrip_c0_id d), (lstrip_c0_id (rev d)), rev_involutive by (rewrite ?forallb_rev; done).
  apply remove_unsafe_id. apply (forallb_mono scheme_char_ok); [apply safe_of_scheme | done].
Qed.

Lemma cut_sub n u a b : cut n u = (a, b) -> has n a = false /\ incl a u /\ incl b u.
Proof.
  intros Hc. destruct (cut_spec n u) as [[Hn Hc'] | (a' & c & b' & -> & Ha & Hcn & Hc')];
    rewrite Hc' in Hc; injection Hc as <- <-.
  - split; [done|]. split; [apply incl_refl | intros x []].
  - split; [done|]. split; intros x Hx; apply in_or_app; [by left | right; by right].
Qed.

Lemma cut_head n c u a b :
  cut n (c :: u) = (a, b) -> if is_c n c then a = [] else exists a', a = c :: a'.
Proof.
  unfold cut. simpl. destruct (is_c n c); [by intros [= <- _]|].
  destruct (split_once n u) as [[a' b']|]; simpl; intros [= <- _]; eauto.
Qed.


Lemma incl_drop {A} k (l : list A) : incl (drop k l) l.
Proof. intros x Hx. rewrite <- (take_drop k l). apply in_or_app. by right. Qed.

(** The path [urlsplit] returns after a netloc is empty or starts with
    a slash: what follows the netloc starts with [/], [?] or [#]. *)
Lemma cuts_slash_start u2 u3 f pa q :
  match u2 with [] => True | c :: _ => netloc_delim c = true end ->
  cut 35 u2 = (u3, f) -> cut 63 u3 = (pa, q) -> slash_start pa = true.
Proof.
  intros Hu H1 H2. destruct u2 as [|c u2].
  - unfold cut in H1. simpl in H1. injection H1 as <- <-. unfold cut in H2. simpl in H2. by injection H2 as <- <-.
  - pose proof (cut_head _ _ _ _ _ H1) as Hh1. destruct (is_c 35 c) eqn:E35.
    + subst u3. unfold cut in H2. simpl in H2. by injection H2 as <- <-.
    + destruct Hh1 as (a' & ->). pose proof (cut_head _ _ _ _ _ H2) as Hh2. destruct (is_c 63 c) eqn:E63.
      * by subst pa.
      * destruct Hh2 as (p' & ->). simpl. unfold netloc_delim in Hu. rewrite E35, E63 in Hu.
        by rewrite !orb_false_r in Hu.
Qed.

Lemma safe_unsafe x : safe_char x = true -> unsafe_byte x = false.
Proof. unfold safe_char. apply negb_true_iff. Qed.

Lemma split_scheme_incl url sch sc rest : split_scheme url sch = (sc, rest) -> incl rest url.
Proof.
  intros H. destruct (split_scheme_cases _ _ _ _ H) as [[_ ->] | (_ & k & ->)];
    [apply incl_refl | apply incl_drop].
Qed.

Lemma split_netloc_incl u nl u2 : split_netloc u = (nl, u2) -> incl nl u /\ incl u2 u.
Proof.
  destruct (nonempty nl) eqn:Hne.
  - intros Hs. destruct (split_netloc_spec _ _ _ Hs Hne) as (rest & -> & Hspan).
    destruct (span_netloc_spec _ _ _ Hspan) as (-> & _ & _).
    split; intros x Hx; right; right; apply in_or_app; auto.
  - destruct nl; [|done]. intros Hs. split; [intros x []|].
    unfold split_netloc in Hs. destruct u as [|c1 [|c2 rest]]; try (injection Hs as <-; apply incl_refl).
    destruct (is_c 47 c1 && is_c 47 c2); [|injection Hs as <-; apply incl_refl].
    destruct (span_netloc_spec _ _ _ Hs) as (-> & _ & _). intros x Hx. right. by right.
Qed.

(** The path, query and fragment [urlsplit] returns: no [?] or [#] in
    the path, no [#] in the query, and nowhere a removed character. *)
Lemma urlsplit_parts s d c :
  urlsplit s d = Web.Ok c ->
  forallb path_char (s_path c) = true /\ forallb query_char (s_query c) = true /\
  forallb frag_char (s_fragment c) = true.
Proof.
  unfold urlsplit. intros Hs.
  destruct (split_scheme (remove_unsafe (lstrip_c0 s)) (remove_unsafe (strip_c0 d))) as [sc u1] eqn:Hss.
  destruct (split_netloc u1) as [nl u2] eqn:Hsn. destruct (check_netloc nl) as [[]|e]; [|done].
  destruct (cut 35 u2) as [u3 f] eqn:Hc1. destruct (cut 63 u3) as [pa q] eqn:Hc2.
  injection Hs as <-. cbn [s_path s_query s_fragment].
  destruct (cut_sub _ _ _ _ Hc1) as (H35 & Hu3 & Hf). destruct (cut_sub _ _ _ _ Hc2) as (H63 & Hpa & Hq).
  assert (Hin : forall x, In x u2 -> unsafe_byte x = false).
  { intros x Hx. apply safe_unsafe, (remove_unsafe_safe (lstrip_c0 s)).
    apply (split_scheme_incl _ _ _ _ Hss), (proj2 (split_netloc_incl _ _ _ Hsn)), Hx. }
  repeat split; apply forallb_forall; intros x Hx.
  - unfold path_char. rewrite (has_In 63 pa x), (has_In 35 u3 x), Hin by auto. done.
  - unfold query_char. rewrite (has_In 35 u3 x), Hin by auto. done.
  - unfold frag_char. rewrite Hin by auto. done.
Qed.

(** What [urlsplit] returns for a URL with a scheme and a netloc is
    well formed. *)
Lemma urlsplit_wf s d c :
  urlsplit s d = Web.Ok c -> d = [] \/ scheme_ok d = true ->
  nonempty (s_scheme c) = true -> nonempty (s_netloc c) = true -> split_wf c = true.
Proof.
  intros Hs0 Hd. destruct (urlsplit_parts _ _ _ Hs0) as (Hpc & Hqc & Hfc). revert Hs0 Hpc Hqc Hfc.
  unfold urlsplit. rewrite (scheme_default_clean d Hd).
  destruct (split_scheme (remove_unsafe (lstrip_c0 s)) d) as [sc u1] eqn:Hss.
  destruct (split_netloc u1) as [nl u2] eqn:Hsn.
  destruct (check_netloc nl) as [[]|e] eqn:Hck; [|done].
  destruct (cut 35 u2) as [u3 f] eqn:Hc1. destruct (cut 63 u3) as [pa q] eqn:Hc2.
  intros [= <-]. cbn [s_scheme s_netloc s_path s_query s_fragment]. intros Hpc Hqc Hfc Hsc Hnl.
  destruct (split_netloc_spec _ _ _ Hsn Hnl) as (rest & Hu1 & Hspan).
  destruct (span_netloc_spec _ _ _ Hspan) as (Hrest & Hnd & Hhead).
  pose proof (check_netloc_spec _ _ Hck) as Hnok.
  apply split_wf_iff. repeat split; try done.
  - destruct (split_scheme_cases _ _ _ _ Hss) as [[-> _] | [Hok _]]; [|done].
    destruct Hd as [-> | Hd]; [done | exact Hd].
  - apply forallb_forall. intros x Hx. unfold netloc_char.
    pose proof (forallb_In _ _ x Hnd Hx) as Hd'. apply negb_true_iff in Hd'. rewrite Hd'.
    rewrite (safe_unsafe x); [done|]. apply (remove_unsafe_safe (lstrip_c0 s)).
    apply (split_scheme_incl _ _ _ _ Hss), (proj1 (split_netloc_incl _ _ _ Hsn)), Hx.
  - exact (cuts_slash_start _ _ _ _ _ Hhead Hc1 Hc2).
Qed.

Lemma incl_last_seg p : incl (last_seg p) p.
Proof.
  destruct (path_decompose p) as (dir & Hp & _). intros x Hx. rewrite Hp. apply in_or_app. by right.
Qed.

(** What [_splitparams] returns: a path whose last segment has no [;],
    parameters without a slash, both made of characters of its input. *)
Lemma splitparams_parts pa0 pa pr :
  splitparams pa0 = (pa, pr) ->
  has 59 (last_seg pa) = false /\ has 47 pr = false /\ incl pa pa0 /\ incl pr pa0.
Proof.
  intros Hsp. destruct (path_decompose pa0) as (dir & Hpa0 & Hlns & Hdir).
  rewrite Hpa0, splitparams_spec in Hsp by done. rewrite <- Hpa0 in Hsp.
  destruct (split_once 59 (last_seg pa0)) as [[a b]|] eqn:Es.
  - injection Hsp as <- <-. destruct (split_once_spec _ _ _ _ Es) as (c & Hl & Ha & _).
    assert (Hsub : incl (a ++ c :: b) pa0) by (rewrite <- Hl; apply incl_last_seg).
    rewrite Hl, has_app in Hlns. apply orb_false_elim in Hlns as [Ha47 Hb47]. simpl in Hb47.
    apply orb_false_elim in Hb47 as [_ Hb47].
    rewrite last_seg_dir by done. split; [done|]. split; [done|]. split.
    + intros x [Hx|Hx]%in_app_or; [rewrite Hpa0; apply in_or_app; by left | apply Hsub, in_or_app; by left].
    + intros x Hx. apply Hsub, in_or_app. right. by right.
  - injection Hsp as <- <-. split; [exact (split_once_none_has _ _ Es)|]. split; [done|].
    split; [apply incl_refl | intros x []].
Qed.

(** On a path that starts with a slash, the path [_splitparams]
    returns still does. *)
Lemma splitparams_slash pa0 pa pr :
  splitparams pa0 = (pa, pr) -> slash_start pa0 = true -> nonempty pa0 = true ->
  slash_start pa = true /\ nonempty pa = true.
Proof.
  intros Hsp Hs Hne. destruct (path_decompose pa0) as (dir & Hpa0 & Hlns & Hdir).
  destruct dir as [|c0 dir].
  - simpl in Hpa0. rewrite <- Hpa0 in Hlns. destruct pa0 as [|c p]; [done|].
    simpl in Hs, Hlns. by rewrite Hs in Hlns.
  - rewrite Hpa0, splitparams_spec in Hsp by done. rewrite <- Hpa0 in Hsp.
    rewrite Hpa0 in Hs. simpl in Hs.
    destruct (split_once 59 (last_seg pa0)) as [[a b]|]; injection Hsp as <- <-; [done|].
    rewrite Hpa0. done.
Qed.

(** The path, parameters, query and fragment [urlparse] returns, with
    or without a netloc. *)
Lemma urlparse_parts s d p :
  urlparse s d = Web.Ok p ->
  forallb path_char (p_path p) = true /\ forallb params_char (p_params p) = true /\
  forallb query_char (p_query p) = true /\ forallb frag_char (p_fragment p) = true /\
  (if in_table uses_params (p_scheme p) then has 59 (last_seg (p_path p)) = false else p_params p = []).
Proof.
  unfold urlparse. destruct (urlsplit s d) as [[sc nl pa0 q f]|e] eqn:Hs; [|done].
  destruct (urlsplit_parts _ _ _ Hs) as (Hpc & Hq & Hf). cbn [s_path s_query s_fragment] in Hpc, Hq, Hf.
  destruct (in_table uses_params sc && has 59 pa0) eqn:Hsplit.
  - apply andb_prop in Hsplit as [Ht H59].
    destruct (splitparams pa0) as [pa pr] eqn:Hsp. intros [= <-]. cbn [p_scheme p_path p_params p_query p_fragment].
    rewrite Ht. destruct (splitparams_parts _ _ _ Hsp) as (Hl & Hpr & Hipa & Hipr).
    repeat split; try done; apply forallb_forall; intros x Hx.
    + exact (forallb_In _ _ x Hpc (Hipa x Hx)).
    + unfold params_char. rewrite (forallb_In _ _ x Hpc (Hipr x Hx)). by rewrite (has_In 47 pr x).
  - intros [= <-]. cbn [p_scheme p_path p_params p_query p_fragment]. repeat split; try done.
    destruct (in_table uses_params sc) eqn:Ht; [|done]. simpl in Hsplit.
    apply has_false_In. intros x Hx. exact (has_In _ _ _ Hsplit (incl_last_seg pa0 x Hx)).
Qed.

Lemma has_nonempty n s : has n s = true -> nonempty s = true.
Proof. by destruct s. Qed.

(** C-level statement: what [urlparse] returns for a URL with a
    scheme and a netloc is well formed. *)
Lemma urlparse_wf s d p :
  urlparse s d = Web.Ok p -> d = [] \/ scheme_ok d = true ->
  nonempty (p_scheme p) = true -> nonempty (p_netloc p) = true -> parsed_wf p = true.
Proof.
  intros Hp Hd. destruct (urlparse_parts _ _ _ Hp) as (Hpc & Hpr & Hq & Hf & Hrule).
  revert Hp Hpc Hpr Hq Hf Hrule. unfold urlparse.
  destruct (urlsplit s d) as [[sc nl pa0 q f]|e] eqn:Hs; [|done].
  destruct (in_table uses_params sc && has 59 pa0) eqn:Hsplit;
    [destruct (splitparams pa0) as [pa pr] eqn:Hsp|];
    intros [= <-]; cbn [p_scheme p_netloc p_path p_params p_query p_fragment];
    intros Hpc Hpr Hq Hf Hrule Hsc Hnl;
    pose proof (urlsplit_wf _ _ _ Hs Hd Hsc Hnl) as Hw;
    apply split_wf_iff in Hw as (Hsok & _ & Hnc & Hnok & _ & Hps & _);
    unfold parsed_wf; cbn [p_scheme p_netloc p_path p_params p_query p_fragment].
  - apply andb_prop in Hsplit as [Ht H59]. rewrite Ht in Hrule |- *.
    destruct (splitparams_slash _ _ _ Hsp Hps (has_nonempty _ _ H59)) as [Hps' Hne].
    assert (Hw : split_wf (Split sc nl pa q f) = true) by (apply split_wf_iff; repeat split; done).
    by rewrite Hw, Hpr, Hrule, Hne, orb_true_r.
  - assert (Hw : split_wf (Split sc nl pa0 q f) = true) by (apply split_wf_iff; repeat split; done).
    rewrite Hw. cbn [andb forallb]. destruct (in_table uses_params sc); [|done]. by rewrite Hrule.
Qed.


(** ** The resolved path *)

Lemma last_in {A} (l : list A) d : l <> [] -> In (List.last l d) l.
Proof.
  induction l as [|x l IH]; [done|]. intros _. destruct l as [|y l]; [by left|].
  right. apply IH. done.
Qed.

Lemma last_app_nonnil {A} (l m : list A) d : m <> [] -> List.last (l ++ m) d = List.last m d.
Proof.
  intros Hm. induction l as [|x l IH]; [done|]. simpl. rewrite IH.
  destruct (l ++ m) eqn:E; [|done]. apply app_eq_nil in E as [_ ->]. done.
Qed.

Section Segments.
Variable P : str -> Prop.

Lemma Forall_removelast (l : list str) : Forall P l -> Forall P (removelast l).
Proof.
  induction l as [|w l IH]; [done|]. intros [Hw Hl]%Forall_cons.
  destruct l as [|w' l]; [constructor|]. simpl. constructor; [done|]. apply IH, Hl.
Qed.

Lemma Forall_filter_middle (l : list str) : Forall P l -> Forall P (filter_middle l).
Proof.
  intros Hl. destruct l as [|x [|y rest]]; [done|done|].
  apply Forall_cons in Hl as [Hx Hr]. unfold filter_middle. cbv beta iota.
  constructor; [done|]. apply Forall_app. split.
  - apply List.Forall_forall. intros w Hw. apply filter_In in Hw as [Hw _].
    apply (proj1 (List.Forall_forall P (removelast (y :: rest)))); [by apply Forall_removelast | done].
  - constructor; [|done]. apply (proj1 (List.Forall_forall P (y :: rest)) Hr), last_in. done.
Qed.

Lemma Forall_resolve (segs acc : list str) :
  Forall P acc -> Forall P segs -> Forall P (fold_left resolve_step segs acc).
Proof.
  revert acc. induction segs as [|w segs IH]; intros acc Ha Hs; [done|].
  apply Forall_cons in Hs as [Hw Hs]. simpl. apply IH; [|done]. unfold resolve_step.
  destruct (is_dotdot w); [by apply Forall_removelast|]. destruct (is_dot w); [done|].
  apply Forall_app. by split; [|constructor].
Qed.

End Segments.

Lemma Forall_split_all (f : ascii -> bool) n s :
  forallb f s = true -> Forall (fun w => forallb f w = true) (split_all n s).
Proof.
  induction s as [|c s IH]; simpl; [by repeat constructor|]. intros [Hc Hs]%andb_prop.
  destruct (is_c n c); [constructor; [done|]; by apply IH|].
  specialize (IH Hs). destruct (split_all n s) as [|w ws] eqn:E; [by destruct (split_all_nonnil n s)|].
  apply Forall_cons in IH as [Hw Hws]. constructor; [|done]. simpl. by rewrite Hc, Hw.
Qed.

Lemma forallb_join (f : ascii -> bool) sep (l : list str) :
  f sep = true -> Forall (fun w => forallb f w = true) l -> forallb f (join sep l) = true.
Proof.
  intros Hsep. induction l as [|w l IH]; [done|]. intros [Hw Hl]%Forall_cons.
  destruct l as [|w' l]; [done|]. change (join sep (w :: w' :: l)) with (w ++ sep :: join sep (w' :: l)).
  rewrite forallb_app. simpl. rewrite Hw, Hsep. simpl. by apply IH.
Qed.

Lemma segments_Forall (P : str -> Prop) bpath path :
  Forall P (split_all 47 bpath) -> Forall P (split_all 47 path) -> Forall P (segments_of bpath path).
Proof.
  intros Hb Hp. assert (Hrel : Forall P (filter_middle (base_dir bpath ++ split_all 47 path))).
  { apply Forall_filter_middle, Forall_app. split; [|done]. unfold base_dir.
    destruct (nonempty _); [by apply Forall_removelast | done]. }
  unfold segments_of. destruct path as [|c path]; [done|]. by destruct (is_c 47 c).
Qed.

(** The resolved path is made of characters of the two paths and of
    slashes. *)
Lemma resolve_path_chars bpath path :
  forallb path_char bpath = true -> forallb path_char path = true ->
  forallb path_char (resolve_path bpath path) = true.
Proof.
  intros Hb Hp. unfold resolve_path.
  assert (Hs : Forall (fun w => forallb path_char w = true) (segments_of bpath path))
    by (apply segments_Forall; by apply Forall_split_all).
  assert (Hr : Forall (fun w => forallb path_char w = true) (fold_left resolve_step (segments_of bpath path) []))
    by (by apply Forall_resolve).
  destruct (join _ _) eqn:E; [done|]. rewrite <- E. apply forallb_join; [done|].
  destruct (_ || _); [apply Forall_app; by split; [|repeat constructor] | done].
Qed.


Lemma last_filter_middle (l : list str) : l <> [] -> List.last (filter_middle l) [] = List.last l [].
Proof.
  destruct l as [|x [|y rest]]; [done|done|]. intros _. unfold filter_middle. cbv beta iota.
  rewrite app_comm_cons, List.last_last. reflexivity.
Qed.

Lemma last_segments bpath path : List.last (segments_of bpath path) [] = last_seg path.
Proof.
  unfold last_seg.
  assert (Hrel : List.last (filter_middle (base_dir bpath ++ split_all 47 path)) [] =
                 List.last (split_all 47 path) []).
  { rewrite last_filter_middle; [apply last_app_nonnil, split_all_nonnil|].
    intros E. apply app_eq_nil in E as [_ E]. exact (split_all_nonnil 47 path E). }
  unfold segments_of. destruct path as [|c path]; [exact Hrel|]. by destruct (is_c 47 c).
Qed.

Lemma filter_middle_nonnil (l : list str) : l <> [] -> filter_middle l <> [].
Proof. by destruct l as [|x [|y rest]]. Qed.

Lemma segments_nonnil bpath path : segments_of bpath path <> [].
Proof.
  assert (Hrel : filter_middle (base_dir bpath ++ split_all 47 path) <> []).
  { apply filter_middle_nonnil. intros E. apply app_eq_nil in E as [_ E]. exact (split_all_nonnil 47 path E). }
  unfold segments_of. destruct path as [|c path]; [exact Hrel|].
  destruct (is_c 47 c); [apply split_all_nonnil | exact Hrel].
Qed.

(** The last segment of a joined list of segments without a slash. *)
Lemma last_seg_join (l : list str) :
  Forall (fun w => has 47 w = false) l -> l <> [] ->
  last_seg (match join "/"%char l with [] => ["/"%char] | p => p end) = [] \/
  last_seg (match join "/"%char l with [] => ["/"%char] | p => p end) = List.last l [].
Proof.
  intros Hl Hne. destruct (join "/"%char l) as [|c p] eqn:J; [by left|]. right.
  rewrite <- J. unfold last_seg. by rewrite split_all_join.
Qed.

Lemma resolve_step_plain acc x : is_dot x = false -> is_dotdot x = false -> resolve_step acc x = acc ++ [x].
Proof. unfold resolve_step. by intros -> ->. Qed.

(** The last segment of the resolved path is empty, or the last
    segment of the relative path. *)
Lemma last_seg_resolve bpath path :
  last_seg (resolve_path bpath path) = [] \/ last_seg (resolve_path bpath path) = last_seg path.
Proof.
  unfold resolve_path. rewrite <- (last_segments bpath path).
  pose proof (segments_nonnil bpath path) as Hne.
  assert (Hns : Forall (fun w => has 47 w = false) (segments_of bpath path))
    by (apply segments_Forall; apply split_all_no_slash).
  revert Hne Hns. generalize (segments_of bpath path). intros segs Hne Hns.
  destruct (exists_last Hne) as (init & x & ->). rewrite List.last_last, fold_left_app. cbn [fold_left].
  apply Forall_app in Hns as [Hinit Hx].
  assert (Hr : Forall (fun w => has 47 w = false) (resolve_step (fold_left resolve_step init []) x))
    by (apply (Forall_resolve _ [x]); [apply Forall_resolve | ]; done).
  destruct (is_dot x || is_dotdot x) eqn:E.
  - destruct (last_seg_join (resolve_step (fold_left resolve_step init []) x ++ [[]])) as [H|H];
      [apply Forall_app; split; [done | by repeat constructor] | by destruct (resolve_step _ _) | by left |].
    left. by rewrite H, List.last_last.
  - apply orb_false_elim in E as [Ed Edd]. rewrite resolve_step_plain in Hr |- * by done.
    destruct (last_seg_join (fold_left resolve_step init [] ++ [x])) as [H|H];
      [done | by destruct (fold_left _ _ _) | by left |].
    right. by rewrite H, List.last_last.
Qed.


(** ** [urljoin] is idempotent *)

(** [urlunsplit] puts a slash before a path that does not start with
    one when there is a netloc. *)
Definition lead_slash (p : str) : str :=
  match p with
  | [] => []
  | c :: _ => if is_c 47 c then p else "/"%char :: p
  end.

Lemma urlunparse_lead_slash sc nl pa pr q f :
  nonempty nl = true ->
  urlunparse (Parsed sc nl pa pr q f) = urlunparse (Parsed sc nl (lead_slash pa) pr q f).
Proof.
  intros Hnl. rewrite !urlunparse_split. unfold urlunsplit. rewrite Hnl. cbn [orb].
  destruct pa as [|c pa]; [done|]. unfold lead_slash. destruct (is_c 47 c) eqn:Hc; [done|].
  cbn [app]. rewrite Hc. done.
Qed.

Lemma lead_slash_facts p :
  nonempty p = true ->
  slash_start (lead_slash p) = true /\ nonempty (lead_slash p) = true /\
  last_seg (lead_slash p) = last_seg p /\ forallb path_char (lead_slash p) = forallb path_char p.
Proof.
  destruct p as [|c p]; [done|]. intros _. unfold lead_slash. destruct (is_c 47 c) eqn:Hc; [simpl; by rewrite Hc|].
  split; [done|]. split; [done|]. split; [|reflexivity].
  unfold last_seg. assert (E : split_all 47 ("/"%char :: c :: p) = [] :: split_all 47 (c :: p)) by reflexivity.
  rewrite E. destruct (split_all 47 (c :: p)) eqn:E'; [by destruct (split_all_nonnil 47 (c :: p))|].
  reflexivity.
Qed.

(** Every scheme of [uses_relative] is in [uses_netloc]. *)
Lemma relative_netloc sc : in_table uses_relative sc = true -> in_table uses_netloc sc = true.
Proof.
  unfold in_table. intros (x & Hx & Hb)%existsb_exists. apply existsb_exists. exists x. split; [|done].
  simpl in Hx |- *. tauto.
Qed.

Lemma urlunparse_nonempty p : nonempty (p_scheme p) = true -> nonempty (urlunparse p) = true.
Proof.
  destruct p as [sc nl pa pr q f]. cbn [p_scheme]. intros Hsc. rewrite urlunparse_split.
  unfold urlunsplit. rewrite Hsc. destruct sc as [|c sc]; [done|].
  by destruct (nonempty q), (nonempty f).
Qed.

Lemma scheme_ok_nonempty sc : scheme_ok sc = true -> nonempty sc = true.
Proof. by destruct sc. Qed.

Lemma parsed_wf_iff sc nl pa pr q f :
  parsed_wf (Parsed sc nl pa pr q f) = true <->
  split_wf (Split sc nl pa q f) = true /\ forallb params_char pr = true /\
  (if in_table uses_params sc
   then negb (has 59 (last_seg pa)) && (negb (nonempty pr) || nonempty pa)
   else negb (nonempty pr)) = true.
Proof. unfold parsed_wf. cbn [p_scheme p_netloc p_path p_params p_query p_fragment]. rewrite !andb_true_iff. tauto. Qed.

(** A well-formed URL with the base's scheme, a relative one, is its
    own join with the base. *)
Lemma urljoin_fixed b pb p :
  urlparse b [] = Web.Ok pb -> nonempty b = true -> parsed_wf p = true ->
  p_scheme p = p_scheme pb -> in_table uses_relative (p_scheme p) = true ->
  urljoin b (urlunparse p) = Web.Ok (urlunparse p).
Proof.
  intros Hb Hne Hwf Hsc Hrel. destruct p as [sc nl pa pr q f]. cbn [p_scheme] in Hsc, Hrel.
  pose proof Hwf as Hw. apply parsed_wf_iff in Hw as [Hs _]. apply split_wf_iff in Hs as (Hok & Hnl & _).
  unfold urljoin. rewrite Hne, urlunparse_nonempty by (apply scheme_ok_nonempty, Hok). cbn [negb].
  rewrite Hb, urlparse_urlunparse_wf by done. cbn [p_scheme p_netloc].
  rewrite Hsc, bool_decide_true, <- Hsc, Hrel by done. cbn [negb orb].
  by rewrite relative_netloc, Hnl.
Qed.


Lemma parsed_wf_parts p :
  parsed_wf p = true ->
  scheme_ok (p_scheme p) = true /\ nonempty (p_netloc p) = true /\ forallb query_char (p_query p) = true.
Proof.
  destruct p as [sc nl pa pr q f]. intros H. apply parsed_wf_iff in H as [Hs _].
  apply split_wf_iff in Hs as (? & ? & _ & _ & _ & _ & ? & _). done.
Qed.

(** The URL [urljoin] builds from the base's path and parameters. *)
Lemma wf_base_query pb q f :
  parsed_wf pb = true -> forallb query_char q = true -> forallb frag_char f = true ->
  parsed_wf (Parsed (p_scheme pb) (p_netloc pb) (p_path pb) (p_params pb) q f) = true.
Proof.
  destruct pb as [sc nl pa pr q0 f0]. cbn [p_scheme p_netloc p_path p_params].
  rewrite !parsed_wf_iff, !split_wf_iff. tauto.
Qed.

(** The URL [urljoin] builds from a resolved path. *)
Lemma wf_resolved pb pu :
  parsed_wf pb = true -> p_scheme pu = p_scheme pb ->
  forallb path_char (p_path pu) = true -> forallb params_char (p_params pu) = true ->
  forallb query_char (p_query pu) = true -> forallb frag_char (p_fragment pu) = true ->
  (if in_table uses_params (p_scheme pu) then has 59 (last_seg (p_path pu)) = false else p_params pu = []) ->
  parsed_wf (Parsed (p_scheme pb) (p_netloc pb) (lead_slash (resolve_path (p_path pb) (p_path pu)))
                    (p_params pu) (p_query pu) (p_fragment pu)) = true.
Proof.
  destruct pb as [sc nl bpa bpr bq bf], pu as [usc unl upa upr uq uf].
  cbn [p_scheme p_netloc p_path p_params p_query p_fragment]. intros Hwb -> Hpc Hpr Hq Hf Hrule.
  apply parsed_wf_iff in Hwb as [Hs _]. apply split_wf_iff in Hs as (Hsc & Hnl & Hnc & Hbok & Hbpc & _).
  assert (Hne : nonempty (resolve_path bpa upa) = true) by (unfold resolve_path; by destruct (join _ _)).
  destruct (lead_slash_facts _ Hne) as (Hs & Hn & Hl & Hc).
  apply parsed_wf_iff. split.
  { apply split_wf_iff. repeat split; try done. rewrite Hc. by apply resolve_path_chars. }
  split; [done|]. destruct (in_table uses_params sc).
  - rewrite Hl, Hn, orb_true_r, andb_true_r. apply negb_true_iff.
    by destruct (last_seg_resolve bpa upa) as [-> | ->].
  - by rewrite Hrule.
Qed.

Lemma ok_inj {A} (x y : A) : Web.Ok x = Web.Ok y -> x = y.
Proof. by intros [= ->]. Qed.

(** A base that [urljoin] returns unchanged: it parses with a scheme
    and a netloc, and [urlunparse] gives it back. *)
Definition base_ok (b : str) : bool :=
  match urlparse b [] with
  | Web.Ok p => nonempty (p_scheme p) && nonempty (p_netloc p) && bool_decide (urlunparse p = b)
  | Web.Raise _ => false
  end.

(** C32. [urljoin] is idempotent: for a base that parses with a
    scheme and a netloc and that [urlunparse] gives back (such as
    [BASE_URL]), joining the result of a join with the base again
    gives the same URL. The resolved URL is in the form
    [urlunparse(urlparse(...))], which [urlparse] reads back. *)
Theorem urljoin_idempotent b u r :
  base_ok b = true -> urljoin b u = Web.Ok r -> urljoin b r = Web.Ok r.
Proof.
  unfold base_ok. destruct (urlparse b []) as [pb|e] eqn:Hb; [|done].
  intros [[Hsc Hnl]%andb_prop Hfix%bool_decide_eq_true]%andb_prop Hj.
  assert (Hwb : parsed_wf pb = true) by (apply (urlparse_wf b [] pb); auto).
  destruct (parsed_wf_parts _ Hwb) as [Hok _].
  assert (Hne : nonempty b = true) by (rewrite <- Hfix; by apply urlunparse_nonempty).
  pose proof Hj as Hj0. unfold urljoin in Hj. rewrite Hne in Hj. cbn [negb] in Hj.
  destruct (nonempty u) eqn:Hu; cbn [negb] in Hj.
  2:{ injection Hj as <-.
      assert (Hb2 : urlparse b (p_scheme pb) = Web.Ok pb)
        by (rewrite <- Hfix at 1; by apply urlparse_urlunparse_wf).
      destruct (in_table uses_relative (p_scheme pb)) eqn:Hrel.
      - rewrite <- Hfix at 2 3. by apply (urljoin_fixed _ pb).
      - unfold urljoin. rewrite Hne, Hb, Hb2, bool_decide_true, Hrel by done. done. }
  rewrite Hb in Hj. destruct (urlparse u (p_scheme pb)) as [pu|e] eqn:Hu'; [|done].
  destruct (urlparse_parts _ _ _ Hu') as (Hpc & Hpr & Hq & Hf & Hrule).
  destruct (negb (bool_decide (p_scheme pu = p_scheme pb)) || negb (in_table uses_relative (p_scheme pu))) eqn:Hbr.
  { injection Hj as <-. exact Hj0. }
  apply orb_false_elim in Hbr as [Heq Hrel]. apply negb_false_iff in Heq, Hrel. apply bool_decide_eq_true in Heq.
  destruct (in_table uses_netloc (p_scheme pu) && nonempty (p_netloc pu)) eqn:Hnb.
  { apply ok_inj in Hj. subst r. apply andb_prop in Hnb as [_ Hnlu]. apply (urljoin_fixed _ pb); try done.
    apply (urlparse_wf u (p_scheme pb)); auto. rewrite Heq. by apply scheme_ok_nonempty. }
  rewrite (relative_netloc _ Hrel) in Hj. rewrite Heq in Hj, Hrel, Hrule.
  destruct (negb (nonempty (p_path pu)) && negb (nonempty (p_params pu))); apply ok_inj in Hj; subst r.
  - apply (urljoin_fixed _ pb); try done. apply wf_base_query; [done | |done].
    destruct (nonempty (p_query pu)); [done|]. exact (proj2 (proj2 (parsed_wf_parts _ Hwb))).
  - rewrite urlunparse_lead_slash by done. apply (urljoin_fixed _ pb); try done.
    apply wf_resolved; try done. by rewrite Heq.
Qed.


(** ** Theorems on the parser *)

(** C33. Round trip: reparsing the [urlunparse] of what [urlparse]
    returned for a URL with a scheme and a netloc gives the same six
    components, whatever the default scheme. *)
Theorem urlparse_roundtrip s d p d' :
  urlparse s d = Web.Ok p -> d = [] \/ scheme_ok d = true ->
  nonempty (p_scheme p) = true -> nonempty (p_netloc p) = true ->
  urlparse (urlunparse p) d' = Web.Ok p.
Proof. intros Hp Hd Hs Hn. apply urlparse_urlunparse_wf. exact (urlparse_wf s d p Hp Hd Hs Hn). Qed.

Lemma split_scheme_slash url sch : slash_start url = true -> split_scheme url sch = (sch, url).
Proof.
  unfold split_scheme. destruct url as [|c u]; [done|]. cbn [slash_start]. intros Hc.
  assert (Ha : is_ascii_alpha c = false).
  { unfold is_c, code in Hc. apply Nat.eqb_eq in Hc. unfold is_ascii_alpha, code. rewrite Hc. done. }
  cbv beta iota. destruct (find 58 (c :: u)) as [[|i]|]; [done | by rewrite Ha | done].
Qed.

(** C35. An href [//host] whose host has a [[] without a []] (or the
    reverse) makes [urljoin] raise [ValueError("Invalid IPv6 URL")],
    whatever the base. *)
Theorem urljoin_unmatched_bracket b pb n :
  urlparse b [] = Web.Ok pb -> nonempty b = true ->
  forallb (fun c => negb (netloc_delim c) && negb (unsafe_byte c)) n = true ->
  xorb (has 91 n) (has 93 n) = true ->
  urljoin b ("/"%char :: "/"%char :: n) = Web.Raise Web.ValueError.
Proof.
  intros Hb Hne Hn Hx. unfold urljoin. rewrite Hne, Hb. cbn [negb nonempty].
  unfold urlparse, urlsplit. rewrite lstrip_c0_keep by reflexivity.
  rewrite remove_unsafe_id.
  2:{ cbn [forallb]. apply (forallb_mono (fun c => negb (netloc_delim c) && negb (unsafe_byte c))); [|exact Hn].
      intros c [_ Hc]%andb_prop. exact Hc. }
  rewrite split_scheme_slash by reflexivity. unfold split_netloc.
  replace (is_c 47 "/"%char) with true by reflexivity. cbn [andb].
  assert (Hs : span_netloc n = (n, [])).
  { rewrite <- (app_nil_r n) at 1. apply span_netloc_app; [|done].
    apply (forallb_mono (fun c => negb (netloc_delim c) && negb (unsafe_byte c))); [|exact Hn].
    intros c [Hc _]%andb_prop. exact Hc. }
  rewrite Hs. cbv beta iota. unfold check_netloc.
  by destruct (has 91 n), (has 93 n).
Qed.

(** ** The only exception of [urljoin] *)

(** Every check of the netloc raises [ValueError] and nothing else. *)
Local Ltac only_value_error := repeat case_match; intros Hr; simplify_eq; try done.

Lemma check_bracketed_netloc_raises nl e : check_bracketed_netloc nl = Web.Raise e -> e = Web.ValueError.
Proof. unfold check_bracketed_netloc, check_bracketed_host. only_value_error. Qed.

Lemma check_netloc_raises nl e : check_netloc nl = Web.Raise e -> e = Web.ValueError.
Proof.
  unfold check_netloc, checknetloc. only_value_error.
  all: by apply (check_bracketed_netloc_raises nl).
Qed.

Lemma urlparse_raises u d e : urlparse u d = Web.Raise e -> e = Web.ValueError.
Proof.
  unfold urlparse, urlsplit. repeat case_match; intros Hr; simplify_eq; try done.
  all: eapply check_netloc_raises; eassumption.
Qed.



(** Bracketed hosts against [BASE_URL]. An IPv6 address with a
    port, a scope or an IPv4 suffix, a user before it, and an
    IPvFuture literal are kept. An IPv4 address in brackets, text
    before the bracket or between the bracket and the port, and a
    malformed IPvFuture literal raise [ValueError]. A Latin-1 host is
    kept, even one that NFKC changes ([½]). *)
Example urljoin_bracketed_hosts :
  let B := "https://forum.freecad.org"%string in
  urljoin_str B "//[::1]:8080/x" = Web.Ok "https://[::1]:8080/x"%string /\
  urljoin_str B "//[fe80::1%25eth0]/t" = Web.Ok "https://[fe80::1%25eth0]/t"%string /\
  urljoin_str B "//[::ffff:1.2.3.4]/" = Web.Ok "https://[::ffff:1.2.3.4]/"%string /\
  urljoin_str B "//user@[::1]/t" = Web.Ok "https://user@[::1]/t"%string /\
  urljoin_str B "//[v1.fe]/t" = Web.Ok "https://[v1.fe]/t"%string /\
  urljoin_str B "//[127.0.0.1]/t" = Web.Raise Web.ValueError /\
  urljoin_str B "//a[::1]/t" = Web.Raise Web.ValueError /\
  urljoin_str B "//[::1]x/t" = Web.Raise Web.ValueError /\
  urljoin_str B "//[v.x]/" = Web.Raise Web.ValueError /\
  urljoin_str B ("//" ++ String (ascii_of_nat 189) ".org/t") =
    Web.Ok ("https://" ++ String (ascii_of_nat 189) ".org/t")%string.
Proof. vm_compute. repeat split. Qed.

(** The hrefs of phpBB pages against [BASE_URL]: a [./] path is
    put under the root, a fragment is kept after the bare host, dot
    segments above the root are dropped, and an absolute URL of the
    same scheme and host comes back as it is. *)
Example urljoin_phpbb_links :
  urljoin_str "https://forum.freecad.org" "./viewtopic.php?t=5&start=10" =
    Web.Ok "https://forum.freecad.org/viewtopic.php?t=5&start=10"%string /\
  urljoin_str "https://forum.freecad.org" "./viewforum.php?f=3&start=25" =
    Web.Ok "https://forum.freecad.org/viewforum.php?f=3&start=25"%string /\
  urljoin_str "https://forum.freecad.org" "#p1" = Web.Ok "https://forum.freecad.org#p1"%string /\
  urljoin_str "https://forum.freecad.org" "../../memberlist.php" =
    Web.Ok "https://forum.freecad.org/memberlist.php"%string /\
  urljoin_str "https://forum.freecad.org" "https://forum.freecad.org/viewtopic.php?p=1#p1" =
    Web.Ok "https://forum.freecad.org/viewtopic.php?p=1#p1"%string.
Proof. vm_compute. repeat split. Qed.

Definition sample_url : str := L "HTTPS://forum.freecad.org/viewtopic.php;x?t=5#p1".

Definition sample_parsed : parsed :=
  Parsed (L "https") (L "forum.freecad.org") (L "/viewtopic.php") (L "x") (L "t=5") (L "p1").

Lemma urlparse_roundtrip_witness :
  urlparse sample_url [] = Web.Ok sample_parsed /\
  urlparse (urlunparse sample_parsed) [] = Web.Ok sample_parsed.
Proof.
  assert (H : urlparse sample_url [] = Web.Ok sample_parsed) by (vm_compute; reflexivity).
  split; [exact H|]. exact (urlparse_roundtrip sample_url [] sample_parsed [] H (or_introl eq_refl) eq_refl eq_refl).
Defined.

Lemma urljoin_idempotent_witness :
  base_ok (L "https://forum.freecad.org") = true /\
  urljoin (L "https://forum.freecad.org") (L "./a/../viewtopic.php?t=1") = Web.Ok (L "https://forum.freecad.org/viewtopic.php?t=1") /\
  urljoin (L "https://forum.freecad.org") (L "https://forum.freecad.org/viewtopic.php?t=1") =
    Web.Ok (L "https://forum.freecad.org/viewtopic.php?t=1").
Proof.
  assert (Hb : base_ok (L "https://forum.freecad.org") = true) by (vm_compute; reflexivity).
  assert (Hj : urljoin (L "https://forum.freecad.org") (L "./a/../viewtopic.php?t=1") =
               Web.Ok (L "https://forum.freecad.org/viewtopic.php?t=1")) by (vm_compute; reflexivity).
  split; [exact Hb|]. split; [exact Hj|]. exact (urljoin_idempotent _ _ _ Hb Hj).
Defined.

Lemma urljoin_unmatched_bracket_witness :
  let pb := Parsed (L "https") (L "forum.freecad.org") [] [] [] [] in
  urlparse (L "https://forum.freecad.org") [] = Web.Ok pb /\
  urljoin (L "https://forum.freecad.org") (L "//[oops") = Web.Raise Web.ValueError.
Proof.
  intros pb. assert (Hb : urlparse (L "https://forum.freecad.org") [] = Web.Ok pb) by (vm_compute; reflexivity).
  split; [exact Hb|].
  exact (urljoin_unmatched_bracket _ pb (L "[oops") Hb eq_refl eq_refl eq_refl).
Defined.


(** ** When [urljoin] returns *)

(** An ASCII character other than a bracket. *)
Definition plain_char (c : ascii) : bool := negb (is_c 91 c) && negb (is_c 93 c).

Lemma incl_lstrip_c0 s : incl (lstrip_c0 s) s.
Proof.
  induction s as [|c s IH]; simpl; [apply incl_refl|].
  destruct (c0_or_space c); [intros x Hx; right; by apply IH | apply incl_refl].
Qed.

Lemma incl_remove_unsafe s : incl (remove_unsafe s) s.
Proof. intros x Hx. unfold remove_unsafe in Hx. by apply filter_In in Hx as [Hx _]. Qed.

(** [urlsplit] raises only from the netloc checks, so never on a text
    of plain characters. *)
Lemma urlsplit_plain s d : forallb plain_char s = true -> exists c, urlsplit s d = Web.Ok c.
Proof.
  intros Hs. unfold urlsplit.
  destruct (split_scheme (remove_unsafe (lstrip_c0 s)) (remove_unsafe (strip_c0 d))) as [sc u1] eqn:Hss.
  destruct (split_netloc u1) as [nl u2] eqn:Hsn.
  assert (Hin : forall x, In x nl -> plain_char x = true).
  { intros x Hx. apply (forallb_In _ s x Hs). apply incl_lstrip_c0, incl_remove_unsafe.
    apply (split_scheme_incl _ _ _ _ Hss), (proj1 (split_netloc_incl _ _ _ Hsn)), Hx. }
  assert (Hpl : forall x, In x nl -> is_c 91 x = false /\ is_c 93 x = false).
  { intros x Hx. pose proof (Hin x Hx) as Hp. unfold plain_char in Hp.
    apply andb_prop in Hp as [H91 H93]. apply negb_true_iff in H91, H93. done. }
  unfold check_netloc.
  rewrite (has_false_In 91 nl), (has_false_In 93 nl) by (intros x Hx; apply Hpl, Hx). cbn [andb orb negb].
  rewrite checknetloc_no_slash by exact (split_netloc_no_slash _ _ _ Hsn).
  destruct (cut 35 u2) as [u3 f]. destruct (cut 63 u3) as [pa q]. by eexists.
Qed.

Lemma urlparse_plain s d : forallb plain_char s = true -> exists p, urlparse s d = Web.Ok p.
Proof.
  intros Hs. unfold urlparse. destruct (urlsplit_plain s d Hs) as [[sc nl pa q f] ->].
  destruct (_ && _); [destruct (splitparams pa)|]; by eexists.
Qed.

(** C37. [urljoin] returns a URL, and raises nothing, when neither the
    base nor the href holds a bracket: the bracket checks of [urlsplit]
    are its only failures, since its NFKC check never fires on a netloc
    of 8-bit characters. *)
Theorem urljoin_plain_total b u :
  forallb plain_char b = true -> forallb plain_char u = true -> exists r, urljoin b u = Web.Ok r.
Proof.
  intros Hb Hu. unfold urljoin.
  destruct (nonempty b), (nonempty u); cbn [negb]; try by eexists.
  destruct (urlparse_plain b [] Hb) as [pb ->]. destruct (urlparse_plain u (p_scheme pb) Hu) as [pu ->].
  destruct (_ || _); [by eexists|]. destruct (_ && _); [by eexists|]. destruct (_ && _); by eexists.
Qed.

Lemma urljoin_plain_total_witness :
  forallb plain_char (L "https://forum.freecad.org") = true /\
  forallb plain_char (L "./viewtopic.php?f=3&t=7;x#p2") = true /\
  exists r, urljoin (L "https://forum.freecad.org") (L "./viewtopic.php?f=3&t=7;x#p2") = Web.Ok r.
Proof.
  assert (Hb : forallb plain_char (L "https://forum.freecad.org") = true) by reflexivity.
  assert (Hu : forallb plain_char (L "./viewtopic.php?f=3&t=7;x#p2") = true) by reflexivity.
  split; [exact Hb|]. split; [exact Hu|]. exact (urljoin_plain_total _ _ Hb Hu).
Defined.

End UrlParse.
