(* ===== verification/Extract.v ===== *)
(** * Page extraction: [parse_subforum_page] and [parse_topic]

    Each page parser fetches one page with [get_soup] and extracts its
    records and the URL of its next page. The subforum parser yields
    (title, url) pairs. The topic parser yields post dicts with an
    author, a date and a content, each with a fallback string when its
    element is missing. Both parsers resolve hrefs with
    [urllib.parse.urljoin] against [BASE_URL], which can raise: an
    extraction is a [Web.outcome]. The class [UrlJoin] states what the
    extractors use of [urljoin] on two strings; [py_urljoin] is
    Python's, from [UrlParse]. The call [urljoin(BASE_URL, None)] for an
    anchor without [href] returns [BASE_URL] before any parsing, and is
    modelled in [urljoin]. *)

From S2P Require Import Prelude Dom Web UrlParse.
Import Web.Notations.
Local Open Scope crawl_scope.

(** [urllib.parse.urljoin(base, url)] on two strings. *)
Class UrlJoin := { urljoin_rel : string -> string -> Web.outcome string }.

(** Python's [urljoin], translated in [UrlParse]. *)
Definition py_urljoin : UrlJoin := {| urljoin_rel := UrlParse.urljoin_str |}.

(** What the pagination loop needs of a page parser: the records of a
    fetched page and its next link, or the exception the extraction
    raises. Both parsers of the code are a [get_soup] followed by such
    an extraction ([parse_page]). *)
Class PageExtractor (T : Type) :=
  { extract_page : Dom.soup -> Web.outcome (list T * option string) }.

Definition parse_page `{PageExtractor T} (url : string) : Web.IO (list T * option string) :=
  soup <- Web.get_soup url ;;
  Web.lift (extract_page soup).

(** The outcome of [parse_page] on a site: the fetch, then the
    extraction. *)
Definition load_page `{PageExtractor T} (site : string -> Web.fetch_result) (url : string)
    : Web.outcome (list T * option string) :=
  match Web.fetch_page site url with
  | Web.Ok soup => extract_page soup
  | Web.Raise e => Web.Raise e
  end.

Lemma bind_parse_page `{PageExtractor T} {B} url (k : list T * option string -> Web.IO B) w :
  Web.bind (parse_page url) k w =
  match load_page (Web.w_site w) url with
  | Web.Ok p => k p (Web.with_log w [Web.EvGet url])
  | Web.Raise e => (Web.Raise e, Web.with_log w [Web.EvGet url])
  end.
Proof.
  unfold parse_page, load_page. rewrite Web.bind_assoc, Web.bind_get_soup.
  destruct (Web.fetch_page _ _); [|done]. unfold Web.bind, Web.lift. by destruct (extract_page _).
Qed.

(** Parsing a page makes its one request and touches no file. *)
Lemma footprint_parse_page `{PageExtractor T} P path url :
  P (Web.EvGet url) -> Web.footprint P path (parse_page url).
Proof. intros Hev. unfold parse_page. auto with footprint. Qed.

Module Extract.
Section WithUrlJoin.
Context `{UrlJoin}.

(** [urllib.parse.urljoin(BASE_URL, link.get("href"))]: an anchor
    without [href] gives [None], and [urljoin] starts with
    [if not base: return url] and [if not url: return base]. *)
Definition urljoin (base : string) (url : option string) : Web.outcome (option string) :=
  match url with
  | None => if String.eqb base "" then Web.Ok None else Web.Ok (Some base)
  | Some u =>
      match urljoin_rel base u with
      | Web.Ok r => Web.Ok (Some r)
      | Web.Raise e => Web.Raise e
      end
  end.

Definition BASE_URL : string := "https://forum.freecad.org".
Definition SUBFORUM_URL : string := "https://forum.freecad.org/viewforum.php?f=3".

Definition sel_tag (t : string) (classes : list string) : Dom.compound :=
Dom.Compound (Some t) classes [].

(** ["ul.topiclist.topics li dl dt a.topictitle"] *)
Definition topic_selector : Dom.selector :=
[sel_tag "ul" ["topiclist"; "topics"]; sel_tag "li" []; sel_tag "dl" [];
 sel_tag "dt" []; sel_tag "a" ["topictitle"]].

(** ["a[rel='next']"] *)
Definition next_selector : Dom.selector := [Dom.Compound (Some "a") [] [("rel", "next")]].

(** ["div.post"], [".username"], [".author"], [".content"] *)
Definition post_selector : Dom.selector := [sel_tag "div" ["post"]].
Definition class_selector (c : string) : Dom.selector := [Dom.Compound None [c] []].

(** A topic of the listing: [(topic_title, topic_url)]. *)
Definition topic : Type := string * option string.

(** A post dict [{"author": ..., "date": ..., "content": ...}]. *)
Record post := Post { author : string; date : string; content : string }.

(** The next-page link of a page, resolved against [BASE_URL]. *)
Definition next_link (soup : Dom.soup) : Web.outcome (option string) :=
match Dom.select_one next_selector soup with
| Some l => urljoin BASE_URL (Dom.get l "href")
| None => Web.Ok None
end.

Definition topic_of_link (link : Dom.node) : Web.outcome topic :=
match urljoin BASE_URL (Dom.get link "href") with
| Web.Ok topic_url => Web.Ok (Py.strip (Dom.text link), topic_url)
| Web.Raise e => Web.Raise e
end.

(** The loop over the topic rows: a link whose href [urljoin] refuses
    raises out of it. *)
Fixpoint topics_of (links : list Dom.node) : Web.outcome (list topic) :=
match links with
| [] => Web.Ok []
| link :: rest =>
    match topic_of_link link with
    | Web.Raise e => Web.Raise e
    | Web.Ok t =>
        match topics_of rest with
        | Web.Ok ts => Web.Ok (t :: ts)
        | Web.Raise e => Web.Raise e
        end
    end
end.

Definition subforum_records (soup : Dom.soup) : Web.outcome (list topic) :=
topics_of (Dom.select topic_selector soup).

(** The topics of a listing page, then its next link. *)
Definition subforum_page (soup : Dom.soup) : Web.outcome (list topic * option string) :=
match subforum_records soup with
| Web.Raise e => Web.Raise e
| Web.Ok topics =>
    match next_link soup with
    | Web.Ok next => Web.Ok (topics, next)
    | Web.Raise e => Web.Raise e
    end
end.

(** [parse_subforum_page(subforum_url)]. *)
Definition parse_subforum_page (url : string) : Web.IO (list topic * option string) :=
soup <- Web.get_soup url ;;
Web.lift (subforum_page soup).

(** The text of the first descendant with class [c], or [fallback]. *)
Definition field (c fallback : string) (post_div : Dom.node) : string :=
match Dom.select_one_in (class_selector c) post_div with
| Some e => Dom.get_text_strip e
| None => fallback
end.

Definition extract_post (post_div : Dom.node) : post :=
{| author := field "username" "Unknown" post_div;
   date := field "author" "Unknown" post_div;
   content := field "content" "No content" post_div |}.

Definition topic_records (soup : Dom.soup) : list post :=
map extract_post (Dom.select post_selector soup).

(** The posts of a topic page, then its next link. *)
Definition topic_page (soup : Dom.soup) : Web.outcome (list post * option string) :=
match next_link soup with
| Web.Ok next => Web.Ok (topic_records soup, next)
| Web.Raise e => Web.Raise e
end.

(** [parse_topic(topic_url)]. *)
Definition parse_topic (url : string) : Web.IO (list post * option string) :=
soup <- Web.get_soup url ;;
Web.lift (topic_page soup).

#[global] Instance subforum_extractor : PageExtractor topic := {| extract_page := subforum_page |}.

#[global] Instance thread_extractor : PageExtractor post := {| extract_page := topic_page |}.

Lemma parse_subforum_page_parse_page url : parse_subforum_page url = parse_page url.
Proof. reflexivity. Qed.

Lemma parse_topic_parse_page url : parse_topic url = parse_page url.
Proof. reflexivity. Qed.

Lemma field_classless (c fallback t : string) attrs kids :
  Forall (fun k => Dom.classless k = true) kids ->
  field c fallback (Dom.Elem t attrs kids) = fallback.
Proof.
  intros Hk. unfold field, Dom.select_one_in, class_selector.
  generalize [Dom.Elem t attrs kids] as a. intros a.
  induction kids as [|k kids IH]; [done|]. apply Forall_cons in Hk as [Hk1 Hk2]. simpl.
  rewrite (Dom.sel_nodes_classless _ c a k); [by apply IH | by left | exact Hk1].
Qed.

(** C18. Fallbacks: a post container with no classed element under it
    (no [.username], [.author] or [.content]) gives the post
    [{"author": "Unknown", "date": "Unknown", "content": "No content"}];
    extraction does not fail. *)
Theorem extract_post_fallbacks (t : string) attrs kids :
  Forall (fun k => Dom.classless k = true) kids ->
  extract_post (Dom.Elem t attrs kids) = Post "Unknown" "Unknown" "No content".
Proof. intros Hk. unfold extract_post. by rewrite !field_classless. Qed.

(** C19. A next anchor without [href]: [urljoin(BASE_URL, None)]
    returns [BASE_URL], so the next page is the forum's front page,
    not the end of the chain. The spec treats only a missing anchor as
    the end. *)
Theorem next_link_without_href (soup : Dom.soup) attrs kids :
  Dom.select_one next_selector soup = Some (Dom.Elem "a" attrs kids) ->
  Dom.assoc "href" attrs = None ->
  next_link soup = Web.Ok (Some BASE_URL).
Proof. intros Hs Hh. unfold next_link. rewrite Hs. simpl. by rewrite Hh. Qed.

Lemma urljoin_raises base url e :
  urljoin base url = Web.Raise e -> exists h, url = Some h /\ urljoin_rel base h = Web.Raise e.
Proof.
  unfold urljoin. destruct url as [h|]; [|by destruct (String.eqb base "")].
  destruct (urljoin_rel base h) eqn:E; [done|]. intros [= <-]. by exists h.
Qed.

Lemma topics_of_raises links e :
  topics_of links = Web.Raise e ->
  exists l, In l links /\ urljoin BASE_URL (Dom.get l "href") = Web.Raise e.
Proof.
  induction links as [|l links IH]; simpl; [done|]. unfold topic_of_link at 1.
  destruct (urljoin BASE_URL (Dom.get l "href")) as [u|e'] eqn:E.
  - destruct (topics_of links) as [ts|e'']; [done|]. intros [= <-].
    destruct (IH eq_refl) as (l' & Hin & Hl'). exists l'. split; [by right | done].
  - intros [= <-]. exists l. split; [by left | done].
Qed.

(** C40. The extractors fail only in [urljoin]: when the extraction of
    a listing page raises, the href of one of its topic rows or of its
    next anchor is one [urljoin] raises on, with the same exception;
    the extraction of a topic page raises only on the href of its next
    anchor. Missing elements never raise. *)
Theorem extraction_raises_only_in_urljoin soup e :
  (subforum_page soup = Web.Raise e ->
   exists l h, (In l (Dom.select topic_selector soup) \/ Dom.select_one next_selector soup = Some l) /\
     Dom.get l "href" = Some h /\ urljoin_rel BASE_URL h = Web.Raise e) /\
  (topic_page soup = Web.Raise e ->
   exists l h, Dom.select_one next_selector soup = Some l /\
     Dom.get l "href" = Some h /\ urljoin_rel BASE_URL h = Web.Raise e).
Proof.
  assert (Hnext : next_link soup = Web.Raise e ->
    exists l h, Dom.select_one next_selector soup = Some l /\
      Dom.get l "href" = Some h /\ urljoin_rel BASE_URL h = Web.Raise e).
  { unfold next_link. destruct (Dom.select_one next_selector soup) as [l|]; [|done].
    intros (h & Hh & Hj)%urljoin_raises. by exists l, h. }
  split.
  - unfold subforum_page, subforum_records. destruct (topics_of _) as [ts|e'] eqn:Ht.
    + destruct (next_link soup) as [n|e'] eqn:Hn; [done|]. intros [= <-].
      destruct (Hnext eq_refl) as (l & h & Hs & Hh & Hj). exists l, h. by split; [right|].
    + intros [= <-]. destruct (topics_of_raises _ _ Ht) as (l & Hin & Hj).
      destruct (urljoin_raises _ _ _ Hj) as (h & Hh & Hr). exists l, h. by split; [left|].
  - unfold topic_page. destruct (next_link soup) as [n|e'] eqn:Hn; [done|]. intros [= <-]. by apply Hnext.
Qed.

End WithUrlJoin.

(** Fields are independent: a container with only a [.content]
    element keeps its content, stripped, and falls back on the two
    other fields. *)
Example extract_post_only_content :
  extract_post (Dom.Elem "div" [("class", "post")]
                  [Dom.Elem "div" [("class", "content")] [Dom.Text "  Works for me.  "]]) =
  Post "Unknown" "Unknown" "Works for me.".
Proof. vm_compute. reflexivity. Qed.


Lemma extract_post_fallbacks_witness :
  Forall (fun k => Dom.classless k = true) [Dom.Text "x"; Dom.Elem "b" [] [Dom.Text "y"]] /\
  extract_post (Dom.Elem "div" [("class", "post")] [Dom.Text "x"; Dom.Elem "b" [] [Dom.Text "y"]]) =
    Post "Unknown" "Unknown" "No content".
Proof.
  assert (H : Forall (fun k => Dom.classless k = true) [Dom.Text "x"; Dom.Elem "b" [] [Dom.Text "y"]]).
  { apply List.Forall_cons; [reflexivity|]. apply List.Forall_cons; [reflexivity | apply List.Forall_nil]. }
  split; [exact H | exact (extract_post_fallbacks _ _ _ H)].
Defined.

Lemma next_link_without_href_witness :
  @next_link py_urljoin [Dom.Elem "a" [("rel", "next")] [Dom.Text "Next"]] = Web.Ok (Some BASE_URL).
Proof. apply next_link_without_href with (attrs := [("rel", "next")]) (kids := [Dom.Text "Next"]); reflexivity. Defined.

(** A listing page with a topic row linking to [//[oops]. *)
Definition bad_listing : Dom.soup :=
  [Dom.Elem "ul" [("class", "topiclist topics")]
     [Dom.Elem "li" [("class", "row")]
        [Dom.Elem "dl" []
           [Dom.Elem "dt" [] [Dom.Elem "a" [("href", "//[oops"); ("class", "topictitle")] [Dom.Text "Bad"]]]]]].

Lemma extraction_raises_only_in_urljoin_witness :
  @subforum_page py_urljoin bad_listing = Web.Raise Web.ValueError /\
  exists l h, (In l (Dom.select topic_selector bad_listing) \/ Dom.select_one next_selector bad_listing = Some l) /\
    Dom.get l "href" = Some h /\ @urljoin_rel py_urljoin BASE_URL h = Web.Raise Web.ValueError.
Proof.
  assert (H : @subforum_page py_urljoin bad_listing = Web.Raise Web.ValueError) by (vm_compute; reflexivity).
  split; [exact H|]. exact (proj1 (@extraction_raises_only_in_urljoin py_urljoin bad_listing Web.ValueError) H).
Defined.

End Extract.
