(* ===== verification/Fixtures.v ===== *)
(** * Concrete pages and sites for the scenarios and the witnesses

    phpBB markup as BeautifulSoup parses it: listing pages with topic
    rows and a [rel="next"] anchor, and thread pages with [div.post]
    containers. The scenarios resolve hrefs with Python's [urljoin]
    ([py_urljoin]), so a relative href [t1] is the page
    [https://forum.freecad.org/t1]. *)

From S2P Require Import Prelude Dom Web Extract.

Module Fixtures.

#[export] Existing Instance py_urljoin.

Definition next_anchor (next : option string) : list Dom.node :=
  match next with
  | Some h => [Dom.Elem "a" [("class", "button"); ("rel", "next"); ("href", h)] [Dom.Text "Next"]]
  | None => []
  end.

(** A listing page: one [li] row per (title, href), then the
    pagination anchor. *)
Definition listing_page (topics : list (string * string)) (next : option string) : Dom.soup :=
  [Dom.Elem "ul" [("class", "topiclist topics")]
     (map (fun '(t, h) =>
             Dom.Elem "li" [("class", "row")]
               [Dom.Elem "dl" []
                  [Dom.Elem "dt" []
                     [Dom.Elem "a" [("href", h); ("class", "topictitle")] [Dom.Text t]]]])
        topics)] ++ next_anchor next.

(** A post container with its author, date line and content. *)
Definition post_div (user date body : string) : Dom.node :=
  Dom.Elem "div" [("class", "post bg2")]
    [Dom.Elem "p" [("class", "author")]
       [Dom.Text "by "; Dom.Elem "strong" [] [Dom.Elem "a" [("class", "username")] [Dom.Text user]];
        Dom.Text (" - " ++ date)%string];
     Dom.Elem "div" [("class", "content")] [Dom.Text body]].

Definition thread_page (posts : list Dom.node) (next : option string) : Dom.soup :=
  posts ++ next_anchor next.

(** A site from a table of pages; other URLs answer 404. *)
Fixpoint site_of (pages : list (string * Web.fetch_result)) (url : string) : Web.fetch_result :=
  match pages with
  | [] => Web.Response 404 []
  | (u, r) :: pages' => if String.eqb u url then r else site_of pages' url
  end.

(** The working directory of the scenarios. *)
Definition RUN_DIR : string := "/home/user/crawler".

(** A world at [RUN_DIR] whose [collected_forum_data] directory exists
    and holds no file. *)
Definition world_of (pages : list (string * Web.fetch_result)) : Web.world :=
  Web.World (site_of pages) [] RUN_DIR {["/home/user/crawler/collected_forum_data"]} ∅.

Definition ok (s : Dom.soup) : Web.fetch_result := Web.Response 200 s.

(** The scenario of the spec: three listing pages of two topics. *)
Definition listing_site : list (string * Web.fetch_result) :=
  [(Extract.SUBFORUM_URL,
    ok (listing_page [("Topic 1", "t1"); ("Topic 2", "t2")] (Some "p2")));
   ("https://forum.freecad.org/p2",
    ok (listing_page [("Topic 3", "t3"); ("Topic 4", "t4")] (Some "p3")));
   ("https://forum.freecad.org/p3",
    ok (listing_page [("Topic 5", "t5"); ("Topic 6", "t6")] None))].

Definition topic_ref (n : string) : Extract.topic :=
  (("Topic " ++ n)%string, Some ("https://forum.freecad.org/t" ++ n)%string).

(** A topic whose second page answers 500. *)
Definition failing_topic_site : list (string * Web.fetch_result) :=
  [("https://forum.freecad.org/t1",
    ok (thread_page [post_div "alice" "Fri Sep 30" "hello"] (Some "t1p2")));
   ("https://forum.freecad.org/t1p2", Web.Response 500 [])].

(** A forum of one listing page with two topics of one page each. *)
Definition forum_site : list (string * Web.fetch_result) :=
  [(Extract.SUBFORUM_URL,
    ok (listing_page [("Topic 1", "t1"); ("Topic 2", "t2")] None));
   ("https://forum.freecad.org/t1",
    ok (thread_page [post_div "alice" "Fri Sep 30" "hello"] None));
   ("https://forum.freecad.org/t2",
    ok (thread_page [post_div "bob" "Sat Oct 1" "hi"; post_div "carol" "Sun Oct 2" "bye"] None))].

(** The same forum whose second topic answers 503. *)
Definition forum_site_503 : list (string * Web.fetch_result) :=
  [(Extract.SUBFORUM_URL,
    ok (listing_page [("Topic 1", "t1"); ("Topic 2", "t2"); ("Topic 3", "t3")] None));
   ("https://forum.freecad.org/t1",
    ok (thread_page [post_div "alice" "Fri Sep 30" "hello"] None));
   ("https://forum.freecad.org/t2", Web.Response 503 []);
   ("https://forum.freecad.org/t3",
    ok (thread_page [post_div "dave" "Mon Oct 3" "late"] None))].

(** A listing whose second topic row links to [//[oops], a host with
    an unmatched bracket. *)
Definition bad_href_site : list (string * Web.fetch_result) :=
  [(Extract.SUBFORUM_URL,
    ok (listing_page [("Topic 1", "t1"); ("Bad link", "//[oops")] None));
   ("https://forum.freecad.org/t1",
    ok (thread_page [post_div "alice" "Fri Sep 30" "hello"] None))].

(** A listing page linking to itself. *)
Definition cyclic_site : list (string * Web.fetch_result) :=
  [(Extract.SUBFORUM_URL,
    ok (listing_page [("Loop", "t1")] (Some "https://forum.freecad.org/viewforum.php?f=3")))].

End Fixtures.
