(* ===== verification/Paginate.v ===== *)
(** * The pagination loop: [scrape_subforum] and [scrape_topic]

    The two functions of [src/net_spider.py] are one loop with a
    different page parser:
<<
    while page_url and pages_scraped < max_pages:
        records, next_page = parse(page_url)
        all_records.extend(records)
        page_url = next_page
        pages_scraped += 1
        time.sleep(delay)
    return all_records
>>
    [scrape_loop] translates it over any parser, with fuel. The fuel
    [Z.to_nat max_pages] is exactly the number of iterations the
    guard allows; the loop runs with one more, so that the guard ends
    it. [page_chain] is the reference semantics: the pages
    reached by following next links, at most [n] of them, and how the
    chain ends. The refinement lemma [scrape_loop_chain] states the
    loop's result and log in terms of it. *)

From S2P Require Import Prelude Dom Web Extract Fixtures.
From Stdlib Require Import Relation_Operators Operators_Properties Inclusion Inverse_Image.
Import Web.Notations.
Local Set Warnings "-inexact-float".
Local Open Scope crawl_scope.

Module Paginate.

Section Loop.
Context {T : Type} (parse : string -> Web.IO (list T * option string))
        (max_pages : Z) (delay : float).

(** [page_url and pages_scraped < max_pages]. *)
Definition loop_guard (page_url : option string) (pages_scraped : Z) : bool :=
  Py.truthy_str page_url && (pages_scraped <? max_pages)%Z.

Fixpoint scrape_loop (fuel : nat) (acc : list T) (page_url : option string)
    (pages_scraped : Z) : Web.IO (list T) :=
  match fuel with
  | O => Web.ret acc
  | S fuel' =>
      if loop_guard page_url pages_scraped then
        let* (records, next_page) := parse (default "" page_url) in
        Web.sleep delay ;;
        scrape_loop fuel' (acc ++ records) next_page (pages_scraped + 1)
      else Web.ret acc
  end.

(** The fuel is one more than the guard allows, so the guard of the
    code, not the fuel, ends the loop ([scrape_loop_fuel_enough]). *)
Definition scrape_pages (start : option string) : Web.IO (list T) :=
  scrape_loop (S (Z.to_nat max_pages)) [] start 0.
Lemma loop_guard_lt u k : loop_guard u k = true -> (k < max_pages)%Z.
Proof. unfold loop_guard. intros [_ Hlt]%andb_prop. by apply Z.ltb_lt. Qed.

Lemma loop_guard_cap u k : (max_pages <= k)%Z -> loop_guard u k = false.
Proof. unfold loop_guard. intros Hk. rewrite (proj2 (Z.ltb_ge _ _)) by lia. apply andb_false_r. Qed.

End Loop.

(** The loop's footprint is its parser's and its sleeps': it writes no
    file the parser does not write and logs nothing else. *)
Lemma footprint_scrape_loop {T} P path (parse : string -> Web.IO (list T * option string)) max_pages delay :
  (forall u, Web.footprint P path (parse u)) -> P (Web.EvSleep delay) ->
  forall fuel acc u k, Web.footprint P path (scrape_loop parse max_pages delay fuel acc u k).
Proof.
  intros Hp Hs fuel. induction fuel as [|fuel IH]; intros acc u k; simpl; [auto with footprint|].
  destruct (loop_guard _ u k); [|auto with footprint].
  apply Web.footprint_bind; [apply Hp|]. intros [recs next]. auto with footprint.
Qed.

Section Crawler.
Context `{UrlJoin}.

(** [scrape_subforum(subforum_url, max_pages=5, delay=0.1)]. *)
Definition scrape_subforum (subforum_url : string) (max_pages : Z) (delay : float)
    : Web.IO (list Extract.topic) :=
  scrape_pages Extract.parse_subforum_page max_pages delay (Some subforum_url).

(** [scrape_topic(topic_url, max_pages=5, delay=0.1)]. The URL is
    the [urljoin] of the listing, an optional string. *)
Definition scrape_topic (topic_url : option string) (max_pages : Z) (delay : float)
    : Web.IO (list Extract.post) :=
  scrape_pages Extract.parse_topic max_pages delay topic_url.
(** Both loops are the generic loop over [parse_page] of their
    extractor. *)
Lemma scrape_subforum_pages url max_pages delay :
  scrape_subforum url max_pages delay = scrape_pages parse_page max_pages delay (Some url).
Proof. reflexivity. Qed.

Lemma scrape_topic_pages topic_url max_pages delay :
  scrape_topic topic_url max_pages delay = scrape_pages parse_page max_pages delay topic_url.
Proof. reflexivity. Qed.
End Crawler.

(** ** Reference semantics: the chain of pages *)

(** How a chain of pages ends: the loop stops (no next link, or the
    cap), or a page raises: its fetch or its extraction. *)
Inductive chain_end :=
| Stop
| Fail (url : string) (e : Web.exn).

Section Chain.
Context {T : Type} `{PageExtractor T} (site : string -> Web.fetch_result).

Fixpoint page_chain (n : nat) (page_url : option string)
    : list (string * list T) * chain_end :=
  match n with
  | O => ([], Stop)
  | S n' =>
      if Py.truthy_str page_url then
        let u := default "" page_url in
        match load_page site u with
        | Web.Raise e => ([], Fail u e)
        | Web.Ok (recs, next) =>
            let '(rest, fin) := page_chain n' next in
            ((u, recs) :: rest, fin)
        end
      else ([], Stop)
  end.
End Chain.

Definition chain_result {T} (acc : list T) (pages : list (string * list T))
    (fin : chain_end) : Web.outcome (list T) :=
  match fin with
  | Stop => Web.Ok (acc ++ List.concat (map snd pages))
  | Fail _ e => Web.Raise e
  end.

(** The requests and sleeps of a chain: a request and a sleep per
    page, and a last request when a page raised. *)
Definition chain_log {T} (delay : float) (pages : list (string * list T))
    (fin : chain_end) : list Web.event :=
  flat_map (fun p => [Web.EvGet p.1; Web.EvSleep delay]) pages ++
  match fin with Stop => [] | Fail u _ => [Web.EvGet u] end.

Lemma chain_log_cons {T} delay u (recs : list T) pages fin :
  chain_log delay ((u, recs) :: pages) fin =
  [Web.EvGet u; Web.EvSleep delay] ++ chain_log delay pages fin.
Proof. done. Qed.

(** The loop computes the chain: with enough fuel, its result is the
    records of the chain's pages after [acc], or the exception of the
    failing page, and its log is the chain's requests and sleeps. *)
Lemma scrape_loop_chain {T} `{PageExtractor T} max_pages delay fuel
    (acc : list T) page_url k w :
  (Z.to_nat (max_pages - k) <= fuel)%nat ->
  scrape_loop parse_page max_pages delay fuel acc page_url k w =
  let '(pages, fin) := page_chain (Web.w_site w) (Z.to_nat (max_pages - k)) page_url in
  (chain_result acc pages fin, Web.with_log w (chain_log delay pages fin)).
Proof.
  revert acc page_url k w. induction fuel as [|fuel IH]; intros acc page_url k w Hf.
  - rewrite (fuel_zero k max_pages) by lia. simpl.
    by crawl_simpl.
  - simpl scrape_loop. unfold loop_guard.
    guard_cases (k <? max_pages)%Z.
    + rewrite (fuel_step k max_pages Hg). simpl page_chain.
      destruct (Py.truthy_str page_url) eqn:Ht; simpl andb.
      * cbv [andb]. rewrite bind_parse_page.
        destruct (load_page _ _) as [[recs next]|e]; [|done].
        rewrite Web.bind_sleep, Web.with_log_app, IH by lia. simpl.
        destruct (page_chain _ _ next) as [pages fin].
        rewrite chain_log_cons, Web.with_log_app. f_equal.
        destruct fin; simpl; [by rewrite app_assoc | done].
      * simpl. by crawl_simpl.
    + rewrite andb_false_r, (fuel_zero k max_pages) by lia. simpl.
      by crawl_simpl.
Qed.

Definition fail_count (fin : chain_end) : nat := if fin is Fail _ _ then 1 else 0.

Lemma requests_chain_log {T} delay (pages : list (string * list T)) fin :
  Web.requests (chain_log delay pages fin) = length pages + fail_count fin.
Proof.
  induction pages as [|[u recs] pages IH]; [by destruct fin|].
  rewrite chain_log_cons, Web.requests_app, IH. done.
Qed.

(** A chain of at most [n] pages makes at most [n] requests, the
    failing one included. *)
Lemma page_chain_bound {T} `{PageExtractor T} site n page_url :
  let '(pages, fin) := page_chain site n page_url in length pages + fail_count fin <= n.
Proof.
  revert page_url. induction n as [|n IH]; intros page_url; simpl; [lia|].
  destruct (Py.truthy_str page_url); simpl; [|lia].
  destruct (load_page _ _) as [[recs next]|e]; simpl; [|lia].
  specialize (IH next). destruct (page_chain site n next) as [pages fin]. simpl. lia.
Qed.

Lemma scrape_pages_chain {T} `{PageExtractor T} max_pages delay start w :
  scrape_pages parse_page max_pages delay start w =
  let '(pages, fin) := page_chain (Web.w_site w) (Z.to_nat max_pages) start in
  (chain_result [] pages fin, Web.with_log w (chain_log delay pages fin)).
Proof. unfold scrape_pages. rewrite scrape_loop_chain by lia. by rewrite Z.sub_0_r. Qed.

(** A run of [scrape_pages] adds requests and sleeps to the log and
    makes at most [max_pages] requests. *)
Lemma scrape_pages_requests {T} `{PageExtractor T} max_pages delay start w :
  exists evs, Web.w_log (scrape_pages parse_page max_pages delay start w).2 = Web.w_log w ++ evs /\
    Web.requests evs <= Z.to_nat max_pages.
Proof.
  rewrite scrape_pages_chain.
  pose proof (page_chain_bound (Web.w_site w) (Z.to_nat max_pages) start) as Hb.
  destruct (page_chain _ _ _) as [pages fin].
  exists (chain_log delay pages fin). split; [done|]. by rewrite requests_chain_log.
Qed.

(** C3. Termination of the loop: the fuel [Z.to_nat (max_pages -
    pages_scraped)] is enough. The guard [pages_scraped < max_pages]
    stops the loop before the fuel runs out, so any larger fuel gives
    the same result and the same effects. *)
Theorem scrape_loop_fuel_enough {T} `{PageExtractor T} max_pages delay fuel
    (acc : list T) page_url k w :
  (Z.to_nat (max_pages - k) <= fuel)%nat ->
  scrape_loop parse_page max_pages delay fuel acc page_url k w =
  scrape_loop parse_page max_pages delay (Z.to_nat (max_pages - k)) acc page_url k w.
Proof. intros Hf. rewrite !scrape_loop_chain by lia. done. Qed.

(** Politeness of a log: every request is followed by a sleep of
    [d] seconds, except a last request that raised. *)
Inductive polite (d : float) : list Web.event -> Prop :=
| polite_nil : polite d []
| polite_fail u : polite d [Web.EvGet u]
| polite_page u evs : polite d evs -> polite d (Web.EvGet u :: Web.EvSleep d :: evs).

Lemma chain_log_polite {T} delay (pages : list (string * list T)) fin :
  polite delay (chain_log delay pages fin).
Proof.
  induction pages as [|[u recs] pages IH].
  - destruct fin; simpl; constructor.
  - rewrite chain_log_cons. by constructor.
Qed.

Lemma chain_log_last {T} delay (pages : list (string * list T)) :
  pages <> [] -> last (chain_log delay pages Stop) = Some (Web.EvSleep delay).
Proof.
  intros Hne. destruct (exists_last Hne) as (pages' & p & ->).
  unfold chain_log. rewrite app_nil_r, flat_map_app. simpl. rewrite ?app_nil_r.
  change [Web.EvGet p.1; Web.EvSleep delay] with ([Web.EvGet p.1] ++ [Web.EvSleep delay]).
  by rewrite app_assoc, last_snoc.
Qed.

Lemma scrape_pages_polite {T} `{PageExtractor T} max_pages delay start w :
  exists evs, Web.w_log (scrape_pages parse_page max_pages delay start w).2 = Web.w_log w ++ evs /\
    polite delay evs /\
    (forall l, (scrape_pages parse_page max_pages delay start w).1 = Web.Ok l ->
               evs <> [] -> last evs = Some (Web.EvSleep delay)).
Proof.
  rewrite scrape_pages_chain. destruct (page_chain _ _ _) as [pages fin].
  exists (chain_log delay pages fin). split; [done|]. split; [apply chain_log_polite|].
  intros l. destruct fin as [|u e]; simpl; [|done]. intros _ Hne.
  apply chain_log_last. intros ->. by apply Hne.
Qed.

(** ** The loop as a state machine *)

(** The loop's variables: [page_url], [pages_scraped], the records
    collected, and the requests and sleeps made so far. *)
Record lstate (T : Type) := LState {
  ls_url : option string;
  ls_pages : Z;
  ls_acc : list T;
  ls_log : list Web.event
}.
Arguments LState {T}.
Arguments ls_url {T}.
Arguments ls_pages {T}.
Arguments ls_acc {T}.
Arguments ls_log {T}.

Section Machine.
Context {T : Type} `{PageExtractor T} (site : string -> Web.fetch_result)
        (max_pages : Z) (delay : float).

Definition linit (start : option string) : lstate T := LState start 0%Z [] [].

(** One iteration: the guard holds, the page is fetched and parsed, the
    records are appended, the URL advances, the counter grows, and a
    request and a sleep are logged. *)
Inductive lstep : lstate T -> lstate T -> Prop :=
| lstep_page s recs next :
    loop_guard max_pages (ls_url s) (ls_pages s) = true ->
    load_page (T:=T) site (default "" (ls_url s)) = Web.Ok (recs, next) ->
    lstep s (LState next (ls_pages s + 1)%Z (ls_acc s ++ recs)
               (ls_log s ++ [Web.EvGet (default "" (ls_url s)); Web.EvSleep delay])).

Definition lreach (start : option string) (s : lstate T) : Prop :=
  clos_refl_trans_n1 _ lstep (linit start) s.

(** The loop is over: the guard fails. *)
Definition ldone (s : lstate T) : Prop := loop_guard max_pages (ls_url s) (ls_pages s) = false.

Lemma lstep_pages s s' : lstep s s' -> ls_pages s' = (ls_pages s + 1)%Z /\ (ls_pages s < max_pages)%Z.
Proof.
  intros [s0 recs next Hg _]. split; [done|]. exact (loop_guard_lt _ _ _ Hg).
Qed.

End Machine.

(** C21. Invariant of the machine, by rule induction: in every state
    reachable from the start, [0 <= pages_scraped <= max(0, max_pages)],
    and the log is one request followed by one sleep of [delay] for
    each of the [pages_scraped] pages, in order. *)
Theorem lreach_invariant {T} `{PageExtractor T} site max_pages delay start (s : lstate T) :
  lreach site max_pages delay start s ->
  (0 <= ls_pages s <= Z.max 0 max_pages)%Z /\
  exists urls, ls_log s = flat_map (fun u => [Web.EvGet u; Web.EvSleep delay]) urls /\
               length urls = Z.to_nat (ls_pages s).
Proof.
  induction 1 as [|s1 s2 Hstep _ (Hb & urls & Hlog & Hlen)].
  - simpl. split; [lia|]. by exists [].
  - destruct (lstep_pages _ _ _ _ _ Hstep) as [Hs Hlt].
    inversion Hstep as [s0 recs next Hg Hf Hs0 Hs2]. subst s0 s2. simpl in *.
    split; [lia|]. exists (urls ++ [default "" (ls_url s1)]). split.
    + by rewrite flat_map_app, Hlog.
    + rewrite length_app, Hlen. simpl. lia.
Qed.

(** No run of the machine is infinite: every step lowers the number of
    pages the cap still allows. *)
Lemma lstep_wf {T} `{PageExtractor T} site max_pages delay :
  well_founded (fun s' s : lstate T => lstep site max_pages delay s s').
Proof.
  apply (wf_incl _ _ (fun s' s => Z.to_nat (max_pages - ls_pages s') < Z.to_nat (max_pages - ls_pages s))%nat).
  - intros s' s Hs. destruct (lstep_pages _ _ _ _ _ Hs) as [-> ?]. lia.
  - apply wf_inverse_image, Nat.lt_wf_0.
Qed.

(** C30. Liveness of the loop: from every state, finitely many
    iterations lead to a state where the loop stops, because the guard
    fails or the next page raises. The site answers every URL. *)
Theorem loop_reaches_end {T} `{PageExtractor T} site max_pages delay (s : lstate T) :
  exists s', clos_refl_trans _ (lstep site max_pages delay) s s' /\
    (ldone max_pages s' \/ exists e, load_page (T:=T) site (default "" (ls_url s')) = Web.Raise e).
Proof.
  induction s as [s IH] using (well_founded_ind (lstep_wf site max_pages delay)).
  destruct (loop_guard max_pages (ls_url s) (ls_pages s)) eqn:Hg.
  - destruct (load_page site (default "" (ls_url s))) as [[recs next]|e] eqn:Hf.
    + pose proof (lstep_page site max_pages delay s recs next Hg Hf) as Hstep.
      destruct (IH _ Hstep) as (s' & Hrt & Hend). exists s'. split; [|done].
      eapply rt_trans; [apply rt_step, Hstep | exact Hrt].
    + exists s. split; [apply rt_refl | right; by exists e].
  - exists s. split; [apply rt_refl | by left].
Qed.


(** The loop runs the machine: from [s], it ends in a state [s'] the
    machine reaches, either done (and returns its records) or about to
    load a page that raises. *)
Lemma scrape_loop_machine {T} `{PageExtractor T} max_pages delay fuel (s : lstate T) w r w' :
  (Z.to_nat (max_pages - ls_pages s) <= fuel)%nat ->
  scrape_loop parse_page max_pages delay fuel (ls_acc s) (ls_url s) (ls_pages s) w = (r, w') ->
  exists s' evs, clos_refl_trans _ (lstep (Web.w_site w) max_pages delay) s s' /\
    ls_log s' = ls_log s ++ evs /\
    match r with
    | Web.Ok l => ldone max_pages s' /\ l = ls_acc s' /\ w' = Web.with_log w evs
    | Web.Raise e =>
        loop_guard max_pages (ls_url s') (ls_pages s') = true /\
        load_page (T:=T) (Web.w_site w) (default "" (ls_url s')) = Web.Raise e /\
        w' = Web.with_log w (evs ++ [Web.EvGet (default "" (ls_url s'))])
    end.
Proof.
  revert s w r w'. induction fuel as [|fuel IH]; intros s w r w' Hf Hrun.
  - simpl in Hrun. injection Hrun as <- <-. exists s, []. split; [apply rt_refl|].
    rewrite app_nil_r, Web.with_log_nil. split; [done|]. split; [|done].
    apply loop_guard_cap. lia.
  - simpl scrape_loop in Hrun. destruct (loop_guard _ _ _) eqn:Hg.
    + rewrite bind_parse_page in Hrun.
      destruct (load_page _ _) as [[recs next]|e] eqn:Hfetch.
      * rewrite Web.bind_sleep, Web.with_log_app in Hrun.
        assert (Hlt : (ls_pages s < max_pages)%Z).
        { exact (loop_guard_lt _ _ _ Hg). }
        set (s1 := LState next (ls_pages s + 1)%Z (ls_acc s ++ recs)
                     (ls_log s ++ [Web.EvGet (default "" (ls_url s)); Web.EvSleep delay])).
        destruct (IH s1 (Web.with_log w [Web.EvGet (default "" (ls_url s)); Web.EvSleep delay]) r w')
          as (s' & evs & Hrt & Hlog & Hres); [simpl; lia | exact Hrun |].
        exists s', ([Web.EvGet (default "" (ls_url s)); Web.EvSleep delay] ++ evs).
        rewrite Web.with_log_site in Hrt. split; [|split].
        -- eapply rt_trans; [apply rt_step | exact Hrt]. by econstructor.
        -- rewrite Hlog. simpl. by rewrite <- app_assoc.
        -- destruct r as [l|e]; rewrite ?Web.with_log_site in Hres.
           ++ destruct Hres as (Hd & Hl & Hw). split; [done|]. split; [done|].
              by rewrite Hw, Web.with_log_app.
           ++ destruct Hres as (Hg' & Hfe & Hw). split; [done|]. split; [done|].
              by rewrite Hw, Web.with_log_app, app_assoc.
      * injection Hrun as <- <-. exists s, []. split; [apply rt_refl|].
        by rewrite app_nil_r.
    + injection Hrun as <- <-. exists s, []. split; [apply rt_refl|].
      by crawl_simpl.
Qed.

Section Crawler.
Context `{UrlJoin}.

(** C1. Refinement: [scrape_subforum] and [scrape_topic] compute the
    chain of pages reached from their start URL by following next
    links, at most [max_pages] of them. They return the records of
    those pages concatenated in visit order, or raise the exception
    of the first page whose fetch or extraction raises. The log gets a
    request and a sleep per page, and a last request when a page fails. *)
Theorem scrape_refines_chain (url : string) (topic_url : option string)
    (max_pages : Z) (delay : float) (w : Web.world) :
  scrape_subforum url max_pages delay w =
    (let '(pages, fin) := page_chain (Web.w_site w) (Z.to_nat max_pages) (Some url) in
     (chain_result [] pages fin, Web.with_log w (chain_log delay pages fin))) /\
  scrape_topic topic_url max_pages delay w =
    (let '(pages, fin) := page_chain (Web.w_site w) (Z.to_nat max_pages) topic_url in
     (chain_result [] pages fin, Web.with_log w (chain_log delay pages fin))).
Proof.
  rewrite scrape_subforum_pages, scrape_topic_pages. split; apply scrape_pages_chain.
Qed.

(** C2. Page cap: whatever the site serves, including a cycle of
    next links, [scrape_subforum] and [scrape_topic] make at most
    [max_pages] requests (none when [max_pages <= 0]). *)
Theorem scrape_requests_bounded (url : string) (topic_url : option string)
    (max_pages : Z) (delay : float) (w : Web.world) :
  (exists evs, Web.w_log (scrape_subforum url max_pages delay w).2 = Web.w_log w ++ evs /\
     Web.requests evs <= Z.to_nat max_pages) /\
  (exists evs, Web.w_log (scrape_topic topic_url max_pages delay w).2 = Web.w_log w ++ evs /\
     Web.requests evs <= Z.to_nat max_pages).
Proof. rewrite scrape_subforum_pages, scrape_topic_pages. split; apply scrape_pages_requests. Qed.

(** C4. Politeness: every request [scrape_subforum] or
    [scrape_topic] makes is followed by a sleep of [delay] seconds,
    except a last request that raised. When the loop returns
    normally, its last event is a sleep: it sleeps after the last
    page too, where the spec says to skip that sleep. *)
Theorem scrape_polite (url : string) (max_pages : Z) (delay : float) (w : Web.world) :
  exists evs, Web.w_log (scrape_subforum url max_pages delay w).2 = Web.w_log w ++ evs /\
    polite delay evs /\
    (forall l, (scrape_subforum url max_pages delay w).1 = Web.Ok l ->
               evs <> [] -> last evs = Some (Web.EvSleep delay)).
Proof. rewrite scrape_subforum_pages. apply scrape_pages_polite. Qed.

(** C22. The loop refines the state machine: every run of
    [scrape_subforum] is a run of the machine from its start URL to a
    reachable state. A normal return is a state where the guard fails,
    with the state's records as result and its log as the requests and
    sleeps made. A raised exception is a state where the guard holds
    and the next page raises, followed by that one last request. *)
Theorem scrape_subforum_runs_machine (url : string) (max_pages : Z) (delay : float)
    (w : Web.world) r w' :
  scrape_subforum url max_pages delay w = (r, w') ->
  exists s, lreach (Web.w_site w) max_pages delay (Some url) s /\
    match r with
    | Web.Ok l => ldone max_pages s /\ l = ls_acc s /\ Web.w_log w' = Web.w_log w ++ ls_log s
    | Web.Raise e =>
        loop_guard max_pages (ls_url s) (ls_pages s) = true /\
        load_page (T:=Extract.topic) (Web.w_site w) (default "" (ls_url s)) = Web.Raise e /\
        Web.w_log w' = Web.w_log w ++ ls_log s ++ [Web.EvGet (default "" (ls_url s))]
    end.
Proof.
  rewrite scrape_subforum_pages. unfold scrape_pages. intros Hrun.
  destruct (scrape_loop_machine max_pages delay (S (Z.to_nat max_pages)) (linit (Some url)) w r w')
    as (s & evs & Hrt & Hlog & Hres); [simpl; lia | exact Hrun |].
  simpl in Hlog. subst evs. exists s. split; [by apply clos_rt_rtn1|].
  destruct r as [l|e].
  - destruct Hres as (Hd & Hl & ->). done.
  - destruct Hres as (Hg & Hfe & ->). done.
Qed.

(** C7. Non-positive cap: with [max_pages <= 0] the loop makes no
    request and returns no record. *)
Theorem scrape_nonpositive_cap (url : string) (max_pages : Z) (delay : float)
    (w : Web.world) :
  (max_pages <= 0)%Z -> scrape_subforum url max_pages delay w = (Web.Ok [], w).
Proof.
  intros Hm. rewrite scrape_subforum_pages, scrape_pages_chain.
  rewrite (Z2Nat.nonpos max_pages Hm). simpl. by rewrite Web.with_log_nil.
Qed.
End Crawler.

Section Scenarios.
Import Fixtures.

(** The listing scenario of the spec: three listing pages of
    two topics, linked by next anchors. [scrape_subforum] returns
    the six topics in listing order. With [max_pages = 2] it returns
    the first four and makes two requests. *)
Example scrape_subforum_three_pages :
  (scrape_subforum Extract.SUBFORUM_URL 1000 0.1 (world_of listing_site)).1 =
    Web.Ok (map topic_ref ["1"; "2"; "3"; "4"; "5"; "6"]) /\
  (scrape_subforum Extract.SUBFORUM_URL 2 0.1 (world_of listing_site)).1 =
    Web.Ok (map topic_ref ["1"; "2"; "3"; "4"]) /\
  Web.requests (Web.w_log (scrape_subforum Extract.SUBFORUM_URL 2 0.1 (world_of listing_site)).2) = 2.
Proof. vm_compute. repeat split. Qed.


Lemma scrape_nonpositive_cap_witness :
(0 <= 0)%Z /\ Paginate.scrape_subforum Extract.SUBFORUM_URL 0 0.1 (Fixtures.world_of Fixtures.listing_site) =
  (Web.Ok [], Fixtures.world_of Fixtures.listing_site).
Proof. split; [lia|]. apply scrape_nonpositive_cap. lia. Defined.

Definition listing_after_one_page : lstate Extract.topic :=
  LState (Some "https://forum.freecad.org/p2") 1%Z [topic_ref "1"; topic_ref "2"]
    [Web.EvGet Extract.SUBFORUM_URL; Web.EvSleep 0.1].

Lemma listing_after_one_page_reached :
  lreach (Web.w_site (world_of listing_site)) 2 0.1 (Some Extract.SUBFORUM_URL) listing_after_one_page.
Proof.
  unfold lreach. eapply Relation_Operators.rtn1_trans; [|apply Relation_Operators.rtn1_refl].
  assert (Hs : lstep (Web.w_site (world_of listing_site)) 2 0.1 (linit (Some Extract.SUBFORUM_URL))
                 (LState (Some "https://forum.freecad.org/p2") (0 + 1)%Z ([] ++ [topic_ref "1"; topic_ref "2"])
                    ([] ++ [Web.EvGet (default "" (Some Extract.SUBFORUM_URL)); Web.EvSleep 0.1]))).
  { eapply (lstep_page _ _ _ (linit (Some Extract.SUBFORUM_URL))); [reflexivity | vm_compute; reflexivity]. }
  exact Hs.
Qed.

Lemma lreach_invariant_witness :
  lreach (Web.w_site (world_of listing_site)) 2 0.1 (Some Extract.SUBFORUM_URL) listing_after_one_page /\
  ((0 <= ls_pages listing_after_one_page <= Z.max 0 2)%Z /\
   exists urls, ls_log listing_after_one_page =
     flat_map (fun u => [Web.EvGet u; Web.EvSleep 0.1]) urls /\
     length urls = Z.to_nat (ls_pages listing_after_one_page)).
Proof.
  split; [exact listing_after_one_page_reached|].
  exact (lreach_invariant _ _ _ _ _ listing_after_one_page_reached).
Defined.

Lemma scrape_subforum_runs_machine_witness :
  exists s, lreach (Web.w_site (world_of listing_site)) 2 0.1 (Some Extract.SUBFORUM_URL) s /\
    match (scrape_subforum Extract.SUBFORUM_URL 2 0.1 (world_of listing_site)).1 with
    | Web.Ok l => ldone 2 s /\ l = ls_acc s /\
        Web.w_log (scrape_subforum Extract.SUBFORUM_URL 2 0.1 (world_of listing_site)).2 =
        Web.w_log (world_of listing_site) ++ ls_log s
    | Web.Raise e =>
        loop_guard 2 (ls_url s) (ls_pages s) = true /\
        load_page (T:=Extract.topic) (Web.w_site (world_of listing_site)) (default "" (ls_url s)) = Web.Raise e /\
        Web.w_log (scrape_subforum Extract.SUBFORUM_URL 2 0.1 (world_of listing_site)).2 =
        Web.w_log (world_of listing_site) ++ ls_log s ++ [Web.EvGet (default "" (ls_url s))]
    end.
Proof.
  apply scrape_subforum_runs_machine. destruct (scrape_subforum _ _ _ _). reflexivity.
Defined.

Lemma scrape_loop_fuel_enough_witness :
(Z.to_nat (2 - 0) <= 5)%nat /\
scrape_loop parse_page 2 0.1 5 [] (Some Extract.SUBFORUM_URL) 0 (Fixtures.world_of Fixtures.listing_site) =
scrape_loop parse_page 2 0.1 (Z.to_nat (2 - 0)) [] (Some Extract.SUBFORUM_URL) 0
  (Fixtures.world_of Fixtures.listing_site).
Proof. split; [lia|]. apply scrape_loop_fuel_enough. lia. Defined.

End Scenarios.

End Paginate.
