(* ===== verification/Json.v ===== *)
(** * JSON values as [json.load] returns them, and the Python operations on them

    [json.load] gives [None], [bool], [int], [str], [list] or [dict]. A
    JSON object becomes a [dict] in which a repeated key keeps its last
    value. Numbers with a fraction or an exponent ([float]) are not
    modelled. This file gives the Python operations
    [src/data_parser.py] applies to such values: iterating ([for post
    in posts]), subscripting ([post['title']]) and hashing a title
    ([title in seen_titles]). A title's [key] is what set membership
    compares. [True == 1] and [False == 0] with equal hashes, so a
    boolean and an integer can be the same title. Lists and dicts are
    unhashable and raise [TypeError].

    [dumps] is [json.dumps(v, indent=4)] with the defaults the code
    uses ([ensure_ascii=True], separators [","] and [": "]). A [JObj]
    stands for a dict: its keys are distinct when the value comes from
    [json.load] or from a dict literal of the code, and [dumps] prints
    its pairs in order. [JsonLoad] states what the code uses of
    [json.load]. *)

From S2P Require Import Prelude Dom Web.
From Stdlib Require Import DecimalString.

Local Set Warnings "-register-all".

Module Json.

Inductive json :=
| JNull
| JBool (b : bool)
| JInt (z : Z)
| JStr (s : string)
| JArr (l : list json)
| JObj (kvs : list (string * json)).

(** [d[k]] on the dict built from [kvs]: the last value of [k]. *)
Fixpoint dict_lookup (k : string) (kvs : list (string * json)) : option json :=
  match kvs with
  | [] => None
  | (k', v) :: kvs' =>
      match dict_lookup k kvs' with
      | Some v' => Some v'
      | None => if String.eqb k k' then Some v else None
      end
  end.

(** The keys of the dict built from [kvs], in first-insertion order. *)
Fixpoint dict_keys (seen : list string) (kvs : list (string * json)) : list string :=
  match kvs with
  | [] => []
  | (k, _) :: kvs' =>
      if bool_decide (k ∈ seen) then dict_keys seen kvs' else k :: dict_keys (k :: seen) kvs'
  end.

(** [for x in v]: a list gives its items, a dict its keys, a string its
    characters; [None], booleans and integers are not iterable. *)
Definition py_iter (v : json) : Web.outcome (list json) :=
  match v with
  | JArr l => Web.Ok l
  | JObj kvs => Web.Ok (map JStr (dict_keys [] kvs))
  | JStr s => Web.Ok (map (fun c => JStr (String.String c String.EmptyString))
                         (String.list_ascii_of_string s))
  | _ => Web.Raise Web.TypeError
  end.

(** [v['title']]: a dict gives the value or raises [KeyError]; a list
    or a string raises [TypeError] (indices must be integers), and so
    do the scalars (not subscriptable). *)
Definition getitem (v : json) (k : string) : Web.outcome json :=
  match v with
  | JObj kvs =>
      match dict_lookup k kvs with
      | Some x => Web.Ok x
      | None => Web.Raise (Web.KeyError k)
      end
  | _ => Web.Raise Web.TypeError
  end.

(** What a set of titles compares: Python equality and hashing on the
    hashable JSON values. *)
Inductive key :=
| KNone
| KInt (z : Z)
| KStr (s : string).

#[export] Instance key_eq_dec : EqDecision key.
Proof. solve_decision. Defined.

#[export] Instance key_countable : Countable key.
Proof.
  refine (inj_countable'
    (fun k => match k with KNone => inl tt | KInt z => inr (inl z) | KStr s => inr (inr s) end)
    (fun x => match x with inl _ => KNone | inr (inl z) => KInt z | inr (inr s) => KStr s end) _).
  by intros [].
Defined.

(** [hash(v)]: [True] is [1] and [False] is [0]; a list or a dict raises
    [TypeError: unhashable type]. *)
Definition hash_key (v : json) : Web.outcome key :=
  match v with
  | JNull => Web.Ok KNone
  | JBool b => Web.Ok (KInt (if b then 1 else 0))
  | JInt z => Web.Ok (KInt z)
  | JStr s => Web.Ok (KStr s)
  | JArr _ | JObj _ => Web.Raise Web.TypeError
  end.

(** ** [json.dumps(v, indent=4)] *)

Definition chr (n : nat) : string := String.String (Ascii.ascii_of_nat n) String.EmptyString.

Definition hex_digit (n : nat) : string :=
  chr (if n <? 10 then 48 + n else 87 + n).

(** One character of a string literal: the double quote and the
    backslash behind a backslash, the short escapes of backspace, form
    feed, newline, carriage return and tab, the printable ASCII range
    from space to tilde as is, anything else as a [u00XX] escape with
    lower-case hex digits. *)
Definition escape_char (c : ascii) : string :=
  let n := Ascii.nat_of_ascii c in
  if n =? 34 then "\" ++ chr 34
  else if n =? 92 then "\\"
  else if n =? 8 then "\b"
  else if n =? 12 then "\f"
  else if n =? 10 then "\n"
  else if n =? 13 then "\r"
  else if n =? 9 then "\t"
  else if (32 <=? n) && (n <=? 126) then chr n
  else "\u00" ++ hex_digit (n / 16) ++ hex_digit (n mod 16).

(** [py_encode_basestring_ascii]. *)
Definition encode_str (s : string) : string :=
  chr 34 ++ String.concat "" (map escape_char (String.list_ascii_of_string s)) ++ chr 34.

(** [int.__repr__]. *)
Definition int_repr (z : Z) : string := NilZero.string_of_int (Z.to_int z).

(** A newline and the indentation of [level]. *)
Definition newline_indent (level : nat) : string :=
  chr 10 ++ String.concat "" (repeat "    " level).

(** [_iterencode] at nesting [level]: a non-empty list or dict opens,
    puts each item on a line of its own one level deeper, separates
    them with [","], and closes on a line at its own level. *)
Fixpoint dumps_at (level : nat) (v : json) : string :=
  match v with
  | JNull => "null"
  | JBool true => "true"
  | JBool false => "false"
  | JInt z => int_repr z
  | JStr s => encode_str s
  | JArr [] => "[]"
  | JArr l =>
      "[" ++ newline_indent (S level) ++
      String.concat ("," ++ newline_indent (S level)) (map (dumps_at (S level)) l) ++
      newline_indent level ++ "]"
  | JObj [] => "{}"
  | JObj kvs =>
      "{" ++ newline_indent (S level) ++
      String.concat ("," ++ newline_indent (S level))
        ((fix items (kvs : list (string * json)) : list string :=
            match kvs with
            | [] => []
            | (k, x) :: kvs' => (encode_str k ++ ": " ++ dumps_at (S level) x) :: items kvs'
            end) kvs) ++
      newline_indent level ++ "}"
  end%string.

Definition dumps (v : json) : string := dumps_at 0 v.

(** What the code uses of [json.load]: the value of a file's text, or
    [JSONDecodeError]. *)
Class JsonLoad := { json_loads : string -> Web.outcome json }.

(** Induction on values, with the hypothesis for every item of a list
    and every value of a dict. *)
Lemma json_ind' (P : json -> Prop) :
  P JNull -> (forall b, P (JBool b)) -> (forall z, P (JInt z)) -> (forall s, P (JStr s)) ->
  (forall l, Forall P l -> P (JArr l)) ->
  (forall kvs, Forall (fun kv => P kv.2) kvs -> P (JObj kvs)) ->
  forall v, P v.
Proof.
  intros Hn Hb Hi Hs Ha Ho. fix IH 1. intros [| | | | l | kvs].
  1-4: auto.
  - apply Ha. induction l as [|x l IHl]; constructor; [apply IH | exact IHl].
  - apply Ho. induction kvs as [|[k x] kvs IHk]; constructor; [apply IH | exact IHk].
Qed.

End Json.
