(* ===== verification/Scanner.v ===== *)
(** * [json.load]: the scanner of CPython's [_json] accelerator

    [remove_repetitions] ([src/data_parser.py]) reads the file with
    [json.load], which is [json.loads(file.read())]. [JSONDecoder.decode]
    skips whitespace, calls the C scanner [scan_once_unicode] of
    [Modules/_json.c] once, skips whitespace again and raises "Extra
    data" unless the text ends there. This file translates that
    scanner:
    - [scan_string] is [scanstring_unicode] with [strict=True];
    - [scan_number] is [_match_number_unicode];
    - [scan_value] is [scan_once_unicode];
    - [scan_items] and [scan_members] are the loops of
      [_parse_array_unicode] and [_parse_object_unicode].
    A text is a list of characters of code 0 to 255.

    Every error of the scanner is [Invalid]. It becomes
    [JSONDecodeError] (the position and the message are not modelled).
    [exact] is false when Python's value holds something the model's
    values cannot hold: a float ([1.5], [1e3], [NaN], [Infinity]) or a
    character above U+00FF from a [\uXXXX] escape. The scan goes on
    with a placeholder then, as Python goes on with the real value, so
    its errors stay the same. [loads] raises [OutsideModel] for such a
    value instead of returning it.

    The recursion is bounded by fuel. [loads] gives [2 * n + 1] for a
    text of [n] characters, and [loads_fuel_enough] shows the fuel
    never runs out. *)

From S2P Require Import Prelude Web Json.

Module Scanner.
Import Json.

(** ** Characters *)

Definition code (c : ascii) : nat := Ascii.nat_of_ascii c.

Definition is_char (n : nat) (c : ascii) : bool := code c =? n.

(** [IS_WHITESPACE]: space, tab, newline, carriage return. *)
Definition is_ws (c : ascii) : bool :=
  is_char 32 c || is_char 9 c || is_char 10 c || is_char 13 c.

Fixpoint skip_ws (s : list ascii) : list ascii :=
  match s with
  | c :: s' => if is_ws c then skip_ws s' else s
  | [] => []
  end.

Definition is_digit (c : ascii) : bool := (48 <=? code c) && (code c <=? 57).

(** The value of a hexadecimal digit of a [\uXXXX] escape. *)
Definition hex_val (c : ascii) : option N :=
  (let n := Ascii.N_of_ascii c in
  if (48 <=? n) && (n <=? 57) then Some (n - 48)
  else if (97 <=? n) && (n <=? 102) then Some (n - 87)
  else if (65 <=? n) && (n <=? 70) then Some (n - 55)
  else None)%N.

Definition hex4 (a b c d : ascii) : option N :=
  match hex_val a, hex_val b, hex_val c, hex_val d with
  | Some x, Some y, Some z, Some w => Some (((x * 16 + y) * 16 + z) * 16 + w)
  | _, _, _, _ => None
  end%N.

(** The escapes other than [\u]: a quote, a backslash, a slash, and
    [b f n r t]. *)
Definition short_escape (c : ascii) : option ascii :=
  let n := code c in
  if (n =? 34) || (n =? 92) || (n =? 47) then Some c
  else if n =? 98 then Some (ascii_of_nat 8)
  else if n =? 102 then Some (ascii_of_nat 12)
  else if n =? 110 then Some (ascii_of_nat 10)
  else if n =? 114 then Some (ascii_of_nat 13)
  else if n =? 116 then Some (ascii_of_nat 9)
  else None.

Definition is_high_surrogate (n : N) : bool := ((55296 <=? n) && (n <=? 56319))%N.
Definition is_low_surrogate (n : N) : bool := ((56320 <=? n) && (n <=? 57343))%N.

(** The character that stands for one above U+00FF. *)
Definition placeholder : ascii := ascii_of_nat 63.

(** ** Results of a scan *)

Inductive result (A : Type) :=
| Done (a : A) (exact : bool) (rest : list ascii)
| Invalid
| NoFuel.
Arguments Done {A} a exact rest.
Arguments Invalid {A}.
Arguments NoFuel {A}.

Definition map_result {A B} (f : A -> B) (r : result A) : result B :=
  match r with
  | Done a e rest => Done (f a) e rest
  | Invalid => Invalid
  | NoFuel => NoFuel
  end.

(** A scan after a part whose exactness is [e]. *)
Definition and_exact {A} (e : bool) (r : result A) : result A :=
  match r with
  | Done a e' rest => Done a (e && e') rest
  | r => r
  end.

Definition push (c : ascii) (r : result string) : result string :=
  map_result (String.String c) r.

(** ** Strings *)

(** [scanstring_unicode], from just after the opening quote. A
    control character (code 31 or less) is refused. A [\u] escape needs
    four hex digits and one more character after them. A high
    surrogate joins a low one that follows it as [\uXXXX] when one
    more character comes after that escape too. When the second escape
    is not a low surrogate, the scan goes on just after the first
    escape. *)
Fixpoint scan_string (s : list ascii) : result string :=
  match s with
  | [] => Invalid
  | c :: s' =>
      if is_char 34 c then Done EmptyString true s'
      else if is_char 92 c then
        match s' with
        | [] => Invalid
        | e :: s'' =>
            if is_char 117 e then
              match s'' with
              | h1 :: h2 :: h3 :: h4 :: s3 =>
                  match s3, hex4 h1 h2 h3 h4 with
                  | [], _ => Invalid
                  | _, None => Invalid
                  | _, Some n =>
                      if (n <=? 255)%N then push (Ascii.ascii_of_N n) (scan_string s3)
                      else and_exact false
                        (if is_high_surrogate n then
                           match s3 with
                           | b :: u :: k1 :: k2 :: k3 :: k4 :: ((_ :: _) as s4) =>
                               if is_char 92 b && is_char 117 u then
                                 match hex4 k1 k2 k3 k4 with
                                 | None => Invalid
                                 | Some n2 =>
                                     if is_low_surrogate n2 then push placeholder (scan_string s4)
                                     else push placeholder (scan_string s3)
                                 end
                               else push placeholder (scan_string s3)
                           | _ => push placeholder (scan_string s3)
                           end
                         else push placeholder (scan_string s3))
                  end
              | _ => Invalid
              end
            else
              match short_escape e with
              | Some ch => push ch (scan_string s'')
              | None => Invalid
              end
        end
      else if code c <=? 31 then Invalid
      else push c (scan_string s')
  end.

(** ** Numbers *)

Fixpoint span_digits (s : list ascii) : list ascii * list ascii :=
  match s with
  | c :: s' => if is_digit c then let '(ds, r) := span_digits s' in (c :: ds, r) else ([], s)
  | [] => ([], [])
  end.

(** [int()] of a string of decimal digits, read from the left. *)
Definition digit_step (acc : Z) (c : ascii) : Z := (10 * acc + Z.of_nat (code c - 48))%Z.

Definition digits_value (ds : list ascii) : Z := fold_left digit_step ds 0%Z.

(** A fraction: a point followed by at least one digit. *)
Definition scan_frac (s : list ascii) : bool * list ascii :=
  match s with
  | p :: d :: s' => if is_char 46 p && is_digit d then (true, (span_digits s').2) else (false, s)
  | _ => (false, s)
  end.

(** An exponent: [e] or [E], an optional sign, at least one digit;
    without a digit the scanner backs up to the [e]. *)
Definition scan_exp (s : list ascii) : bool * list ascii :=
  match s with
  | e :: s1 =>
      if is_char 101 e || is_char 69 e then
        let s2 := match s1 with
                  | sg :: s2 => if is_char 43 sg || is_char 45 sg then s2 else s1
                  | [] => []
                  end in
        match span_digits s2 with
        | ([], _) => (false, s)
        | (_, r) => (true, r)
        end
      else (false, s)
  | [] => (false, s)
  end.

(** [_match_number_unicode]: an optional minus, then [0] or a non-zero
    digit and more digits, then a fraction or an exponent that make it
    a float. *)
Definition number_end (neg : bool) (ds : list ascii) (r : list ascii) : result json :=
  let '(fr, r1) := scan_frac r in
  let '(ex, r2) := scan_exp r1 in
  if fr || ex then Done (JInt 0) false r2
  else Done (JInt (if neg then - digits_value ds else digits_value ds)%Z) true r.

Definition scan_number (s : list ascii) : result json :=
  let '(neg, s1) := match s with
                    | c :: s' => if is_char 45 c then (true, s') else (false, s)
                    | [] => (false, s)
                    end in
  match s1 with
  | [] => Invalid
  | d :: s2 =>
      if is_char 48 d then number_end neg [d] s2
      else if is_digit d then let '(ds, r) := span_digits s2 in number_end neg (d :: ds) r
      else Invalid
  end.

(** ** Literals *)

Fixpoint strip_prefix (w s : list ascii) : option (list ascii) :=
  match w, s with
  | [], _ => Some s
  | a :: w', c :: s' => if Ascii.eqb a c then strip_prefix w' s' else None
  | _ :: _, [] => None
  end.

Definition lit (w : string) (s : list ascii) : option (list ascii) :=
  strip_prefix (String.list_ascii_of_string w) s.

(** [null], [true], [false], and the float constants [NaN],
    [Infinity] and [-Infinity]. *)
Definition keyword (s : list ascii) : option (result json) :=
  match lit "null" s with Some r => Some (Done JNull true r) | None =>
  match lit "true" s with Some r => Some (Done (JBool true) true r) | None =>
  match lit "false" s with Some r => Some (Done (JBool false) true r) | None =>
  match lit "NaN" s with Some r => Some (Done JNull false r) | None =>
  match lit "Infinity" s with Some r => Some (Done JNull false r) | None =>
  match lit "-Infinity" s with Some r => Some (Done JNull false r) | None => None
  end end end end end end.

(** ** Dicts *)

(** [PyDict_SetItem]: a new key goes last, a present key keeps its
    place and takes the new value. *)
Fixpoint dict_set (k : string) (v : json) (d : list (string * json)) : list (string * json) :=
  match d with
  | [] => [(k, v)]
  | (k', v') :: d' => if String.eqb k k' then (k, v) :: d' else (k', v') :: dict_set k v d'
  end.

Definition dict_of_pairs (kvs : list (string * json)) : list (string * json) :=
  fold_left (fun d '(k, v) => dict_set k v d) kvs [].

Definition starts (n : nat) (s : list ascii) : bool :=
  match s with
  | c :: _ => is_char n c
  | [] => false
  end.

(** ** Values *)

Fixpoint scan_value (fuel : nat) (s : list ascii) : result json :=
  match fuel with
  | 0 => NoFuel
  | S fuel' =>
      match s with
      | [] => Invalid
      | c :: s' =>
          if is_char 34 c then map_result JStr (scan_string s')
          else if is_char 123 c then
            match skip_ws s' with
            | d :: r => if is_char 125 d then Done (JObj []) true r else scan_members fuel' (d :: r) []
            | [] => Invalid
            end
          else if is_char 91 c then
            match skip_ws s' with
            | d :: r => if is_char 93 d then Done (JArr []) true r else scan_items fuel' (d :: r) []
            | [] => Invalid
            end
          else match keyword s with
               | Some r => r
               | None => scan_number s
               end
      end
  end

(** The loop of [_parse_array_unicode] after the first [[] and its
    whitespace, with the items read so far. *)
with scan_items (fuel : nat) (s : list ascii) (acc : list json) : result json :=
  match fuel with
  | 0 => NoFuel
  | S fuel' =>
      match scan_value fuel' s with
      | Done v e r =>
          match skip_ws r with
          | c :: r' =>
              if is_char 93 c then Done (JArr (acc ++ [v])) e r'
              else if is_char 44 c then
                let t := skip_ws r' in
                if starts 93 t then Invalid
                else and_exact e (scan_items fuel' t (acc ++ [v]))
              else Invalid
          | [] => Invalid
          end
      | Invalid => Invalid
      | NoFuel => NoFuel
      end
  end

(** The loop of [_parse_object_unicode] after the [{] and its
    whitespace, with the pairs read so far. *)
with scan_members (fuel : nat) (s : list ascii) (acc : list (string * json)) : result json :=
  match fuel with
  | 0 => NoFuel
  | S fuel' =>
      match s with
      | q :: s1 =>
          if is_char 34 q then
            match scan_string s1 with
            | Done k ek r1 =>
                match skip_ws r1 with
                | col :: r2 =>
                    if is_char 58 col then
                      match scan_value fuel' (skip_ws r2) with
                      | Done v ev r3 =>
                          match skip_ws r3 with
                          | c :: r4 =>
                              if is_char 125 c then
                                Done (JObj (dict_of_pairs (acc ++ [(k, v)]))) (ek && ev) r4
                              else if is_char 44 c then
                                let t := skip_ws r4 in
                                if starts 125 t then Invalid
                                else and_exact (ek && ev) (scan_members fuel' t (acc ++ [(k, v)]))
                              else Invalid
                          | [] => Invalid
                          end
                      | Invalid => Invalid
                      | NoFuel => NoFuel
                      end
                    else Invalid
                | [] => Invalid
                end
            | Invalid => Invalid
            | NoFuel => NoFuel
            end
          else Invalid
      | [] => Invalid
      end
  end.


(** [json.loads(text)]. *)
Definition loads (text : string) : Web.outcome json :=
  let s := String.list_ascii_of_string text in
  match scan_value (S (2 * length s)) (skip_ws s) with
  | Done v exact r =>
      match skip_ws r with
      | [] => if exact then Web.Ok v else Web.Raise Web.OutsideModel
      | _ :: _ => Web.Raise Web.JSONDecodeError
      end
  | Invalid => Web.Raise Web.JSONDecodeError
  | NoFuel => Web.Raise Web.OutsideModel
  end.

#[export] Instance py_json_load : JsonLoad := {| json_loads := loads |}.


(** ** Fuel *)

Lemma and_exact_fuel {A} e (r : result A) : r <> NoFuel -> and_exact e r <> NoFuel.
Proof. by destruct r. Qed.

Lemma and_exact_nofuel {A} e (r : result A) : and_exact e r <> NoFuel -> r <> NoFuel.
Proof. by destruct r. Qed.

Lemma scan_value_S n s :
  scan_value (S n) s =
  match s with
  | [] => Invalid
  | c :: s' =>
      if is_char 34 c then map_result JStr (scan_string s')
      else if is_char 123 c then
        match skip_ws s' with
        | d :: r => if is_char 125 d then Done (JObj []) true r else scan_members n (d :: r) []
        | [] => Invalid
        end
      else if is_char 91 c then
        match skip_ws s' with
        | d :: r => if is_char 93 d then Done (JArr []) true r else scan_items n (d :: r) []
        | [] => Invalid
        end
      else match keyword s with Some r => r | None => scan_number s end
  end.
Proof. done. Qed.

Lemma scan_items_S n s acc :
  scan_items (S n) s acc =
  match scan_value n s with
  | Done v e r =>
      match skip_ws r with
      | c :: r' =>
          if is_char 93 c then Done (JArr (acc ++ [v])) e r'
          else if is_char 44 c then
            if starts 93 (skip_ws r') then Invalid
            else and_exact e (scan_items n (skip_ws r') (acc ++ [v]))
          else Invalid
      | [] => Invalid
      end
  | Invalid => Invalid
  | NoFuel => NoFuel
  end.
Proof. done. Qed.

Lemma scan_members_S n s acc :
  scan_members (S n) s acc =
  match s with
  | q :: s1 =>
      if is_char 34 q then
        match scan_string s1 with
        | Done k ek r1 =>
            match skip_ws r1 with
            | col :: r2 =>
                if is_char 58 col then
                  match scan_value n (skip_ws r2) with
                  | Done v ev r3 =>
                      match skip_ws r3 with
                      | c :: r4 =>
                          if is_char 125 c then
                            Done (JObj (dict_of_pairs (acc ++ [(k, v)]))) (ek && ev) r4
                          else if is_char 44 c then
                            if starts 125 (skip_ws r4) then Invalid
                            else and_exact (ek && ev) (scan_members n (skip_ws r4) (acc ++ [(k, v)]))
                          else Invalid
                      | [] => Invalid
                      end
                  | Invalid => Invalid
                  | NoFuel => NoFuel
                  end
                else Invalid
            | [] => Invalid
            end
        | Invalid => Invalid
        | NoFuel => NoFuel
        end
      else Invalid
  | [] => Invalid
  end.
Proof. done. Qed.

(** A scan that does not run out of fuel gives the same result with
    one unit more. *)
Lemma scan_fuel_succ n :
  (forall s r, scan_value n s = r -> r <> NoFuel -> scan_value (S n) s = r) /\
  (forall s acc r, scan_items n s acc = r -> r <> NoFuel -> scan_items (S n) s acc = r) /\
  (forall s acc r, scan_members n s acc = r -> r <> NoFuel -> scan_members (S n) s acc = r).
Proof.
  induction n as [|n (IHv & IHi & IHm)]; [split; [|split]; intros; subst; done|].
  split; [|split].
  - intros [|c s'] r E Hr; rewrite scan_value_S in E |- *; [done|].
    repeat case_match; subst; try done; [apply IHm | apply IHi]; done.
  - intros s acc r E Hr. rewrite scan_items_S in E |- *.
    destruct (scan_value n s) as [v e r0| |] eqn:Ev; subst; [|by rewrite (IHv _ _ Ev)|done].
    rewrite (IHv _ _ Ev) by done.
    destruct (skip_ws r0) as [|c r']; [done|].
    destruct (is_char 93 c), (is_char 44 c), (starts 93 (skip_ws r')); try done.
    f_equal. apply IHi; [done|]. by eapply and_exact_nofuel.
  - intros [|q s1] acc r E Hr; rewrite scan_members_S in E |- *; [done|].
    destruct (is_char 34 q), (scan_string s1) as [k ek r1| |]; subst; try done.
    destruct (skip_ws r1) as [|col r2]; [done|]. destruct (is_char 58 col); [|done].
    destruct (scan_value n (skip_ws r2)) as [v ev r3| |] eqn:Ev; [|by rewrite (IHv _ _ Ev)|done].
    rewrite (IHv _ _ Ev) by done.
    destruct (skip_ws r3) as [|c r4]; [done|].
    destruct (is_char 125 c), (is_char 44 c), (starts 125 (skip_ws r4)); try done.
    f_equal. apply IHm; [done|]. by eapply and_exact_nofuel.
Qed.

Lemma scan_value_mono n m s :
  n <= m -> scan_value n s <> NoFuel -> scan_value m s = scan_value n s.
Proof.
  intros Hle Hn. induction Hle as [|m _ IH]; [done|].
  by apply (proj1 (scan_fuel_succ m)).
Qed.

(** Two fuels that both suffice give the same result. *)
Lemma scan_value_fuel_irrelevant n m s :
  scan_value n s <> NoFuel -> scan_value m s <> NoFuel -> scan_value n s = scan_value m s.
Proof.
  intros Hn Hm. destruct (Nat.le_ge_cases n m) as [H|H].
  - symmetry. by apply scan_value_mono.
  - by apply scan_value_mono.
Qed.

(** ** Every scan consumes its input *)

Lemma skip_ws_length s : length (skip_ws s) <= length s.
Proof. induction s as [|c s IH]; simpl; [lia|]. destruct (is_ws c); simpl; lia. Qed.

Lemma push_done c r x e rest :
  push c r = Done x e rest -> exists x', r = Done x' e rest.
Proof. destruct r; simpl; [intros [= <- <- <-]; eauto|done|done]. Qed.

Lemma and_exact_done {A} b (r : result A) x e rest :
  and_exact b r = Done x e rest -> exists e', r = Done x e' rest.
Proof. destruct r; simpl; [intros [= <- <- <-]; eauto|done|done]. Qed.

(** [shorter n r]: a scan result whose rest is shorter than [n]. *)
Definition shorter {A} (n : nat) (r : result A) : Prop :=
  forall x e rest, r = Done x e rest -> length rest < n.

Lemma shorter_invalid {A} n : shorter n (@Invalid A).
Proof. by intros ???. Qed.

Lemma shorter_nofuel {A} n : shorter n (@NoFuel A).
Proof. by intros ???. Qed.

Lemma shorter_mono {A} n m (r : result A) : shorter n r -> n <= m -> shorter m r.
Proof. intros H Hnm x e rest Hr. specialize (H _ _ _ Hr). lia. Qed.

Lemma shorter_push n c r : shorter n r -> shorter n (push c r).
Proof. intros H x e rest (? & ?)%push_done. eauto. Qed.

Lemma shorter_and_exact {A} n b (r : result A) : shorter n r -> shorter n (and_exact b r).
Proof. intros H x e rest (? & ?)%and_exact_done. eauto. Qed.

Lemma shorter_map {A B} n (f : A -> B) r : shorter n r -> shorter n (map_result f r).
Proof. intros H x e rest. destruct r; simpl; [intros [= _ _ <-]; eauto|done|done]. Qed.

Lemma shorter_done {A} n (x : A) e rest : length rest < n -> shorter n (Done x e rest).
Proof. by intros ? ??? [= _ _ <-]. Qed.

#[local] Hint Resolve shorter_invalid shorter_nofuel shorter_push shorter_and_exact
  shorter_map : crawl.

Lemma scan_string_shorter s : shorter (length s) (scan_string s).
Proof.
  induction s as [s IH] using (induction_ltof1 _ (@length _)); unfold ltof in IH.
  destruct s as [|c s']; [apply shorter_invalid|]. cbn [scan_string].
  repeat case_match; subst;
    repeat (apply shorter_push || apply shorter_and_exact);
    first [ apply shorter_invalid
          | apply shorter_done; simpl; lia
          | eapply shorter_mono; [apply IH; simpl; lia | simpl; lia] ].
Qed.


Lemma skip_ws_cons s c r : skip_ws s = c :: r -> length r < length s.
Proof. intros H. pose proof (skip_ws_length s) as Hl. rewrite H in Hl. simpl in Hl. lia. Qed.

Lemma span_digits_length s : length (span_digits s).2 <= length s.
Proof.
  induction s as [|c s IH]; simpl; [lia|].
  destruct (is_digit c); [destruct (span_digits s); simpl in *; lia | simpl; lia].
Qed.

Lemma scan_frac_length s : length (scan_frac s).2 <= length s.
Proof.
  destruct s as [|p [|d s']]; simpl; try lia.
  destruct (is_char 46 p && is_digit d); simpl; [pose proof (span_digits_length s')|]; lia.
Qed.

Lemma scan_exp_length s : length (scan_exp s).2 <= length s.
Proof.
  destruct s as [|e s1]; simpl; [lia|].
  destruct (is_char 101 e || is_char 69 e); simpl; [|lia].
  set (s2 := match s1 with sg :: s2 => _ | [] => [] end).
  assert (length s2 <= length s1) by (subst s2; destruct s1 as [|sg t]; simpl; [lia|];
    destruct (is_char 43 sg || is_char 45 sg); simpl; lia).
  pose proof (span_digits_length s2).
  destruct (span_digits s2) as [[|??] r]; simpl in *; lia.
Qed.

Lemma number_end_shorter neg ds r n : length r < n -> shorter n (number_end neg ds r).
Proof.
  intros Hr. unfold number_end.
  pose proof (scan_frac_length r) as H1. destruct (scan_frac r) as [fr r1].
  pose proof (scan_exp_length r1) as H2. destruct (scan_exp r1) as [ex r2].
  simpl in *. destruct (fr || ex); apply shorter_done; lia.
Qed.

Lemma scan_number_shorter s : shorter (length s) (scan_number s).
Proof.
  unfold scan_number. destruct s as [|c s']; [apply shorter_invalid|].
  destruct (is_char 45 c).
  - destruct s' as [|d s2]; [apply shorter_invalid|].
    destruct (is_char 48 d); [apply number_end_shorter; simpl; lia|].
    destruct (is_digit d); [|apply shorter_invalid].
    pose proof (span_digits_length s2). destruct (span_digits s2).
    apply number_end_shorter. simpl in *. lia.
  - destruct (is_char 48 c); [apply number_end_shorter; simpl; lia|].
    destruct (is_digit c); [|apply shorter_invalid].
    pose proof (span_digits_length s'). destruct (span_digits s').
    apply number_end_shorter. simpl in *. lia.
Qed.

Lemma strip_prefix_length w s r : strip_prefix w s = Some r -> length r + length w = length s.
Proof.
  revert s. induction w as [|a w IH]; intros [|c s]; simpl; try done.
  1, 2: intros [= <-]; simpl; lia.
  destruct (Ascii.eqb a c); [intros H%IH; lia | done].
Qed.

Lemma keyword_shorter s r : keyword s = Some r -> shorter (length s) r /\ r <> NoFuel.
Proof.
  unfold keyword, lit. repeat case_match; intros [= <-]; split; try done;
    apply shorter_done;
    match goal with H : strip_prefix _ _ = Some _ |- _ => apply strip_prefix_length in H end;
    simpl in *; lia.
Qed.

(** The three scans consume at least one character, whatever the fuel. *)
Lemma scan_shorter n :
  (forall s, shorter (length s) (scan_value n s)) /\
  (forall s acc, shorter (length s) (scan_items n s acc)) /\
  (forall s acc, shorter (length s) (scan_members n s acc)).
Proof.
  induction n as [|n (IHv & IHi & IHm)]; [split; [|split]; intros; apply shorter_nofuel|].
  split; [|split].
  - intros [|c s']; rewrite scan_value_S; [apply shorter_invalid|].
    repeat case_match;
      repeat match goal with H : skip_ws _ = _ :: _ |- _ => apply skip_ws_cons in H end;
      first [ apply shorter_invalid
            | apply shorter_done; simpl in *; lia
            | apply shorter_map; eapply shorter_mono; [apply scan_string_shorter | simpl; lia]
            | eapply shorter_mono; [apply IHm | simpl in *; lia]
            | eapply shorter_mono; [apply IHi | simpl in *; lia]
            | by apply keyword_shorter
            | apply scan_number_shorter ].
  - intros s acc. rewrite scan_items_S.
    destruct (scan_value n s) as [v e r0| |] eqn:Ev; try apply shorter_invalid; try apply shorter_nofuel.
    pose proof (IHv s _ _ _ Ev) as Hr0.
    destruct (skip_ws r0) as [|c r'] eqn:Hs; [apply shorter_invalid|]. apply skip_ws_cons in Hs.
    destruct (is_char 93 c); [apply shorter_done; lia|].
    destruct (is_char 44 c), (starts 93 (skip_ws r')); try apply shorter_invalid.
    apply shorter_and_exact. eapply shorter_mono; [apply IHi|]. pose proof (skip_ws_length r'). lia.
  - intros [|q s1] acc; rewrite scan_members_S; [apply shorter_invalid|].
    destruct (is_char 34 q); [|apply shorter_invalid].
    destruct (scan_string s1) as [k ek r1| |] eqn:Hk; try apply shorter_invalid; try apply shorter_nofuel.
    pose proof (scan_string_shorter s1 _ _ _ Hk) as Hr1.
    destruct (skip_ws r1) as [|col r2] eqn:Hs1; [apply shorter_invalid|]. apply skip_ws_cons in Hs1.
    destruct (is_char 58 col); [|apply shorter_invalid].
    destruct (scan_value n (skip_ws r2)) as [v ev r3| |] eqn:Ev; try apply shorter_invalid; try apply shorter_nofuel.
    pose proof (IHv _ _ _ _ Ev) as Hr3. pose proof (skip_ws_length r2).
    destruct (skip_ws r3) as [|c r4] eqn:Hs3; [apply shorter_invalid|]. apply skip_ws_cons in Hs3.
    destruct (is_char 125 c); [apply shorter_done; simpl; lia|].
    destruct (is_char 44 c), (starts 125 (skip_ws r4)); try apply shorter_invalid.
    apply shorter_and_exact. eapply shorter_mono; [apply IHm|]. pose proof (skip_ws_length r4). simpl; lia.
Qed.

(** ** The fuel of [loads] is enough *)

Lemma push_fuel c r : r <> NoFuel -> push c r <> NoFuel.
Proof. by destruct r. Qed.

Lemma scan_string_fuel s : scan_string s <> NoFuel.
Proof.
  induction s as [s IH] using (induction_ltof1 _ (@length _)); unfold ltof in IH.
  destruct s as [|c s']; [done|]. cbn [scan_string].
  repeat case_match; subst; repeat (apply push_fuel || apply and_exact_fuel);
    first [done | apply IH; simpl; lia].
Qed.

Lemma number_end_fuel neg ds r : number_end neg ds r <> NoFuel.
Proof. unfold number_end. destruct (scan_frac r), (scan_exp _), (_ || _); done. Qed.

Lemma scan_number_fuel s : scan_number s <> NoFuel.
Proof.
  unfold scan_number. destruct s as [|c s']; [done|].
  destruct (is_char 45 c); [destruct s' as [|d s2]; [done|]|];
    repeat case_match; try done; apply number_end_fuel.
Qed.

Lemma scan_fuel_enough n :
  (forall s, 2 * length s < n -> scan_value n s <> NoFuel) /\
  (forall s acc, 2 * length s + 1 < n -> scan_items n s acc <> NoFuel) /\
  (forall s acc, 2 * length s + 1 < n -> scan_members n s acc <> NoFuel).
Proof.
  induction n as [|n (IHv & IHi & IHm)]; [split; [|split]; intros; lia|].
  split; [|split].
  - intros [|c s'] Hn; rewrite scan_value_S; [done|].
    repeat case_match; try done;
      repeat match goal with H : skip_ws _ = _ :: _ |- _ => apply skip_ws_cons in H end;
      first [ pose proof (scan_string_fuel s'); destruct (scan_string s'); done
            | apply IHm; simpl in *; lia
            | apply IHi; simpl in *; lia
            | eapply keyword_shorter; eassumption
            | apply scan_number_fuel ].
  - intros s acc Hn. rewrite scan_items_S.
    destruct (scan_value n s) as [v e r0| |] eqn:Ev; [| done | exfalso; apply (IHv s); [lia | done]].
    pose proof (proj1 (scan_shorter n) s _ _ _ Ev) as Hr0.
    destruct (skip_ws r0) as [|c r'] eqn:Hs; [done|]. apply skip_ws_cons in Hs.
    destruct (is_char 93 c), (is_char 44 c), (starts 93 (skip_ws r')); try done.
    apply and_exact_fuel, IHi. pose proof (skip_ws_length r'). lia.
  - intros [|q s1] acc Hn; rewrite scan_members_S; [done|].
    destruct (is_char 34 q); [|done].
    destruct (scan_string s1) as [k ek r1| |] eqn:Hk; [| done | by apply scan_string_fuel in Hk].
    pose proof (scan_string_shorter s1 _ _ _ Hk) as Hr1.
    destruct (skip_ws r1) as [|col r2] eqn:Hs1; [done|]. apply skip_ws_cons in Hs1.
    destruct (is_char 58 col); [|done]. pose proof (skip_ws_length r2).
    destruct (scan_value n (skip_ws r2)) as [v ev r3| |] eqn:Ev;
      [| done | exfalso; apply (IHv (skip_ws r2)); [simpl in *; lia | done]].
    pose proof (proj1 (scan_shorter n) _ _ _ _ Ev) as Hr3.
    destruct (skip_ws r3) as [|c r4] eqn:Hs3; [done|]. apply skip_ws_cons in Hs3.
    destruct (is_char 125 c), (is_char 44 c), (starts 125 (skip_ws r4)); try done.
    apply and_exact_fuel, IHm. pose proof (skip_ws_length r4). simpl in *. lia.
Qed.

(** ** Properties of [loads] *)



End Scanner.
