(* ===== verification/Roundtrip.v ===== *)
(** * [json.load] reads back what [json.dump] wrote

    [dumps_at] ([Json]) prints a value as [json.dumps(v, indent=4)]
    does, and [Scanner.scan_value] reads a text as [json.load] does.
    This file proves that scanning a printed value followed by any
    text [r] gives the value back and leaves [r]. The one change is a
    dict with a repeated key, which [json.load] rebuilds with the last
    value for that key ([norm]). Three results follow:
    - [loads (dumps v)] is [v] for every value whose dicts have
      distinct keys;
    - every value [loads] returns has dicts with distinct keys, so
      dumping it and loading it again gives it back;
    - a printed value followed by extra data, i.e. a text that is not
      blank and cannot continue a number, is refused. The file [main]
      writes is of this form ([Pipeline]). *)

From S2P Require Import Prelude Web Json Scanner.
From Stdlib Require Import DecimalString DecimalPos DecimalZ DecimalFacts.

Module Roundtrip.
Import Json Scanner.

Abbreviation L := String.list_ascii_of_string.

(** The value [json.load] builds for the text of [v]: every dict is
    rebuilt pair by pair, so a repeated key keeps its last value. *)
Fixpoint norm (v : json) : json :=
  match v with
  | JArr l => JArr (map norm l)
  | JObj kvs => JObj (dict_of_pairs (map (fun '(k, x) => (k, norm x)) kvs))
  | _ => v
  end.

(** A bound on the fuel a printed value needs. *)
Fixpoint jsize (v : json) : nat :=
  match v with
  | JArr l => S (length l + list_sum (map jsize l))
  | JObj kvs => S (length kvs + list_sum (map (fun '(_, x) => jsize x) kvs))
  | _ => 1
  end.

(** Every dict of the value has distinct keys, as every dict Python
    builds has. *)
Fixpoint keys_distinct (v : json) : bool :=
  match v with
  | JArr l => forallb keys_distinct l
  | JObj kvs => bool_decide (NoDup (map fst kvs)) && forallb (fun '(_, x) => keys_distinct x) kvs
  | _ => true
  end.

(** A rest that cannot continue a number: it does not start with a
    digit, a point, or an exponent letter. *)
Definition num_stop (r : list ascii) : bool :=
  match r with
  | [] => true
  | c :: _ => negb (is_digit c || is_char 46 c || is_char 101 c || is_char 69 c)
  end.

(** ** Integers *)

Lemma uint_digits d : Forall (fun c => is_digit c = true) (L (NilEmpty.string_of_uint d)).
Proof. induction d; simpl; constructor; done. Qed.

Lemma span_digits_app ds r :
  Forall (fun c => is_digit c = true) ds -> num_stop r = true -> span_digits (ds ++ r) = (ds, r).
Proof.
  intros Hds Hr. induction Hds as [|c ds Hc _ IH]; simpl.
  - destruct r as [|c r]; [done|]. simpl in Hr |- *. by destruct (is_digit c); simpl in Hr.
  - by rewrite Hc, IH.
Qed.

Lemma digits_acc d p :
  fold_left digit_step (L (NilEmpty.string_of_uint d)) (Zpos p) = Zpos (Pos.of_uint_acc d p).
Proof.
  revert p. induction d; intros p; simpl; try done;
    match goal with |- fold_left _ _ (digit_step (Zpos p) ?c) = Zpos (Pos.of_uint_acc _ ?q) =>
      replace (digit_step (Zpos p) c) with (Zpos q) by (unfold digit_step; simpl; lia); apply IHd
    end.
Qed.

Lemma digits_value_uint d : digits_value (L (NilEmpty.string_of_uint d)) = Z.of_uint d.
Proof.
  unfold digits_value, Z.of_uint. induction d; simpl; try done;
    match goal with |- context [digit_step 0%Z ?c] =>
      let v := eval vm_compute in (digit_step 0%Z c) in change (digit_step 0%Z c) with v
    end; first [exact IHd | by rewrite digits_acc].
Qed.

Lemma nzhead_not_D0 u v : Decimal.nzhead u <> Decimal.D0 v.
Proof. induction u; simpl; congruence. Qed.

(** The decimal digits of a positive number do not start with zero. *)
Lemma to_uint_head p :
  exists c ds, L (NilZero.string_of_uint (Pos.to_uint p)) = c :: ds /\
    is_digit c = true /\ is_char 48 c = false /\ Forall (fun c => is_digit c = true) ds /\
    digits_value (c :: ds) = Z.of_uint (Pos.to_uint p).
Proof.
  pose proof (DecimalPos.Unsigned.to_uint_nonnil p) as Hnil.
  pose proof (DecimalPos.Unsigned.to_uint_nonzero p) as Hz.
  assert (Hn : Pos.to_uint p = Decimal.unorm (Pos.to_uint p)).
  { rewrite <- DecimalPos.Unsigned.to_of, DecimalPos.Unsigned.of_to. done. }
  pose proof (uint_digits (Pos.to_uint p)) as Hd.
  destruct (Pos.to_uint p) as [|u|u|u|u|u|u|u|u|u|u]; try done.
  2-10: inversion Hd; subst; eexists _, _; split; [reflexivity|];
    split; [done|]; split; [done|]; split; [done|];
    match goal with |- _ = Z.of_uint ?d => exact (digits_value_uint d) end.
  exfalso. rewrite unorm_D0 in Hn. unfold Decimal.unorm in Hn.
  destruct (Decimal.nzhead u) eqn:E; try congruence.
  exact (nzhead_not_D0 u _ E).
Qed.

Lemma keyword_digit c t : is_digit c = true -> keyword (c :: t) = None.
Proof. destruct c as [[] [] [] [] [] [] [] []]; done. Qed.

Lemma keyword_minus_digit c t : is_digit c = true -> keyword ("-"%char :: c :: t) = None.
Proof. destruct c as [[] [] [] [] [] [] [] []]; done. Qed.

Lemma number_end_stop neg ds r :
  num_stop r = true ->
  number_end neg ds r = Done (JInt (if neg then - digits_value ds else digits_value ds)%Z) true r.
Proof.
  intros Hr. unfold number_end, scan_frac, scan_exp.
  destruct r as [|c r]; [done|]. simpl in Hr.
  destruct (is_digit c) eqn:E1, (is_char 46 c) eqn:E2, (is_char 101 c) eqn:E3, (is_char 69 c) eqn:E4;
    try done.
  destruct r; simpl; rewrite ?E2, ?E3, ?E4; done.
Qed.

Lemma digit_is_char c n : is_digit c = true -> (n < 48 \/ 57 < n)%nat -> is_char n c = false.
Proof.
  unfold is_digit, is_char. intros [H1 H2]%andb_prop Hn.
  apply Nat.leb_le in H1, H2. apply Nat.eqb_neq. lia.
Qed.

(** An integer printed by [int.__repr__] and followed by a text that
    cannot continue it is read back. *)
Lemma scan_value_int z n r :
  num_stop r = true -> scan_value (S n) (L (int_repr z) ++ r) = Done (JInt z) true r.
Proof.
  intros Hr. rewrite <- (DecimalZ.of_to z) at 2. unfold int_repr.
  destruct z as [|p|p]; simpl Z.to_int.
  - rewrite scan_value_S. simpl. unfold scan_number. simpl. by rewrite number_end_stop.
  - destruct (to_uint_head p) as (c & ds & Hs & Hc & H0 & Hds & Hv).
    change (NilZero.string_of_int (Decimal.Pos (Pos.to_uint p))) with (NilZero.string_of_uint (Pos.to_uint p)).
    rewrite Hs, scan_value_S. simpl app. cbv beta iota.
    rewrite !(digit_is_char c) by (done || lia). rewrite keyword_digit by done.
    unfold scan_number. rewrite (digit_is_char c 45), H0, Hc by (done || lia).
    rewrite span_digits_app by done. rewrite number_end_stop by done. by rewrite Hv.
  - destruct (to_uint_head p) as (c & ds & Hs & Hc & H0 & Hds & Hv).
    change (NilZero.string_of_int (Decimal.Neg (Pos.to_uint p)))
      with (String.String "-" (NilZero.string_of_uint (Pos.to_uint p))).
    cbn [String.list_ascii_of_string]. rewrite Hs, scan_value_S. simpl app.
    cbn [is_char code]. simpl Nat.eqb. cbv iota beta.
    rewrite keyword_minus_digit by done.
    unfold scan_number. simpl. rewrite H0, Hc.
    rewrite span_digits_app by done. rewrite number_end_stop by done. by rewrite Hv.
Qed.

(** ** Strings *)

Lemma concat_cons2 sep (x y : string) l :
  String.concat sep (x :: y :: l) = (x ++ sep ++ String.concat sep (y :: l))%string.
Proof. done. Qed.

Lemma concat_map_cons2 {A} sep (f : A -> string) x y l :
  String.concat sep (map f (x :: y :: l)) = (f x ++ sep ++ String.concat sep (map f (y :: l)))%string.
Proof. done. Qed.

Lemma las_concat_nil (l : list string) : L (String.concat "" l) = List.concat (map L l).
Proof.
  induction l as [|x [|y l] IH]; [done | simpl; by rewrite List.app_nil_r |].
  rewrite concat_cons2, !las_app, IH. done.
Qed.

(** One escaped character is read back as that character. *)
Lemma escape_char_scan c t :
  t <> [] -> scan_string (L (escape_char c) ++ t) = push c (scan_string t).
Proof. destruct t as [|x t]; [done|]. intros _. destruct c as [[] [] [] [] [] [] [] []]; reflexivity. Qed.

Lemma scan_escaped cs r :
  scan_string (List.concat (map L (map escape_char cs)) ++ "034"%char :: r) =
  Done (String.string_of_list_ascii cs) true r.
Proof.
  induction cs as [|c cs IH]; [done|]. simpl. rewrite <- app_assoc, escape_char_scan, IH; [done|].
  by destruct (List.concat _).
Qed.

(** A string printed by [json.dumps] is read back. *)
Lemma scan_value_str s n r :
  scan_value (S n) (L (encode_str s) ++ r) = Done (JStr s) true r.
Proof.
  unfold encode_str. rewrite !las_app, las_concat_nil. simpl.
  rewrite <- app_assoc. simpl. by rewrite scan_escaped, String.string_of_list_ascii_of_string.
Qed.

(** ** Layout *)

(** One member of a printed dict. *)
Definition item (level : nat) (kv : string * json) : string :=
  let '(k, x) := kv in (encode_str k ++ ": " ++ dumps_at (S level) x)%string.

Lemma dumps_arr_eq level x l :
  dumps_at level (JArr (x :: l)) =
  ("[" ++ newline_indent (S level) ++
   String.concat ("," ++ newline_indent (S level)) (map (dumps_at (S level)) (x :: l)) ++
   newline_indent level ++ "]")%string.
Proof. done. Qed.

Lemma dumps_obj_eq level kv kvs :
  dumps_at level (JObj (kv :: kvs)) =
  ("{" ++ newline_indent (S level) ++
   String.concat ("," ++ newline_indent (S level)) (map (item level) (kv :: kvs)) ++
   newline_indent level ++ "}")%string.
Proof.
  cbn [dumps_at]. do 4 f_equal. destruct kv as [k x]. cbn [map item]. f_equal.
  induction kvs as [|[k' x'] kvs IH]; [done|]. cbn. by rewrite IH.
Qed.

Lemma newline_indent_ws k : Forall (fun c => is_ws c = true) (L (newline_indent k)).
Proof.
  unfold newline_indent. rewrite las_app, las_concat_nil. apply Forall_app. split; [by repeat constructor|].
  induction k as [|k IH]; simpl; [constructor|]. by repeat constructor.
Qed.

Lemma skip_ws_ws w r : Forall (fun c => is_ws c = true) w -> skip_ws (w ++ r) = skip_ws r.
Proof. induction 1 as [|c w Hc _ IH]; simpl; [done|]. by rewrite Hc. Qed.

Lemma newline_indent_head k : exists t, L (newline_indent k) = "010"%char :: t.
Proof. by eexists. Qed.

(** A text whose first character is not whitespace and not the
    character of code [n]. *)
Definition head_ok (n : nat) (u : list ascii) : bool :=
  match u with
  | c :: _ => negb (is_ws c) && negb (is_char n c)
  | [] => false
  end.

Lemma head_ok_skip n u : head_ok n u = true -> skip_ws u = u.
Proof. destruct u as [|c u]; simpl; [done|]. destruct (is_ws c); done. Qed.

Lemma head_ok_starts n u : head_ok n u = true -> starts n u = false.
Proof. destruct u as [|c u]; simpl; [done|]. destruct (is_ws c), (is_char n c); done. Qed.

Lemma head_ok_app n u w : head_ok n u = true -> head_ok n (u ++ w) = true.
Proof. by destruct u. Qed.

Lemma head_ok_concat n sep a l :
  head_ok n (L a) = true -> head_ok n (L (String.concat sep (a :: l))) = true.
Proof.
  destruct l as [|b l]; [done|]. rewrite concat_cons2, !las_app. apply head_ok_app.
Qed.

Lemma dumps_head k v n :
  (n = 93 \/ n = 125)%nat -> head_ok n (L (dumps_at k v)) = true.
Proof.
  intros Hn. destruct v as [| [] | z | s | [|x l] | [|kv kvs]]; try (destruct Hn as [-> | ->]; done).
  unfold dumps_at. destruct z as [|p|p]; [by destruct Hn as [-> | ->]| |by destruct Hn as [-> | ->]].
  destruct (to_uint_head p) as (c & ds & Hs & Hc & _).
  change (L (int_repr (Zpos p))) with (L (NilZero.string_of_uint (Pos.to_uint p))). rewrite Hs. simpl.
  unfold is_ws. rewrite !(digit_is_char c) by (done || lia). done.
Qed.

(** The step from an opening bracket into the loops. *)
Lemma scan_open_arr n k u :
  head_ok 93 u = true -> scan_value (S n) ("["%char :: L (newline_indent k) ++ u) = scan_items n u [].
Proof.
  intros H. rewrite scan_value_S. cbn [is_char code Nat.eqb]. cbv iota beta.
  simpl Ascii.nat_of_ascii. cbn [Nat.eqb]. rewrite skip_ws_ws by apply newline_indent_ws.
  rewrite (head_ok_skip _ _ H). destruct u as [|c t]; [done|]. simpl in H.
  destruct (is_char 93 c); [by rewrite andb_false_r in H | done].
Qed.

Lemma scan_open_obj n k u :
  head_ok 125 u = true -> scan_value (S n) ("{"%char :: L (newline_indent k) ++ u) = scan_members n u [].
Proof.
  intros H. rewrite scan_value_S. simpl Ascii.nat_of_ascii. cbn [is_char code Nat.eqb]. cbv iota beta.
  rewrite skip_ws_ws by apply newline_indent_ws.
  rewrite (head_ok_skip _ _ H). destruct u as [|c t]; [done|]. simpl in H.
  destruct (is_char 125 c); [by rewrite andb_false_r in H | done].
Qed.

(** What the induction on values gives for one printed value. *)
Definition printed_ok (level : nat) (v : json) : Prop :=
  forall n r, jsize v < n -> num_stop r = true ->
  scan_value n (L (dumps_at level v) ++ r) = Done (norm v) true r.

Lemma las_sep k c : L (("," ++ newline_indent k) ++ c) = ","%char :: L (newline_indent k) ++ L c.
Proof. by rewrite !las_app. Qed.

Lemma skip_ws_comma u : skip_ws (","%char :: u) = ","%char :: u.
Proof. done. Qed.

Lemma las_close_head k (c : string) u :
  L (newline_indent k ++ c) ++ u = "010"%char :: L (String.concat "" (repeat "    " k)) ++ L c ++ u.
Proof. unfold newline_indent. rewrite !las_app, <- !app_assoc. reflexivity. Qed.

Lemma skip_ws_close k c u :
  skip_ws (L (newline_indent k ++ String.String c EmptyString) ++ u) =
  skip_ws (c :: u).
Proof. rewrite las_app, <- app_assoc. by rewrite skip_ws_ws by apply newline_indent_ws. Qed.

(** The loop of the array parser over the printed items. *)
Lemma scan_items_dumps level l acc n r :
  Forall (printed_ok (S level)) l -> l <> [] ->
  length l + list_sum (map jsize l) < n ->
  scan_items n (L (String.concat ("," ++ newline_indent (S level)) (map (dumps_at (S level)) l)) ++
                L (newline_indent level ++ "]") ++ r) acc =
  Done (JArr (acc ++ map norm l)) true r.
Proof.
  revert acc n. induction l as [|x [|y l] IH]; intros acc n Hok Hne Hn; [done| |].
  - apply Forall_cons in Hok as [Hx _]. destruct n as [|n]; [simpl in Hn; lia|].
    rewrite scan_items_S. cbn [map String.concat].
    rewrite Hx; [| simpl in Hn; lia | by rewrite las_close_head].
    rewrite (skip_ws_close level "]"). done.
  - apply Forall_cons in Hok as [Hx Hl]. destruct n as [|n]; [simpl in Hn; lia|].
    rewrite scan_items_S, concat_map_cons2, las_app, <- app_assoc.
    rewrite Hx; [| simpl in Hn; lia | by rewrite las_sep].
    rewrite las_sep, <- app_comm_cons, skip_ws_comma.
    change (is_char 93 ",") with false. change (is_char 44 ",") with true. cbv iota beta.
    rewrite <- app_assoc, skip_ws_ws by apply newline_indent_ws.
    assert (Hh : head_ok 93 (L (String.concat ("," ++ newline_indent (S level)) (map (dumps_at (S level)) (y :: l))) ++
                            L (newline_indent level ++ "]") ++ r) = true).
    { apply head_ok_app, head_ok_concat, dumps_head. by left. }
    rewrite (head_ok_skip _ _ Hh), (head_ok_starts _ _ Hh).
    rewrite IH; [| done | done | simpl in *; lia].
    simpl. by rewrite <- app_assoc.
Qed.

Lemma las_item level k x u :
  L (item level (k, x)) ++ u =
  "034"%char :: List.concat (map L (map escape_char (L k))) ++
    "034"%char :: ":"%char :: " "%char :: L (dumps_at (S level) x) ++ u.
Proof.
  cbn [item]. unfold encode_str. rewrite !las_app, las_concat_nil, <- !app_assoc. reflexivity.
Qed.

Lemma item_head level kv : head_ok 125 (L (item level kv)) = true.
Proof. destruct kv as [k x]. rewrite <- (List.app_nil_r (L _)), las_item. done. Qed.

(** One member of a printed dict: its key, the colon, its value, and
    what the parser does next. *)
Lemma scan_member_step level k x n u acc :
  printed_ok (S level) x -> jsize x < n -> num_stop u = true ->
  scan_members (S n) (L (item level (k, x)) ++ u) acc =
  match skip_ws u with
  | c :: r4 =>
      if is_char 125 c then Done (JObj (dict_of_pairs (acc ++ [(k, norm x)]))) true r4
      else if is_char 44 c then
        if starts 125 (skip_ws r4) then Invalid
        else and_exact true (scan_members n (skip_ws r4) (acc ++ [(k, norm x)]))
      else Invalid
  | [] => Invalid
  end.
Proof.
  intros Hx Hn Hu. rewrite las_item, scan_members_S.
  change (is_char 34 "034") with true. cbv iota beta.
  rewrite scan_escaped, String.string_of_list_ascii_of_string.
  change (skip_ws (":"%char :: _)) with (":"%char :: " "%char :: L (dumps_at (S level) x) ++ u).
  change (is_char 58 ":") with true. cbv iota beta.
  change (skip_ws (" "%char :: ?t)) with (skip_ws t).
  assert (Hh : head_ok 125 (L (dumps_at (S level) x) ++ u) = true).
  { apply head_ok_app, dumps_head. by right. }
  rewrite (head_ok_skip _ _ Hh), Hx by done. done.
Qed.

(** The loop of the dict parser over the printed members. *)
Lemma scan_members_dumps level kvs acc n r :
  Forall (fun kv => printed_ok (S level) kv.2) kvs -> kvs <> [] ->
  length kvs + list_sum (map (fun '(_, x) => jsize x) kvs) < n ->
  scan_members n (L (String.concat ("," ++ newline_indent (S level)) (map (item level) kvs)) ++
                  L (newline_indent level ++ "}") ++ r) acc =
  Done (JObj (dict_of_pairs (acc ++ map (fun '(k, x) => (k, norm x)) kvs))) true r.
Proof.
  revert acc n. induction kvs as [|[k x] [|kv' kvs] IH]; intros acc n Hok Hne Hn; [done| |].
  - apply Forall_cons in Hok as [Hx _]. destruct n as [|n]; [simpl in Hn; lia|].
    cbn [map String.concat]. rewrite scan_member_step; [| done | simpl in Hn; lia | by rewrite las_close_head].
    by rewrite (skip_ws_close level "}").
  - apply Forall_cons in Hok as [Hx Hl]. destruct n as [|n]; [simpl in Hn; lia|].
    rewrite concat_map_cons2, las_app, <- app_assoc.
    rewrite scan_member_step; [| done | simpl in Hn; lia | by rewrite las_sep].
    rewrite las_sep, <- app_comm_cons, skip_ws_comma.
    change (is_char 125 ",") with false. change (is_char 44 ",") with true. cbv iota beta.
    rewrite <- app_assoc, skip_ws_ws by apply newline_indent_ws.
    assert (Hh : head_ok 125 (L (String.concat ("," ++ newline_indent (S level)) (map (item level) (kv' :: kvs))) ++
                             L (newline_indent level ++ "}") ++ r) = true).
    { apply head_ok_app, head_ok_concat, item_head. }
    rewrite (head_ok_skip _ _ Hh), (head_ok_starts _ _ Hh).
    rewrite IH; [| done | done | simpl in *; lia].
    simpl. by rewrite <- app_assoc.
Qed.

Lemma las_open (b : ascii) k c y r :
  L (String.String b EmptyString ++ newline_indent k ++ c ++ y) ++ r =
  b :: L (newline_indent k) ++ L c ++ L y ++ r.
Proof.
  change (String.String b EmptyString ++ ?X)%string with (String.String b X).
  cbn [String.list_ascii_of_string]. rewrite (las_app (newline_indent k)), (las_app c), <- ?app_assoc.
  by rewrite <- app_comm_cons, <- !app_assoc.
Qed.

(** Scanning a printed value followed by a text that cannot continue
    it gives the value, dicts rebuilt, and leaves the text. *)
Lemma scan_dumps v : forall level, printed_ok level v.
Proof.
  induction v as [| b | z | s | l IH | kvs IH] using json_ind'; intros level n r Hn Hr;
    (destruct n as [|n]; [simpl in Hn; lia|]).
  - reflexivity.
  - by destruct b.
  - by apply scan_value_int.
  - apply scan_value_str.
  - destruct l as [|x l]; [reflexivity|].
    rewrite dumps_arr_eq, las_open, scan_open_arr.
    + rewrite scan_items_dumps; [done | | done | simpl in *; lia].
      eapply Forall_impl; [exact IH | intros w Hw; apply Hw].
    + apply head_ok_app, head_ok_concat, dumps_head. by left.
  - destruct kvs as [|[k x] kvs]; [reflexivity|].
    rewrite dumps_obj_eq, las_open, scan_open_obj.
    + rewrite scan_members_dumps; [done | | done | simpl in *; lia].
      eapply Forall_impl; [exact IH | intros [k' w] Hw; apply Hw].
    + apply head_ok_app, head_ok_concat, item_head.
Qed.

(** [loads] on a printed value, followed by a text [t] that cannot
    continue it, scans the value and then looks at [t]. *)
Lemma loads_dumps_app v t :
  num_stop (L t) = true ->
  loads (dumps v ++ t) =
  match skip_ws (L t) with
  | [] => Web.Ok (norm v)
  | _ :: _ => Web.Raise Web.JSONDecodeError
  end.
Proof.
  intros Ht. unfold loads, dumps. rewrite las_app.
  assert (Hh : head_ok 93 (L (dumps_at 0 v) ++ L t) = true).
  { apply head_ok_app, dumps_head. by left. }
  rewrite (head_ok_skip _ _ Hh).
  pose proof (scan_dumps v 0 (S (jsize v)) (L t) ltac:(lia) Ht) as Hs.
  rewrite (scan_value_fuel_irrelevant _ (S (jsize v))); [rewrite Hs | | by rewrite Hs].
  - by destruct (skip_ws (L t)).
  - apply (proj1 (scan_fuel_enough _)). rewrite length_app. lia.
Qed.

(** ** Dicts *)

Lemma dict_set_new k v d : k ∉ map fst d -> dict_set k v d = d ++ [(k, v)].
Proof.
  induction d as [|[k' v'] d IH]; simpl; [done|]. intros Hk.
  destruct (String.eqb_spec k k') as [->|]; [by destruct Hk; left|].
  rewrite IH; [done|]. intros ?. apply Hk. by right.
Qed.

Lemma dict_of_pairs_app d kvs :
  NoDup (map fst (d ++ kvs)) -> fold_left (fun d '(k, v) => dict_set k v d) kvs d = d ++ kvs.
Proof.
  revert d. induction kvs as [|[k v] kvs IH]; intros d Hnd; simpl; [by rewrite List.app_nil_r|].
  rewrite dict_set_new.
  - rewrite IH; [by rewrite <- app_assoc|]. by rewrite <- app_assoc.
  - rewrite map_app in Hnd. simpl in Hnd. apply NoDup_app in Hnd as (_ & Hd & _).
    intros Hk. apply (Hd k); [done|]. by left.
Qed.

(** A dict with distinct keys is rebuilt as it is. *)
Lemma dict_of_pairs_nodup kvs : NoDup (map fst kvs) -> dict_of_pairs kvs = kvs.
Proof. intros H. exact (dict_of_pairs_app [] kvs H). Qed.

Lemma norm_id v : keys_distinct v = true -> norm v = v.
Proof.
  induction v as [| | | | l IH | kvs IH] using json_ind'; simpl; try done.
  - intros Hl. f_equal. induction IH as [|x l Hx _ IHl]; [done|].
    simpl in Hl. apply andb_prop in Hl as [Hx' Hl']. simpl. rewrite Hx, IHl; done.
  - intros [Hnd%bool_decide_eq_true Hall]%andb_prop. f_equal.
    assert (Hm : map (fun '(k, x) => (k, norm x)) kvs = kvs).
    { clear Hnd. induction IH as [|[k x] kvs Hx _ IHk]; [done|].
      simpl in Hall. apply andb_prop in Hall as [Hx' Hall']. simpl in Hx |- *. rewrite Hx, IHk; done. }
    rewrite Hm. by apply dict_of_pairs_nodup.
Qed.

(** ** Every value [loads] returns has dicts with distinct keys *)

Definition dict_ok (d : list (string * json)) : Prop :=
  NoDup (map fst d) /\ Forall (fun kv => keys_distinct kv.2 = true) d.

Lemma dict_set_fst k v d : map fst (dict_set k v d) = if bool_decide (k ∈ map fst d) then map fst d else map fst d ++ [k].
Proof.
  induction d as [|[k' v'] d IH]; simpl; [done|].
  destruct (String.eqb_spec k k') as [->|Hne].
  - rewrite bool_decide_true; [done | by left].
  - simpl. rewrite IH. destruct (bool_decide (k ∈ map fst d)) eqn:E.
    + apply bool_decide_eq_true in E. rewrite bool_decide_true; [done | by right].
    + apply bool_decide_eq_false in E. rewrite bool_decide_false; [done|].
      intros [? | ?]%elem_of_cons; [congruence | done].
Qed.

Lemma dict_set_ok k v d : dict_ok d -> keys_distinct v = true -> dict_ok (dict_set k v d).
Proof.
  intros [Hnd Hall] Hv. split.
  - rewrite dict_set_fst. case_bool_decide; [done|].
    apply NoDup_app. split; [done|]. split; [|by apply NoDup_singleton].
    intros x Hx ->%list_elem_of_singleton. done.
  - clear Hnd. induction Hall as [|[k' v'] d Hkv Hd IH]; simpl; [by constructor|].
    destruct (String.eqb k k'); constructor; done.
Qed.

Lemma dict_of_pairs_ok kvs : Forall (fun kv => keys_distinct kv.2 = true) kvs -> dict_ok (dict_of_pairs kvs).
Proof.
  unfold dict_of_pairs. assert (H0 : dict_ok []) by (split; constructor).
  revert H0. generalize (@nil (string * json)) as d.
  induction kvs as [|[k v] kvs IH]; intros d Hd Hall; simpl; [done|].
  apply Forall_cons in Hall as [Hv Hall]. apply IH; [|done]. by apply dict_set_ok.
Qed.

Lemma keys_distinct_obj kvs : dict_ok kvs -> keys_distinct (JObj kvs) = true.
Proof.
  intros [Hnd Hall]. simpl. rewrite bool_decide_true by done. simpl.
  induction Hall as [|[k x] kvs Hx _ IH]; [done|]. simpl in *. rewrite Hx. apply IH.
  by apply NoDup_cons in Hnd as [_ ?].
Qed.

Lemma keyword_scalar s v e r : keyword s = Some (Done v e r) -> keys_distinct v = true.
Proof. unfold keyword. repeat case_match; intros [= <-]; done. Qed.

Lemma number_end_scalar neg ds t v e r : number_end neg ds t = Done v e r -> keys_distinct v = true.
Proof. unfold number_end. destruct (scan_frac t), (scan_exp _), (_ || _); by intros [= <- _ _]. Qed.

Lemma scan_number_scalar s v e r : scan_number s = Done v e r -> keys_distinct v = true.
Proof.
  unfold scan_number. destruct s as [|c s']; [done|].
  destruct (is_char 45 c); [destruct s' as [|d s2]; [done|]|];
    repeat case_match; try done; apply number_end_scalar.
Qed.

Lemma scan_keys n :
  (forall s v e r, scan_value n s = Done v e r -> keys_distinct v = true) /\
  (forall s acc v e r, forallb keys_distinct acc = true -> scan_items n s acc = Done v e r ->
     keys_distinct v = true) /\
  (forall s acc v e r, Forall (fun kv => keys_distinct kv.2 = true) acc ->
     scan_members n s acc = Done v e r -> keys_distinct v = true).
Proof.
  induction n as [|n (IHv & IHi & IHm)]; [split; [|split]; done|].
  split; [|split].
  - intros [|c s'] v e r; rewrite scan_value_S; [done|].
    repeat case_match; try done; subst;
      first [ destruct (scan_string s'); by intros [= <- _ _]
            | by intros [= <- _ _]
            | apply IHm; by apply List.Forall_nil
            | apply IHi; done
            | match goal with H : keyword _ = Some _ |- _ => intros ->; exact (keyword_scalar _ _ _ _ H) end
            | apply scan_number_scalar ].
  - intros s acc v e r Hacc. rewrite scan_items_S.
    destruct (scan_value n s) as [x ex r0| |] eqn:Ev; try done.
    pose proof (IHv _ _ _ _ Ev) as Hx.
    assert (Hacc' : forallb keys_distinct (acc ++ [x]) = true) by (rewrite forallb_app; simpl; by rewrite Hacc, Hx).
    destruct (skip_ws r0) as [|c r']; [done|].
    destruct (is_char 93 c); [intros [= <- _ _]; done|].
    destruct (is_char 44 c), (starts 93 (skip_ws r')); try done.
    intros (? & ?)%and_exact_done. by eapply IHi.
  - intros [|q s1] acc v e r Hacc; rewrite scan_members_S; [done|].
    destruct (is_char 34 q), (scan_string s1) as [k ek r1| |]; try done.
    destruct (skip_ws r1) as [|col r2]; [done|]. destruct (is_char 58 col); [|done].
    destruct (scan_value n (skip_ws r2)) as [x ex r3| |] eqn:Ev; try done.
    pose proof (IHv _ _ _ _ Ev) as Hx.
    assert (Hacc' : Forall (fun kv => keys_distinct kv.2 = true) (acc ++ [(k, x)]))
      by (apply Forall_app; split; [done | by constructor]).
    destruct (skip_ws r3) as [|c r4]; [done|].
    destruct (is_char 125 c); [intros [= <- _ _]; by apply keys_distinct_obj, dict_of_pairs_ok|].
    destruct (is_char 44 c), (starts 125 (skip_ws r4)); try done.
    intros (? & ?)%and_exact_done. by eapply IHm.
Qed.

(** ** Properties of [loads] and [dumps] *)

(** [json.load] of the text of any value gives the value with its dicts
    rebuilt. *)
Lemma loads_dumps_norm v : loads (dumps v) = Web.Ok (norm v).
Proof. rewrite <- (str_app_nil_r (dumps v)), loads_dumps_app; done. Qed.

(** C27. Round trip: [json.load] reads back exactly the value
    [json.dump] wrote, for every value whose dicts have distinct keys
    (every value Python builds). *)
Theorem loads_dumps v : keys_distinct v = true -> loads (dumps v) = Web.Ok v.
Proof. intros H. by rewrite loads_dumps_norm, norm_id. Qed.

(** Every dict [json.load] returns has distinct keys. *)
Lemma loads_ok_keys text v : loads text = Web.Ok v -> keys_distinct v = true.
Proof.
  unfold loads. destruct (scan_value _ _) as [x e r| |] eqn:E; try done.
  destruct (skip_ws r), e; try done. intros [= <-]. exact (proj1 (scan_keys _) _ _ _ _ E).
Qed.

(** C28. Type of the loaded values: every dict [json.load] returns has
    distinct keys (a repeated key of the text keeps only its last
    value), so dumping a loaded value and loading it again gives it
    back. *)
Theorem loads_dump_stable text v :
  loads text = Web.Ok v -> keys_distinct v = true /\ loads (dumps v) = Web.Ok v.
Proof.
  intros H%loads_ok_keys. split; [done|]. by rewrite loads_dumps_norm, norm_id.
Qed.

(** C29. Extra data after a value is refused. Take a printed value
    followed by a text [t] that is not blank and does not continue a
    number, i.e. [t] does not start with a digit, ['.'], ['e'] or
    ['E']. Then [json.load] raises [JSONDecodeError] ("Extra data"). A
    comma, a bracket or a second document after the first are all such
    texts. *)
Theorem loads_rejects_extra_data v t :
  num_stop (L t) = true -> skip_ws (L t) <> [] -> loads (dumps v ++ t) = Web.Raise Web.JSONDecodeError.
Proof. intros Hs Hw. rewrite loads_dumps_app by exact Hs. by destruct (skip_ws (L t)). Qed.

Definition sample_doc : json :=
  JObj [("title", JStr "Topic 1");
        ("chat", JArr [JObj [("author", JStr "alice"); ("date", JStr "Fri"); ("content", JStr ("a" ++ chr 34 ++ "b" ++ chr 10))];
                      JInt (-42); JBool true; JNull; JArr []; JObj []])].

Lemma loads_dumps_witness : keys_distinct sample_doc = true /\ loads (dumps sample_doc) = Web.Ok sample_doc.
Proof. split; [reflexivity | apply loads_dumps; reflexivity]. Defined.

Lemma loads_rejects_extra_data_witness :
  loads (dumps sample_doc ++ ", " ++ dumps (JArr [])) = Web.Raise Web.JSONDecodeError.
Proof. apply loads_rejects_extra_data; vm_compute; [reflexivity | discriminate]. Defined.

Lemma loads_dump_stable_witness :
  let q := chr 34 in
  let text := ("{" ++ q ++ "a" ++ q ++ ": 1, " ++ q ++ "b" ++ q ++ ": [], " ++ q ++ "a" ++ q ++ ": 2}")%string in
  loads text = Web.Ok (JObj [("a", JInt 2); ("b", JArr [])]) /\
  keys_distinct (JObj [("a", JInt 2); ("b", JArr [])]) = true /\
  loads (dumps (JObj [("a", JInt 2); ("b", JArr [])])) = Web.Ok (JObj [("a", JInt 2); ("b", JArr [])]).
Proof.
  intros q text. assert (H : loads text = Web.Ok (JObj [("a", JInt 2); ("b", JArr [])])) by (vm_compute; reflexivity).
  split; [exact H | exact (loads_dump_stable _ _ H)].
Defined.

End Roundtrip.
