(* ===== verification/Dedup.v ===== *)
(** * The deduplicator: [remove_repetitions] of [src/data_parser.py]

<<
    seen_titles = set()
    unique_posts = []
    for post in posts:
        title = post['title']
        if title not in seen_titles:
            seen_titles.add(title)
            unique_posts.append(post)
>>
    [dedup_loop] is that loop, with the set of seen titles as a [gset]
    of title keys. [remove_repetitions] wraps it between reading the
    file, [json.load], iteration over the loaded value, and the rewrite
    with [json.dump]. The reference [firsts] keeps a post when its title
    occurs in no earlier post (not only in no earlier kept post). The
    refinement lemma shows that the set of kept titles decides the same.
    The properties of the output follow from the reference: distinct
    titles, a subsequence of the input, every title kept, the first
    post of each title kept, and idempotence. *)

From S2P Require Import Prelude Dom Web Json.
Import Web.Notations.
Local Open Scope crawl_scope.

Module Dedup.
Import Json.

(** [title = post['title']], hashed by [title not in seen_titles]. *)
Definition title_key (post : json) : Web.outcome key :=
  match getitem post "title" with
  | Web.Ok t => hash_key t
  | Web.Raise e => Web.Raise e
  end.

Fixpoint dedup_loop (posts : list json) (seen_titles : gset key)
    (unique_posts : list json) : Web.outcome (list json) :=
  match posts with
  | [] => Web.Ok unique_posts
  | post :: rest =>
      match title_key post with
      | Web.Raise e => Web.Raise e
      | Web.Ok title =>
          if bool_decide (title ∈ seen_titles) then dedup_loop rest seen_titles unique_posts
          else dedup_loop rest ({[title]} ∪ seen_titles) (unique_posts ++ [post])
      end
  end.

(** [remove_repetitions(file_path)]. *)
Definition remove_repetitions `{JsonLoad} (file_path : string) : Web.IO unit :=
  text <- Web.read_file file_path ;;
  posts <- Web.lift (json_loads text) ;;
  items <- Web.lift (py_iter posts) ;;
  unique_posts <- Web.lift (dedup_loop items ∅ []) ;;
  Web.write_file file_path (dumps (JArr unique_posts)).

(** The path [src/data_parser.py] passes when run as a script: the
    output file of the crawler in the author's checkout. *)
Definition DATA_PATH : string :=
  "/Users/dmitry057/Projects/DeepL/easy-local-rag/collected_forum_data/all_posts.json".

(** [if __name__ == "__main__": remove_repetitions(DATA_PATH)]. *)
Definition data_parser_script `{JsonLoad} : Web.IO unit := remove_repetitions DATA_PATH.

(** ** Reference semantics *)

(** The posts with their title keys, or the first error of a title. *)
Fixpoint keyed (posts : list json) : Web.outcome (list (key * json)) :=
  match posts with
  | [] => Web.Ok []
  | post :: rest =>
      match title_key post with
      | Web.Raise e => Web.Raise e
      | Web.Ok k =>
          match keyed rest with
          | Web.Raise e => Web.Raise e
          | Web.Ok kr => Web.Ok ((k, post) :: kr)
          end
      end
  end.

(** The pairs whose key occurs neither in [prev] nor in an earlier
    pair. *)
Fixpoint firsts (prev : list key) (kps : list (key * json)) : list (key * json) :=
  match kps with
  | [] => []
  | (k, x) :: kps' =>
      (if bool_decide (k ∈ prev) then [] else [(k, x)]) ++ firsts (k :: prev) kps'
  end.

(** The loop computes the reference: the set of kept titles has the
    same members as the list of all earlier titles. *)
Lemma dedup_loop_firsts posts kps seen unique prev :
  (forall k, k ∈ seen <-> k ∈ prev) ->
  keyed posts = Web.Ok kps ->
  dedup_loop posts seen unique = Web.Ok (unique ++ map snd (firsts prev kps)).
Proof.
  revert kps seen unique prev.
  induction posts as [|post posts IH]; intros kps seen unique prev Hseen Hk; simpl in Hk.
  - injection Hk as <-. simpl. by rewrite app_nil_r.
  - destruct (title_key post) as [k|e] eqn:Ht; [|done].
    destruct (keyed posts) as [kr|e] eqn:Hr; [|done]. injection Hk as <-.
    simpl. rewrite Ht.
    assert (Hdec : bool_decide (k ∈ seen) = bool_decide (k ∈ prev)).
    { apply bool_decide_ext, Hseen. }
    rewrite Hdec. destruct (bool_decide (k ∈ prev)) eqn:Hin.
    + apply bool_decide_eq_true in Hin.
      rewrite (IH kr seen unique (k :: prev)); [done| |done].
      intros k'. rewrite Hseen, elem_of_cons. split; [by right | by intros [->|?]].
    + rewrite (IH kr ({[k]} ∪ seen) (unique ++ [post]) (k :: prev)); [by rewrite <- app_assoc | |done].
      intros k'. by rewrite elem_of_union, elem_of_singleton, elem_of_cons, Hseen.
Qed.

(** The loop raises the error of the first post whose title is missing
    or unhashable. *)
Lemma dedup_loop_error posts seen unique e :
  keyed posts = Web.Raise e -> dedup_loop posts seen unique = Web.Raise e.
Proof.
  revert seen unique. induction posts as [|post posts IH]; intros seen unique Hk; simpl in *.
  - done.
  - destruct (title_key post) as [k|e'] eqn:Ht; [|by injection Hk as ->].
    destruct (keyed posts) as [kr|e'] eqn:Hr; [done|]. injection Hk as <-.
    destruct (bool_decide _); by apply IH.
Qed.

(** ** Lemmas on the reference *)

Lemma firsts_sublist prev kps : firsts prev kps `sublist_of` kps.
Proof.
  revert prev. induction kps as [|[k x] kps IH]; intros prev; simpl; [done|].
  case_bool_decide; simpl; [by apply sublist_cons | by apply sublist_skip].
Qed.

Lemma firsts_fresh prev kps k : k ∈ map fst (firsts prev kps) -> k ∉ prev.
Proof.
  revert prev. induction kps as [|[k' x] kps IH]; intros prev; simpl; [by intros ?%elem_of_nil|].
  case_bool_decide as Hin; simpl.
  - intros Hk%IH. rewrite elem_of_cons in Hk. tauto.
  - rewrite elem_of_cons. intros [-> | Hk%IH]; [done|]. rewrite elem_of_cons in Hk. tauto.
Qed.

Lemma firsts_nodup prev kps : NoDup (map fst (firsts prev kps)).
Proof.
  revert prev. induction kps as [|[k x] kps IH]; intros prev; simpl; [constructor|].
  case_bool_decide; simpl; [done|]. constructor; [|done].
  intros Hk%firsts_fresh. apply Hk, elem_of_cons. by left.
Qed.

Lemma firsts_complete prev kps k :
  k ∈ map fst kps -> k ∈ prev \/ k ∈ map fst (firsts prev kps).
Proof.
  revert prev. induction kps as [|[k' x] kps IH]; intros prev; simpl; [by intros ?%elem_of_nil|].
  rewrite elem_of_cons. intros [-> | Hk].
  - case_bool_decide; [by left | right; simpl; by left].
  - destruct (IH (k' :: prev) Hk) as [Hp | Hf].
    + rewrite elem_of_cons in Hp. destruct Hp as [-> | Hp]; [|by left].
      case_bool_decide; [by left | right; simpl; by left].
    + right. case_bool_decide; simpl; [done | by right].
Qed.

(** A pair is kept exactly when its key is new: in neither [prev] nor
    an earlier pair. *)
Lemma firsts_first_occurrence prev kps k x :
  (k, x) ∈ firsts prev kps <->
  (exists i, kps !! i = Some (k, x) /\ (k ∉ prev) /\ (k ∉ map fst (take i kps))).
Proof.
  revert prev. induction kps as [|[k' x'] kps IH]; intros prev; simpl.
  - split; [by intros ?%elem_of_nil | by intros (i & ? & _)].
  - rewrite elem_of_app, IH. split.
    + intros [Hh | (i & Hi & Hp & Ht)].
      * case_bool_decide; [by apply elem_of_nil in Hh|].
        apply list_elem_of_singleton in Hh. injection Hh as -> ->.
        exists 0. simpl. split; [done|]. split; [done|]. by intros ?%elem_of_nil.
      * exists (S i). simpl. rewrite elem_of_cons in Hp. split; [done|].
        split; [tauto|]. rewrite elem_of_cons. tauto.
    + intros ([|i] & Hi & Hp & Ht); simpl in Hi, Ht.
      * injection Hi as -> ->. left. case_bool_decide; [done|]. by left.
      * right. exists i. split; [done|]. rewrite elem_of_cons in Ht.
        rewrite elem_of_cons. tauto.
Qed.

Lemma firsts_id prev kps :
  NoDup (map fst kps) -> (forall k, k ∈ map fst kps -> k ∉ prev) -> firsts prev kps = kps.
Proof.
  revert prev. induction kps as [|[k x] kps IH]; intros prev Hnd Hfresh; simpl; [done|].
  simpl in Hnd. apply NoDup_cons in Hnd as [Hk Hnd].
  rewrite bool_decide_eq_false_2; [|apply Hfresh, elem_of_cons; by left].
  simpl. f_equal. apply IH; [done|]. intros k' Hk'. rewrite elem_of_cons.
  intros [-> | Hp]; [done|]. apply (Hfresh k'); [by apply elem_of_cons; right | done].
Qed.

Lemma keyed_ok posts kps :
  keyed posts = Web.Ok kps ->
  map snd kps = posts /\ Forall (fun '(k, x) => title_key x = Web.Ok k) kps.
Proof.
  revert kps. induction posts as [|post posts IH]; intros kps Hk; simpl in Hk.
  - by injection Hk as <-.
  - destruct (title_key post) as [k|e] eqn:Ht; [|done].
    destruct (keyed posts) as [kr|e] eqn:Hr; [|done]. injection Hk as <-.
    destruct (IH kr eq_refl) as [<- HF]. split; [done|]. by constructor.
Qed.

Lemma keyed_map_snd (kps : list (key * json)) :
  Forall (fun '(k, x) => title_key x = Web.Ok k) kps -> keyed (map snd kps) = Web.Ok kps.
Proof.
  induction kps as [|[k x] kps IH]; intros HF; [done|].
  apply Forall_cons in HF as [Hx HF]. simpl. rewrite Hx, IH; done.
Qed.

Lemma seen_empty (k : key) : k ∈ (∅ : gset key) <-> k ∈ ([] : list key).
Proof. split; [by intros ?%not_elem_of_empty | by intros ?%elem_of_nil]. Qed.

(** A run that returns had every title present and hashable. *)
Lemma dedup_loop_ok_keyed posts out :
  dedup_loop posts ∅ [] = Web.Ok out ->
  exists kps, keyed posts = Web.Ok kps /\ out = map snd (firsts [] kps).
Proof.
  destruct (keyed posts) as [kps|e] eqn:Hk.
  - rewrite (dedup_loop_firsts posts kps ∅ [] []); [|apply seen_empty|done].
    intros [= <-]. by exists kps.
  - by rewrite (dedup_loop_error _ _ _ _ Hk).
Qed.

#[export] Hint Resolve firsts_sublist firsts_nodup firsts_fresh : crawl.

Lemma keyed_firsts posts kps :
  keyed posts = Web.Ok kps -> keyed (map snd (firsts [] kps)) = Web.Ok (firsts [] kps).
Proof.
  intros Hk. apply keyed_map_snd. destruct (keyed_ok _ _ Hk) as [_ HF].
  eauto with crawl.
Qed.

(** The output is a subsequence of the input. *)
Lemma dedup_loop_sublist posts out : dedup_loop posts ∅ [] = Web.Ok out -> out `sublist_of` posts.
Proof.
  intros (kps & Hk & ->)%dedup_loop_ok_keyed.
  destruct (keyed_ok _ _ Hk) as [Hp _]. rewrite <- Hp. auto with crawl.
Qed.

(** Deduplicating the output again changes nothing. *)
Lemma dedup_idempotent posts out :
  dedup_loop posts ∅ [] = Web.Ok out -> dedup_loop out ∅ [] = Web.Ok out.
Proof.
  intros (kps & Hk & ->)%dedup_loop_ok_keyed.
  rewrite (dedup_loop_firsts _ (firsts [] kps) ∅ [] []); [| apply seen_empty | exact (keyed_firsts _ _ Hk)].
  rewrite (firsts_id [] (firsts [] kps)); [done | auto with crawl | by intros k _ ?%elem_of_nil].
Qed.

(** ** Properties of [remove_repetitions] *)

(** C8. Equivalence with the reference: when every post has a present,
    hashable title, the loop keeps exactly the posts whose title occurs
    in no earlier post. Checking the set of kept titles decides the same
    as checking all earlier titles. *)
Theorem dedup_loop_refines posts kps :
  keyed posts = Web.Ok kps -> dedup_loop posts ∅ [] = Web.Ok (map snd (firsts [] kps)).
Proof. intros Hk. by rewrite (dedup_loop_firsts posts kps ∅ [] []); [| apply seen_empty |]. Qed.

(** C9. Distinct titles: the output's titles are pairwise distinct (as
    Python compares them), and the output is a subsequence of the input:
    its posts in their input order. *)
Theorem dedup_distinct_titles posts out :
  dedup_loop posts ∅ [] = Web.Ok out ->
  out `sublist_of` posts /\ exists kout, keyed out = Web.Ok kout /\ NoDup (map fst kout).
Proof.
  intros Hd. split; [exact (dedup_loop_sublist _ _ Hd)|].
  apply dedup_loop_ok_keyed in Hd as (kps & Hk & ->).
  exists (firsts [] kps). split; [by apply (keyed_firsts posts) | auto with crawl].
Qed.

(** Every title is kept: a title occurs in the output exactly when
    it occurs in the input. *)
Theorem dedup_keeps_every_title posts out kps kout :
  dedup_loop posts ∅ [] = Web.Ok out -> keyed posts = Web.Ok kps -> keyed out = Web.Ok kout ->
  forall k, k ∈ map fst kps <-> k ∈ map fst kout.
Proof.
  intros (kps' & Hk & ->)%dedup_loop_ok_keyed Hk' Hout k.
  rewrite Hk in Hk'. injection Hk' as <-. rewrite (keyed_firsts _ _ Hk) in Hout. injection Hout as <-.
  split.
  - intros [Hn | Hf]%(firsts_complete []); [by apply elem_of_nil in Hn | done].
  - intros Hf. apply list_elem_of_In, in_map_iff in Hf as ([k' x] & <- & Hin).
    apply list_elem_of_In, in_map_iff. exists (k', x). split; [done|].
    apply list_elem_of_In. eapply elem_of_sublist; [apply list_elem_of_In, Hin | apply firsts_sublist].
Qed.

(** C10. First occurrences: a post is in the output exactly when it is
    the first post of its title in the input. *)
Theorem dedup_first_occurrence posts kps out :
  dedup_loop posts ∅ [] = Web.Ok out -> keyed posts = Web.Ok kps ->
  forall x, x ∈ out <-> exists i k, kps !! i = Some (k, x) /\ (k ∉ map fst (take i kps)).
Proof.
  intros (kps' & Hk & ->)%dedup_loop_ok_keyed Hk' x.
  rewrite Hk in Hk'. injection Hk' as <-.
  rewrite list_elem_of_In, in_map_iff. split.
  - intros ([k x'] & <- & Hin%list_elem_of_In).
    apply firsts_first_occurrence in Hin as (i & Hi & _ & Ht). by exists i, k.
  - intros (i & k & Hi & Ht). exists (k, x). split; [done|]. apply list_elem_of_In.
    apply firsts_first_occurrence. exists i. split; [done|]. split; [by intros ?%elem_of_nil | done].
Qed.



Definition doc (title : json) (chat : list json) : json :=
  JObj [("title", title); ("chat", JArr chat)].

Definition post_obj (author content : string) : json :=
  JObj [("author", JStr author); ("date", JStr "Unknown"); ("content", JStr content)].

(** The scenario of the spec: two documents titled "Bug report"
    with different posts; the first one is kept. *)
Example dedup_bug_report :
  dedup_loop [doc (JStr "Bug report") [post_obj "ann" "crash on start"];
              doc (JStr "Other") [];
              doc (JStr "Bug report") [post_obj "bob" "fixed in 0.21"]] ∅ [] =
  Web.Ok [doc (JStr "Bug report") [post_obj "ann" "crash on start"]; doc (JStr "Other") []].
Proof. vm_compute. reflexivity. Qed.


(** C13. A post without a ["title"] key makes the loop raise [KeyError],
    once the posts before it have hashable titles. No partial result
    survives. *)
Theorem dedup_missing_title pre kps kvs rest :
  keyed pre = Web.Ok kps -> dict_lookup "title" kvs = None ->
  dedup_loop (pre ++ JObj kvs :: rest) ∅ [] = Web.Raise (Web.KeyError "title").
Proof.
  intros Hpre Hnone. apply dedup_loop_error.
  revert kps Hpre. induction pre as [|p pre IH]; intros kps Hpre; simpl in *.
  - unfold title_key, getitem. by rewrite Hnone.
  - destruct (title_key p) as [k|e]; [|done].
    destruct (keyed pre) as [kr|e] eqn:Hr; [|done].
    by rewrite (IH kr eq_refl).
Qed.

Lemma dedup_missing_title_witness :
  keyed [doc (JStr "a") []] = Web.Ok [(KStr "a", doc (JStr "a") [])] /\
  dict_lookup "title" [("chat", JArr [])] = None /\
  dedup_loop ([doc (JStr "a") []] ++ JObj [("chat", JArr [])] :: []) ∅ [] =
    Web.Raise (Web.KeyError "title").
Proof.
  split; [reflexivity|]. split; [reflexivity|].
  apply (dedup_missing_title _ [(KStr "a", doc (JStr "a") [])]); reflexivity.
Defined.

(** C23. [remove_repetitions] on a file holding a JSON array: when the
    loop raises, the exception propagates and the file is untouched.
    Otherwise the file is rewritten, by [json.dump] with [indent=4],
    to the array of the kept posts. *)
Theorem remove_repetitions_spec `{JsonLoad} (path text : string) (posts : list json) (w : Web.world) :
  Web.file_at w path = Some text ->
  json_loads text = Web.Ok (JArr posts) ->
  Web.dir_exists w path = true ->
  remove_repetitions path w =
  match dedup_loop posts ∅ [] with
  | Web.Ok out =>
      (Web.Ok tt, Web.World (Web.w_site w) (Web.w_log w) (Web.w_cwd w) (Web.w_dirs w)
                    (<[Web.abspath w path := dumps (JArr out)]> (Web.w_files w)))
  | Web.Raise e => (Web.Raise e, w)
  end.
Proof.
  intros Hfile Hload Hdir.
  unfold remove_repetitions, Web.bind, Web.read_file, Web.lift. rewrite Hfile, Hload. simpl.
  destruct (dedup_loop posts ∅ []) as [out|e]; [|done].
  unfold Web.write_file. by rewrite Hdir.
Qed.

(** ** Witnesses on the scenario's input *)

Definition bug_reports : list json :=
  [doc (JStr "Bug report") [post_obj "ann" "crash on start"];
   doc (JStr "Other") [];
   doc (JStr "Bug report") [post_obj "bob" "fixed in 0.21"]].

Definition bug_reports_keyed : list (key * json) :=
  [(KStr "Bug report", doc (JStr "Bug report") [post_obj "ann" "crash on start"]);
   (KStr "Other", doc (JStr "Other") []);
   (KStr "Bug report", doc (JStr "Bug report") [post_obj "bob" "fixed in 0.21"])].

Definition bug_reports_out : list json :=
  [doc (JStr "Bug report") [post_obj "ann" "crash on start"]; doc (JStr "Other") []].

Lemma dedup_loop_refines_witness :
  keyed bug_reports = Web.Ok bug_reports_keyed /\
  dedup_loop bug_reports ∅ [] = Web.Ok (map snd (firsts [] bug_reports_keyed)).
Proof.
  split; [reflexivity|]. apply dedup_loop_refines. reflexivity.
Defined.

Lemma dedup_distinct_titles_witness :
  dedup_loop bug_reports ∅ [] = Web.Ok bug_reports_out /\
  (bug_reports_out `sublist_of` bug_reports /\
   exists kout, keyed bug_reports_out = Web.Ok kout /\ NoDup (map fst kout)).
Proof.
  assert (H : dedup_loop bug_reports ∅ [] = Web.Ok bug_reports_out) by (vm_compute; reflexivity).
  split; [exact H|]. exact (dedup_distinct_titles _ _ H).
Defined.

Lemma dedup_keeps_every_title_witness :
  KStr "Other" ∈ map fst bug_reports_keyed <-> KStr "Other" ∈ map fst (firsts [] bug_reports_keyed).
Proof.
  apply (dedup_keeps_every_title bug_reports bug_reports_out); vm_compute; reflexivity.
Defined.

Lemma dedup_first_occurrence_witness :
  doc (JStr "Other") [] ∈ bug_reports_out <->
    exists i k, bug_reports_keyed !! i = Some (k, doc (JStr "Other") []) /\
      (k ∉ map fst (take i bug_reports_keyed)).
Proof.
  apply (dedup_first_occurrence bug_reports); vm_compute; reflexivity.
Defined.

Definition bug_reports_world : Web.world :=
  Web.World (fun _ => Web.NetworkFailure) [] "/data" {["/data"]} {["/data/all_posts.json" := "[...]"]}.

Lemma remove_repetitions_spec_witness :
  @remove_repetitions {| json_loads _ := Web.Ok (JArr bug_reports) |} "all_posts.json" bug_reports_world =
  (Web.Ok tt, Web.World (fun _ => Web.NetworkFailure) [] "/data" {["/data"]}
                {["/data/all_posts.json" := dumps (JArr bug_reports_out)]}).
Proof.
  rewrite (@remove_repetitions_spec {| json_loads _ := Web.Ok (JArr bug_reports) |}
             "all_posts.json" "[...]" bug_reports); [| reflexivity | reflexivity | reflexivity].
  vm_compute. reflexivity.
Defined.

End Dedup.
