(* ===== verification/Crawl.v ===== *)
(** * The orchestrator and the sink: [main] of [src/net_spider.py]

<<
    topics_data = scrape_subforum(SUBFORUM_URL, max_pages=1000)
    for topic_title, topic_url in topics_data:
        posts = scrape_topic(topic_url, max_pages=1000)
        with open("collected_forum_data/all_posts.json", "a") as file:
            json.dump({"title": topic_title, "chat": posts}, file, indent=4)
            file.write(",\n")
    with open("collected_forum_data/all_posts.json", "a") as file:
        file.write("]")
>>
    [crawl_topics] is the for loop and [main] the whole function; the
    [print] calls are left out. The theorems describe the file a run
    leaves behind. A run that completes appends one document and
    [",\n"] per topic, in listing order, then ["]"]. The text never
    opens with ["["] and ends in a trailing comma before ["]"];
    [Pipeline] shows that [json.load] refuses it. A failing fetch
    aborts the run: no later topic is scraped and the closing bracket
    is never written. A missing output directory is noticed only at
    the first append, after the subforum and the first topic have been
    scraped. [main_footprint] bounds every run, whatever it raises: the
    requests carry [HEADERS] and only the output file changes. *)

From S2P Require Import Prelude Dom Web Extract Fixtures Paginate Json.
Import Web.Notations.
Local Open Scope crawl_scope.
Local Set Warnings "-inexact-float".

Module Crawl.
Import Json.

Definition OUTPUT_PATH : string := "collected_forum_data/all_posts.json".

(** [",\n"] *)
Definition SEPARATOR : string := "," ++ chr 10.

(** The dict [{"author": ..., "date": ..., "content": ...}]. *)
Definition post_json (p : Extract.post) : json :=
  JObj [("author", JStr (Extract.author p)); ("date", JStr (Extract.date p));
        ("content", JStr (Extract.content p))].

(** The dict [{"title": topic_title, "chat": posts}]. *)
Definition topic_doc (topic_title : string) (posts : list Extract.post) : json :=
  JObj [("title", JStr topic_title); ("chat", JArr (map post_json posts))].

(** The events a run of the crawler logs: requests that carry
    [HEADERS], and sleeps of [0.1] seconds. *)
Definition crawler_event (ev : Web.event) : Prop :=
  match ev with
  | Web.EvRequest _ hdrs => hdrs = Web.HEADERS
  | Web.EvSleep secs => secs = 0.1%float
  end.

Section Main.
Context `{UrlJoin}.

Fixpoint crawl_topics (topics : list Extract.topic) : Web.IO unit :=
  match topics with
  | [] => Web.ret tt
  | (topic_title, topic_url) :: rest =>
      posts <- Paginate.scrape_topic topic_url 1000 0.1 ;;
      Web.append_file OUTPUT_PATH (dumps (topic_doc topic_title posts) ++ SEPARATOR) ;;
      crawl_topics rest
  end.

(** [main()]. *)
Definition main : Web.IO unit :=
  topics_data <- Paginate.scrape_subforum Extract.SUBFORUM_URL 1000 0.1 ;;
  crawl_topics topics_data ;;
  Web.append_file OUTPUT_PATH "]".

(** [if __name__ == "__main__": main()]: the script run from its
    working directory. *)
Definition net_spider_script : Web.IO unit := main.

(** What the appends of a run add to the file. *)
Definition sink_text (docs : list json) : string :=
  fold_right (fun d acc => dumps d ++ SEPARATOR ++ acc)%string "" docs.

(** ** Reference semantics of a run *)

(** The posts of a topic and how its chain of pages ends. *)
Definition topic_run (site : string -> Web.fetch_result) (topic_url : option string)
    : list Extract.post * Paginate.chain_end :=
  let '(pages, fin) := Paginate.page_chain (T:=Extract.post) site (Z.to_nat 1000) topic_url in
  (List.concat (map snd pages), fin).

Definition topic_ok (site : string -> Web.fetch_result) (t : Extract.topic) : Prop :=
  (topic_run site t.2).2 = Paginate.Stop.

(** The documents of the topics, in listing order. *)
Definition docs_of (site : string -> Web.fetch_result) (topics : list Extract.topic) : list json :=
  map (fun t => topic_doc t.1 (topic_run site t.2).1) topics.

Lemma scrape_topic_run (topic_url : option string) w :
  exists evs, Paginate.scrape_topic topic_url 1000 0.1 w =
    (match (topic_run (Web.w_site w) topic_url).2 with
     | Paginate.Stop => Web.Ok (topic_run (Web.w_site w) topic_url).1
     | Paginate.Fail _ e => Web.Raise e
     end, Web.with_log w evs).
Proof.
  rewrite Paginate.scrape_topic_pages, Paginate.scrape_pages_chain. unfold topic_run.
  destruct (Paginate.page_chain _ _ _) as [pages fin].
  exists (Paginate.chain_log 0.1 pages fin). by destruct fin.
Qed.

Definition listing_run (site : string -> Web.fetch_result) : list Extract.topic * Paginate.chain_end :=
  let '(pages, fin) :=
    Paginate.page_chain (T:=Extract.topic) site (Z.to_nat 1000) (Some Extract.SUBFORUM_URL) in
  (List.concat (map snd pages), fin).

Lemma scrape_subforum_run w :
  exists evs, Paginate.scrape_subforum Extract.SUBFORUM_URL 1000 0.1 w =
    (match (listing_run (Web.w_site w)).2 with
     | Paginate.Stop => Web.Ok (listing_run (Web.w_site w)).1
     | Paginate.Fail _ e => Web.Raise e
     end, Web.with_log w evs).
Proof.
  rewrite Paginate.scrape_subforum_pages, Paginate.scrape_pages_chain. unfold listing_run.
  destruct (Paginate.page_chain _ _ _) as [pages fin].
  exists (Paginate.chain_log 0.1 pages fin). by destruct fin.
Qed.

Lemma crawl_topics_ok topics w :
  Web.dir_exists w OUTPUT_PATH = true ->
  Forall (topic_ok (Web.w_site w)) topics ->
  exists w', crawl_topics topics w = (Web.Ok tt, w') /\ Web.w_site w' = Web.w_site w /\
    Web.w_cwd w' = Web.w_cwd w /\ Web.w_dirs w' = Web.w_dirs w /\
    (forall p, p <> Web.abspath w OUTPUT_PATH -> Web.w_files w' !! p = Web.w_files w !! p) /\
    default "" (Web.file_at w' OUTPUT_PATH) =
      (default "" (Web.file_at w OUTPUT_PATH) ++ sink_text (docs_of (Web.w_site w) topics))%string.
Proof.
  revert w. induction topics as [|[t u] topics IH]; intros w Hdir Hok.
  - exists w. simpl. by rewrite str_app_nil_r.
  - apply Forall_cons in Hok as [Hhd Htl]. unfold topic_ok in Hhd. simpl in Hhd.
    destruct (scrape_topic_run u w) as [evs Hrun]. rewrite Hhd in Hrun.
    simpl crawl_topics. io_step Hrun.
    io_append.
    match goal with |- context [crawl_topics topics ?w2] => destruct (IH w2) as (w' & Hc & Hs & Hcwd & Hd & Hf & Hout) end;
      [exact Hdir | exact Htl |].
    exists w'. rewrite Hc. simpl in Hs, Hcwd, Hd. do 4 (split; [done|]). split.
    + intros p Hp. rewrite Hf by exact Hp. simpl. rewrite lookup_insert_ne; [done | exact (not_eq_sym Hp)].
    + rewrite Hout; erewrite (Web.file_at_insert (Web.with_log w evs)) by reflexivity. simpl. by rewrite !str_app_assoc.
Qed.

Lemma crawl_topics_fail pre t u post w u' e :
  Web.dir_exists w OUTPUT_PATH = true ->
  Forall (topic_ok (Web.w_site w)) pre ->
  (topic_run (Web.w_site w) u).2 = Paginate.Fail u' e ->
  exists w', crawl_topics (pre ++ (t, u) :: post) w = (Web.Raise e, w') /\
    default "" (Web.file_at w' OUTPUT_PATH) =
      (default "" (Web.file_at w OUTPUT_PATH) ++ sink_text (docs_of (Web.w_site w) pre))%string.
Proof.
  revert w. induction pre as [|[t0 u0] pre IH]; intros w Hdir Hok Hfail.
  - destruct (scrape_topic_run u w) as [evs Hrun]. rewrite Hfail in Hrun.
    simpl. io_step Hrun.
    eexists. split; [done|]. simpl. by rewrite str_app_nil_r.
  - apply Forall_cons in Hok as [Hhd Htl]. unfold topic_ok in Hhd. simpl in Hhd.
    destruct (scrape_topic_run u0 w) as [evs Hrun]. rewrite Hhd in Hrun.
    simpl app. simpl crawl_topics. io_step Hrun.
    io_append.
    match goal with |- context [crawl_topics _ ?w2] => destruct (IH w2) as (w' & Hc & Hout) end;
      [exact Hdir | exact Htl | exact Hfail |].
    exists w'. split; [done|]. rewrite Hout. unfold Web.file_at. simpl. rewrite lookup_insert_eq. simpl.
    by rewrite !str_app_assoc.
Qed.

(** A run of [main] that meets no error, with the world it leaves:
    the directories as they were, the other files untouched, and the
    output file extended by the documents and the closing bracket. *)
Lemma main_run w :
  Web.dir_exists w OUTPUT_PATH = true ->
  (listing_run (Web.w_site w)).2 = Paginate.Stop ->
  Forall (topic_ok (Web.w_site w)) (listing_run (Web.w_site w)).1 ->
  exists w', main w = (Web.Ok tt, w') /\ Web.w_cwd w' = Web.w_cwd w /\ Web.w_dirs w' = Web.w_dirs w /\
    (forall p, p <> Web.abspath w OUTPUT_PATH -> Web.w_files w' !! p = Web.w_files w !! p) /\
    Web.file_at w' OUTPUT_PATH =
      Some (default "" (Web.file_at w OUTPUT_PATH) ++
            sink_text (docs_of (Web.w_site w) (listing_run (Web.w_site w)).1) ++ "]")%string.
Proof.
  intros Hdir Hstop Hok. destruct (scrape_subforum_run w) as [evs Hrun]. rewrite Hstop in Hrun.
  unfold main. io_step Hrun.
  destruct (crawl_topics_ok (listing_run (Web.w_site w)).1 (Web.with_log w evs))
    as (w' & Hc & Hs & Hcwd & Hd & Hf & Hout); [by rewrite Web.dir_exists_with_log | exact Hok |].
  io_step Hc.
  rewrite (Web.append_file_ok _ _ _ ltac:(by rewrite (Web.dir_exists_same w' w))).
  assert (Ha : Web.abspath w' OUTPUT_PATH = Web.abspath w OUTPUT_PATH) by exact (Web.abspath_same _ _ _ Hcwd).
  eexists. split; [reflexivity|]. simpl. do 2 (split; [done|]). split.
  - intros p Hp. rewrite Ha, lookup_insert_ne by exact (not_eq_sym Hp). by apply Hf.
  - erewrite (Web.file_at_insert w') by reflexivity. rewrite Hout. simpl. by rewrite str_app_assoc.
Qed.

(** C14. A run that meets no error: when the output directory exists
    and every fetch succeeds, [main] returns normally. Its file gets,
    after what it held, one document per topic in listing order, each
    followed by [",\n"], then a closing bracket. *)
Theorem main_completes w :
  Web.dir_exists w OUTPUT_PATH = true ->
  (listing_run (Web.w_site w)).2 = Paginate.Stop ->
  Forall (topic_ok (Web.w_site w)) (listing_run (Web.w_site w)).1 ->
  (main w).1 = Web.Ok tt /\
  Web.file_at (main w).2 OUTPUT_PATH =
    Some (default "" (Web.file_at w OUTPUT_PATH) ++
          sink_text (docs_of (Web.w_site w) (listing_run (Web.w_site w)).1) ++ "]")%string.
Proof.
  intros Hdir Hstop Hok. destruct (main_run w Hdir Hstop Hok) as (w' & -> & _ & _ & _ & Hout). done.
Qed.

Lemma sink_text_cons d docs : sink_text (d :: docs) = (dumps d ++ SEPARATOR ++ sink_text docs)%string.
Proof. reflexivity. Qed.

(** C17. No fail-soft per topic: when a topic's page fetch raises,
    [main] raises the same exception. The topics after it are never
    scraped. The file keeps the documents of the topics before it,
    each followed by a comma and a newline, with no closing bracket.
    The spec says the run wraps the partial posts and goes on. *)
Theorem main_aborts_on_failed_topic w pre t u post u' e :
  Web.dir_exists w OUTPUT_PATH = true ->
  listing_run (Web.w_site w) = (pre ++ (t, u) :: post, Paginate.Stop) ->
  Forall (topic_ok (Web.w_site w)) pre ->
  (topic_run (Web.w_site w) u).2 = Paginate.Fail u' e ->
  (main w).1 = Web.Raise e /\
  default "" (Web.file_at (main w).2 OUTPUT_PATH) =
    (default "" (Web.file_at w OUTPUT_PATH) ++ sink_text (docs_of (Web.w_site w) pre))%string.
Proof.
  intros Hdir Hlist Hok Hfail. destruct (scrape_subforum_run w) as [evs Hrun].
  rewrite Hlist in Hrun. simpl in Hrun.
  unfold main. io_step Hrun.
  destruct (crawl_topics_fail pre t u post (Web.with_log w evs) u' e) as (w' & Hc & Hout);
    [by rewrite Web.dir_exists_with_log | exact Hok | exact Hfail |].
  io_step Hc. simpl. split; [done|]. exact Hout.
Qed.


(** ** What a run may touch *)

Lemma footprint_scrape_pages_crawler `{PageExtractor T} n u :
  Web.footprint crawler_event OUTPUT_PATH (Paginate.scrape_pages parse_page n 0.1 u).
Proof. apply Paginate.footprint_scrape_loop; [intros; by apply footprint_parse_page | done]. Qed.

Lemma footprint_crawl_topics topics : Web.footprint crawler_event OUTPUT_PATH (crawl_topics topics).
Proof.
  induction topics as [|[t u] topics IH]; simpl; [auto with footprint|].
  apply Web.footprint_bind; [rewrite Paginate.scrape_topic_pages; apply footprint_scrape_pages_crawler|].
  auto with footprint.
Qed.

Lemma main_confined : Web.footprint crawler_event OUTPUT_PATH main.
Proof.
  unfold main. apply Web.footprint_bind; [rewrite Paginate.scrape_subforum_pages; apply footprint_scrape_pages_crawler|].
  auto using footprint_crawl_topics with footprint.
Qed.

(** C5. The footprint of [main], in every world and whatever the run
    returns or raises. Every request it adds to the log carries
    [HEADERS], and every sleep lasts [0.1] seconds. It keeps the
    working directory and the directories. It changes no file but
    [collected_forum_data/all_posts.json] under the working directory. *)
Theorem main_footprint w :
  exists evs, Web.w_log (main w).2 = Web.w_log w ++ evs /\ Forall crawler_event evs /\
    Web.w_cwd (main w).2 = Web.w_cwd w /\ Web.w_dirs (main w).2 = Web.w_dirs w /\
    (forall q, q <> Web.abspath w OUTPUT_PATH -> Web.w_files (main w).2 !! q = Web.w_files w !! q).
Proof.
  destruct (main_confined w) as (evs & _ & Hc & Hd & Hl & HP & Hf). by exists evs.
Qed.

End Main.

Section Witnesses.
Import Fixtures.

Lemma forum_topics : (listing_run (Web.w_site (world_of forum_site))).1 = [topic_ref "1"; topic_ref "2"].
Proof. vm_compute. reflexivity. Qed.

Lemma forum_topics_ok :
  Forall (topic_ok (Web.w_site (world_of forum_site))) (listing_run (Web.w_site (world_of forum_site))).1.
Proof.
  rewrite forum_topics.
  apply List.Forall_cons; [vm_compute; reflexivity|].
  apply List.Forall_cons; [vm_compute; reflexivity|]. apply List.Forall_nil.
Qed.

Lemma main_completes_witness :
  Web.dir_exists (world_of forum_site) OUTPUT_PATH = true /\
  (listing_run (Web.w_site (world_of forum_site))).2 = Paginate.Stop /\
  (main (world_of forum_site)).1 = Web.Ok tt.
Proof.
  assert (Hd : Web.dir_exists (world_of forum_site) OUTPUT_PATH = true) by reflexivity.
  assert (Hs : (listing_run (Web.w_site (world_of forum_site))).2 = Paginate.Stop)
    by (vm_compute; reflexivity).
  split; [exact Hd|]. split; [exact Hs|].
  exact (proj1 (main_completes (world_of forum_site) Hd Hs forum_topics_ok)).
Defined.

Lemma main_aborts_on_failed_topic_witness :
  (main (world_of forum_site_503)).1 =
    Web.Raise (Web.HTTPError 503 "https://forum.freecad.org/t2") /\
  default "" (Web.file_at (main (world_of forum_site_503)).2 OUTPUT_PATH) =
    sink_text (docs_of (Web.w_site (world_of forum_site_503)) [topic_ref "1"]).
Proof.
  apply (main_aborts_on_failed_topic (world_of forum_site_503) [topic_ref "1"] "Topic 2"
           (Some "https://forum.freecad.org/t2") [topic_ref "3"] "https://forum.freecad.org/t2").
  - reflexivity.
  - vm_compute. reflexivity.
  - apply List.Forall_cons; [vm_compute; reflexivity | apply List.Forall_nil].
  - vm_compute. reflexivity.
Defined.



End Witnesses.

End Crawl.

