(* ===== verification/Pipeline.v ===== *)
(** * The two programs together

    [main] ([src/net_spider.py]) writes
    [collected_forum_data/all_posts.json]. [remove_repetitions]
    ([src/data_parser.py]) reads a file with [json.load] and rewrites it
    with [json.dump]. With the scanner of [Scanner] as the [JsonLoad]
    instance, this file models the compositions the spec describes:
    [crawl_then_dedup] (the crawl, then the post-process step),
    [dedup_twice] (spec section 8), and [run_scripts], the two scripts
    run from one working directory with their entry points. It proves
    that the first fails on every ordinary run of [main], that the
    second equals a single run of [remove_repetitions], and that the
    third raises [FileNotFoundError] anywhere but in the author's
    checkout. *)

From S2P Require Import Prelude Web Extract Json Scanner Roundtrip Fixtures Paginate Dedup Crawl.

Module Pipeline.
Import Json Scanner Roundtrip.

(** The workflow of the two programs: run [net_spider.py], then run
    the deduplicator on the file it wrote. *)
Definition crawl_then_dedup `{UrlJoin} : Web.IO unit :=
  Web.bind Crawl.main (fun _ => Dedup.remove_repetitions Crawl.OUTPUT_PATH).

(** The author's checkout, the directory of [Dedup.DATA_PATH]. *)
Definition AUTHOR_DIR : string := "/Users/dmitry057/Projects/DeepL/easy-local-rag".

(** The two scripts run one after the other from one working
    directory: [python net_spider.py], then [python data_parser.py]. *)
Definition run_scripts `{UrlJoin} : Web.IO unit :=
  Web.bind Crawl.net_spider_script (fun _ => Dedup.data_parser_script).

(** The deduplicator applied twice to one file. *)
Definition dedup_twice (p : string) : Web.IO unit :=
  Web.bind (Dedup.remove_repetitions p) (fun _ => Dedup.remove_repetitions p).

#[local] Arguments dumps : simpl never.
#[local] Arguments loads : simpl never.

(** The text a run of [main] appends is refused by [json.load]: a lone
    []] when there is no topic, otherwise a document followed by a
    comma. *)
Lemma sink_text_rejected docs : loads (Crawl.sink_text docs ++ "]") = Web.Raise Web.JSONDecodeError.
Proof.
  destruct docs as [|d docs]; [vm_compute; reflexivity|].
  rewrite Crawl.sink_text_cons, <- !str_app_assoc. unfold Crawl.SEPARATOR. rewrite <- str_app_assoc.
  rewrite loads_dumps_app; reflexivity.
Qed.

Lemma py_iter_keys v items :
  keys_distinct v = true -> py_iter v = Web.Ok items -> forallb keys_distinct items = true.
Proof.
  destruct v as [| | | s | l | kvs]; simpl; try done.
  - intros _ [= <-]. apply forallb_forall. intros x (c & <- & _)%in_map_iff. done.
  - by intros H [= <-].
  - intros _ [= <-]. apply forallb_forall. intros x (k & <- & _)%in_map_iff. done.
Qed.

Lemma forallb_sublist {A} (f : A -> bool) l1 l2 :
  l1 `sublist_of` l2 -> forallb f l2 = true -> forallb f l1 = true.
Proof.
  intros Hs H. apply forallb_forall. intros x Hx. apply (proj1 (forallb_forall f l2) H).
  apply list_elem_of_In. eapply elem_of_sublist; [apply list_elem_of_In, Hx | exact Hs].
Qed.

Section Main.
Context `{UrlJoin}.

(** C15. The two programs do not compose. Take a run of [main] that
    meets no error and starts without an output file. Running the
    deduplicator after it raises [JSONDecodeError] and leaves the world
    as [main] left it. The file [main] writes has no opening bracket
    and has a comma before the closing one. *)
Theorem main_output_rejected w :
  Web.dir_exists w Crawl.OUTPUT_PATH = true ->
  Web.file_at w Crawl.OUTPUT_PATH = None ->
  (Crawl.listing_run (Web.w_site w)).2 = Paginate.Stop ->
  Forall (Crawl.topic_ok (Web.w_site w)) (Crawl.listing_run (Web.w_site w)).1 ->
  (Crawl.main w).1 = Web.Ok tt /\
  crawl_then_dedup w = (Web.Raise Web.JSONDecodeError, (Crawl.main w).2).
Proof.
  intros Hdir Hnone Hstop Hok. unfold crawl_then_dedup, Web.bind at 1.
  destruct (Crawl.main_run w Hdir Hstop Hok) as (w' & -> & _ & _ & _ & Hout).
  split; [done|]. simpl. unfold Dedup.remove_repetitions, Web.bind, Web.read_file. rewrite Hout, Hnone.
  change (json_loads ?t) with (loads t). simpl default. change (""%string ++ ?x)%string with x.
  by rewrite sink_text_rejected.
Qed.

(** The crawler's output is the deduplicator's input only in the
    author's checkout. *)
Lemma output_path_not_data w : Web.w_cwd w <> AUTHOR_DIR -> Web.abspath w Crawl.OUTPUT_PATH <> Dedup.DATA_PATH.
Proof.
  intros Hc Heq. apply Hc. unfold Web.abspath in Heq. simpl in Heq.
  change Dedup.DATA_PATH with (AUTHOR_DIR ++ "/" ++ Crawl.OUTPUT_PATH)%string in Heq.
  exact (str_app_inv_r _ _ _ Heq).
Qed.

(** C16. The scripts run anywhere but in the author's checkout do not
    compose. [data_parser.py] opens the absolute path [DATA_PATH], not
    the file [net_spider.py] wrote under the working directory. So when
    no file lies at [DATA_PATH], a run of the two scripts raises
    [FileNotFoundError] once [main] returns, whatever the site serves,
    and the crawl's output is never read. *)
Theorem scripts_miss_crawl_output w :
  Web.w_cwd w <> AUTHOR_DIR -> Web.file_at w Dedup.DATA_PATH = None ->
  run_scripts w =
    (match (Crawl.main w).1 with
     | Web.Ok _ => Web.Raise (Web.FileNotFoundError Dedup.DATA_PATH)
     | Web.Raise e => Web.Raise e
     end, (Crawl.main w).2).
Proof.
  intros Hc Hnone. unfold run_scripts, Crawl.net_spider_script, Web.bind at 1.
  destruct (Crawl.main_confined w) as (evs & _ & Hcwd & _ & _ & _ & Hf).
  destruct (Crawl.main w) as [[[]|e] w'] eqn:Hm; simpl in *; [|done].
  assert (Hr : Web.file_at w' Dedup.DATA_PATH = None).
  { unfold Web.file_at in *. rewrite (Web.abspath_same _ w) by exact Hcwd.
    unfold Web.abspath in *. simpl in *. rewrite Hf; [exact Hnone|].
    intros Heq. exact (output_path_not_data w Hc (eq_sym Heq)). }
  unfold Dedup.data_parser_script, Dedup.remove_repetitions, Web.bind at 1, Web.read_file. by rewrite Hr.
Qed.

End Main.

(** [remove_repetitions] reads back its own output. Run on the file it
    has just written, it succeeds and leaves the world as it is: what
    [json.dump] wrote loads as the same list, whose titles are already
    distinct. *)
Lemma remove_repetitions_reread p w w' :
  Dedup.remove_repetitions p w = (Web.Ok tt, w') -> Dedup.remove_repetitions p w' = (Web.Ok tt, w').
Proof.
  unfold Dedup.remove_repetitions, Web.bind, Web.read_file, Web.lift, Web.write_file.
  change (@json_loads py_json_load) with loads.
  destruct (Web.file_at w p) as [text|] eqn:Hf; [|done].
  destruct (loads text) as [posts|e] eqn:Hl; [|done].
  destruct (py_iter posts) as [items|e] eqn:Hi; [|done].
  destruct (Dedup.dedup_loop items ∅ []) as [u|e] eqn:Hd; [|done].
  destruct (Web.dir_exists w p) eqn:Hdir; [|done]. intros [= <-]. unfold Web.set_file.
  set (w1 := Web.World _ _ _ _ _).
  assert (Hf1 : Web.file_at w1 p = Some (dumps (JArr u))) by (apply (Web.file_at_insert w); reflexivity).
  assert (Hd1 : Web.dir_exists w1 p = true) by (rewrite (Web.dir_exists_same w1 w) by reflexivity; exact Hdir).
  rewrite Hf1, loads_dumps_norm, norm_id.
  - cbn. rewrite (Dedup.dedup_idempotent _ _ Hd), Hd1. unfold w1. cbn.
    rewrite (Web.abspath_same _ w) by reflexivity. by rewrite insert_insert_eq.
  - cbn. eapply forallb_sublist; [exact (Dedup.dedup_loop_sublist _ _ Hd)|].
    exact (py_iter_keys _ _ (loads_ok_keys _ _ Hl) Hi).
Qed.

(** C11. The deduplicator is idempotent: on any file and any world,
    applying it twice gives the same result and the same world as
    applying it once. When the first run raises, the second never
    starts. When it succeeds, the second run finds its own output and
    changes nothing. *)
Theorem remove_repetitions_idempotent p w :
  dedup_twice p w = Dedup.remove_repetitions p w.
Proof.
  unfold dedup_twice, Web.bind at 1.
  destruct (Dedup.remove_repetitions p w) as [[[]|e] w'] eqn:H; [|done].
  exact (remove_repetitions_reread _ _ _ H).
Qed.

Section Witnesses.
Import Fixtures.

Lemma main_output_rejected_witness :
  Web.dir_exists (world_of forum_site) Crawl.OUTPUT_PATH = true /\
  Web.file_at (world_of forum_site) Crawl.OUTPUT_PATH = None /\
  (Crawl.main (world_of forum_site)).1 = Web.Ok tt /\
  crawl_then_dedup (world_of forum_site) = (Web.Raise Web.JSONDecodeError, (Crawl.main (world_of forum_site)).2).
Proof.
  split; [reflexivity|]. split; [reflexivity|].
  apply main_output_rejected; [reflexivity | reflexivity | vm_compute; reflexivity | exact Crawl.forum_topics_ok].
Defined.

Lemma scripts_miss_crawl_output_witness :
  Web.w_cwd (world_of forum_site) <> AUTHOR_DIR /\
  Web.file_at (world_of forum_site) Dedup.DATA_PATH = None /\
  run_scripts (world_of forum_site) =
    (Web.Raise (Web.FileNotFoundError Dedup.DATA_PATH), (Crawl.main (world_of forum_site)).2).
Proof.
  assert (Hc : Web.w_cwd (world_of forum_site) <> AUTHOR_DIR) by (intros Heq; vm_compute in Heq; discriminate).
  split; [exact Hc|]. split; [reflexivity|].
  rewrite (scripts_miss_crawl_output _ Hc) by reflexivity.
  replace (Crawl.main (world_of forum_site)).1 with (Web.Ok tt : Web.outcome unit) by (vm_compute; reflexivity).
  reflexivity.
Defined.

(** A file holding a JSON array of three reports, two of one title. *)
Definition reports_world : Web.world :=
  Web.World (fun _ => Web.NetworkFailure) [] RUN_DIR {["/home/user/crawler/collected_forum_data"]}
    {["/home/user/crawler/collected_forum_data/all_posts.json" := dumps (JArr Dedup.bug_reports)]}.

Lemma remove_repetitions_idempotent_witness :
  (Dedup.remove_repetitions Crawl.OUTPUT_PATH reports_world).1 = Web.Ok tt /\
  dedup_twice Crawl.OUTPUT_PATH reports_world = Dedup.remove_repetitions Crawl.OUTPUT_PATH reports_world.
Proof. split; [vm_compute; reflexivity | apply remove_repetitions_idempotent]. Defined.

End Witnesses.

End Pipeline.
